(** * egjs-infinitegrid: the orchestrator and its scroll trigger

    A shallow embedding of [src/InfiniteGrid.js] and [src/eventHandler.js].
    The instance ([this]) is an explicit [State] record threaded through
    every method; the browser pieces the methods talk to (the container
    element, the viewport, the timers, the event bus) are fields of that
    record, so that "nothing happened" is an equation between states.

    The [LayoutManager] class of the library is imported by the source and
    is used here through an interface; [SpecLayoutManager] is an instance
    of it written after the design document. *)

From Stdlib Require Import ZArith Lia.
From stdpp Require Import base option list strings gmap.

Local Open Scope Z_scope.

(** ** DOM values *)

(** An [HTMLElement].  Object identity is [el_id]; the measured box is what
    the visual-element layer reports for it. *)
Record Element := {
  el_id : nat;
  tagName : string;
  el_width : Z;
  el_height : Z;
}.

#[global] Instance Element_eq_dec : EqDecision Element.
Proof. solve_decision. Defined.

(** The inline style of the container: [style.height] in px, next to
    whatever other declarations the page wrote.  [cssText] is the empty
    string exactly when both are absent. *)
Record Style := {
  cssDecls : string;
  height : option Z;
}.

#[global] Instance Style_eq_dec : EqDecision Style.
Proof. solve_decision. Defined.

Definition emptyStyle : Style := {| cssDecls := ""; height := None |}.

(** [this.el].  [innerHTML] is abstracted to the list of child elements
    (the empty string exactly when there is no child); [columns] is the
    number of fixed-width columns that fit the container at its current
    width. *)
Record Container := {
  children : list Element;
  style : Style;
  columns : nat;
}.

(** [this.view] seen through [utils.scrollTop], [utils.innerHeight] and
    [view.scrollTo]: the scroll offset and the height of the viewport.
    [scrollTo] moves the offset to the value it is given. *)
Record View := {
  scrollY : Z;
  innerHeight : Z;
}.

(** [getBoundingClientRect()], the two sides the handler reads. *)
Record Rect := {
  rect_top : Z;
  rect_bottom : Z;
}.

(** ** Items and options *)

Inductive GroupKeyVal :=
| GKNum (n : Z)
| GKStr (s : string).

#[global] Instance GroupKeyVal_eq_dec : EqDecision GroupKeyVal.
Proof. solve_decision. Defined.

(** [None] is JavaScript's [undefined] / [null]. *)
Definition GroupKey := option GroupKeyVal.

Record Item := {
  i_el : Element;
  i_groupKey : GroupKey;
  i_size : Z * Z;
  i_column : nat;
  i_position : Z * Z;
}.

#[global] Instance Item_eq_dec : EqDecision Item.
Proof. solve_decision. Defined.

Record Options := {
  isEqualSize : bool;
  defaultGroupKey : GroupKey;
  count : Z;
  threshold : Z;
}.

(** An options object as a caller writes it: any key may be missing. *)
Record POptions := {
  o_isEqualSize : option bool;
  o_defaultGroupKey : option GroupKey;
  o_count : option Z;
  o_threshold : option Z;
}.

(** [Object.assign(target, source)] on options. *)
Definition assignOptions (target : Options) (source : POptions) : Options :=
  {| isEqualSize := default (isEqualSize target) (o_isEqualSize source);
     defaultGroupKey := default (defaultGroupKey target) (o_defaultGroupKey source);
     count := default (count target) (o_count source);
     threshold := default (threshold target) (o_threshold source) |}.

Definition copyOptions (o : Options) : POptions :=
  {| o_isEqualSize := Some (isEqualSize o);
     o_defaultGroupKey := Some (defaultGroupKey o);
     o_count := Some (count o);
     o_threshold := Some (threshold o) |}.

Definition defaultOptions : Options :=
  {| isEqualSize := false; defaultGroupKey := None; count := 30; threshold := 300 |}.

(** The private [_options] of [layout]. *)
Record LayoutOptions := {
  isAppend : bool;
  removedCount : Z;
}.

(** ** The parts of the library the two files import *)

(** [consts.js]. *)
Class Consts := {
  IS_IOS : bool;
  RETRY : Z;
}.

(** [ImageLoaded.js]: the elements whose images are still loading. *)
Class ImageLoaded := {
  checkImageLoaded : Container → list Element;
}.

(** [LayoutManager.js], as the orchestrator calls it.  The manager keeps
    references to [this.el] and [this.options]; here the methods that read
    them take the current value as an argument.  [layoutItems] is handed
    the array [addItems] itself, not a copy: it may reorder the array and
    it writes column and position into the items the array holds.  The one
    call has two results here: [layoutItems] is the manager after the call,
    [layoutItems_addItems] the array after the call. *)
Class LayoutManager (LM LMStatus : Type) := {
  new_LayoutManager : Container → Options → LM;
  items : LM → list Item;
  itemize : list Element → GroupKey → list Item;
  lm_getStatus : LM → LMStatus;
  lm_setStatus : LMStatus → Container → LM → LM;
  getGroupKeys : LM → list GroupKey;
  layoutItems : bool → option (list Item) → LayoutOptions → Options → LM → LM;
  layoutItems_addItems :
    bool → list Item → LayoutOptions → Options → LM → list Item;
  getTopItem : LM → option Item;
  getBottomItem : LM → option Item;
  getLogicalHeight : LM → Z;
  getDelimiterIndex : bool → Z → LM → Z;
  adjustItems : bool → Z → LM → list Item * LM;
  fit : LM → Z * LM;
  resetCols : Container → LM → LM;
  clear_items : LM → LM;
  removeItem : Element → LM → option Item * LM;
  isNeededResize : Container → LM → bool;
}.

(** ** Instance state *)

(** [this._status]. *)
Record Status := {
  s_isProcessing : bool;
  s_isRecycling : bool;
  prevScrollTop : Z;
  topElement : option Element;
  bottomElement : option Element;
  clientHeight : Z;
}.

(** [this._timer]: two timer handles and the retry budget. *)
Record Timer := {
  resize : option nat;
  doubleCheck : option nat;
  doubleCheckCount : Z;
}.

(** The events the instance triggers, with their payloads.  [target] is
    [addItems.concat()], a copy of the batch as it is when the event is
    triggered, that is, as [layoutItems] has left it. *)
Inductive Event :=
| EvAppend (scrollTop : Z)
| EvPrepend (scrollTop : Z)
| EvLayoutComplete (target : list Item) (isAppend : bool)
    (distance : Z) (croppedCount : Z).

(** What a deferred callback will do once the scheduler runs it. *)
Inductive Callback :=
| CbLayout (isRelayout : bool) (addItems : option (list Item))
    (options : LayoutOptions)
| CbResize.

(** What a deferred callback waits for. *)
Inductive Wait :=
| ByTimeout (delay : Z)
| ByImages (needCheck : list Element).

(** The browser's scheduler: one-shot callbacks not yet run, live interval
    handles, and the next fresh handle. *)
Record Scheduler := {
  pending : list (nat * Wait * Callback);
  intervals : gset nat;
  nextId : nat;
}.

(** The subset of [_status] that [getStatus] copies, and that
    [Object.assign] writes back: a missing key leaves the target alone. *)
Record StatusProp := {
  p_isProcessing : option bool;
  p_isRecycling : option bool;
  p_prevScrollTop : option Z;
  p_topElement : option (option Element);
  p_bottomElement : option (option Element);
  p_clientHeight : option Z;
}.

Definition assignStatus (target : Status) (source : StatusProp) : Status :=
  {| s_isProcessing := default (s_isProcessing target) (p_isProcessing source);
     s_isRecycling := default (s_isRecycling target) (p_isRecycling source);
     prevScrollTop := default (prevScrollTop target) (p_prevScrollTop source);
     topElement := default (topElement target) (p_topElement source);
     bottomElement := default (bottomElement target) (p_bottomElement source);
     clientHeight := default (clientHeight target) (p_clientHeight source) |}.

(** The object [getStatus] returns and [setStatus] receives.  A field is
    [None] when the key is missing. *)
Record Snapshot (LMStatus : Type) := {
  html : option (list Element);
  cssText : option Style;
  snap_layoutManager : option LMStatus;
  snap_options : option POptions;
  prop : option StatusProp;
}.
Arguments html {_} _.
Arguments cssText {_} _.
Arguments snap_layoutManager {_} _.
Arguments snap_options {_} _.
Arguments prop {_} _.

Record State (LM : Type) := {
  options : Options;
  el : Container;
  layoutManager : LM;
  _status : Status;
  _timer : Timer;
  view : View;
  attached : bool;
  elemTop : gmap nat Z;
  sched : Scheduler;
  events : list Event;
}.
Arguments options {_} _.
Arguments el {_} _.
Arguments layoutManager {_} _.
Arguments _status {_} _.
Arguments _timer {_} _.
Arguments view {_} _.
Arguments attached {_} _.
Arguments elemTop {_} _.
Arguments sched {_} _.
Arguments events {_} _.

(** A JavaScript call either returns or throws; the instance keeps the
    state it had at that moment. *)
Inductive Completion (A : Type) :=
| Return (a : A)
| Throw (error : string).
Arguments Return {_} _.
Arguments Throw {_} _.

(** ** Field updates *)

Definition set_options {LM} (o : Options) (s : State LM) : State LM :=
  {| options := o; el := el s; layoutManager := layoutManager s;
     _status := _status s; _timer := _timer s; view := view s;
     attached := attached s; elemTop := elemTop s; sched := sched s;
     events := events s |}.

Definition set_el {LM} (c : Container) (s : State LM) : State LM :=
  {| options := options s; el := c; layoutManager := layoutManager s;
     _status := _status s; _timer := _timer s; view := view s;
     attached := attached s; elemTop := elemTop s; sched := sched s;
     events := events s |}.

Definition set_layoutManager {LM} (m : LM) (s : State LM) : State LM :=
  {| options := options s; el := el s; layoutManager := m;
     _status := _status s; _timer := _timer s; view := view s;
     attached := attached s; elemTop := elemTop s; sched := sched s;
     events := events s |}.

Definition set_status {LM} (st : Status) (s : State LM) : State LM :=
  {| options := options s; el := el s; layoutManager := layoutManager s;
     _status := st; _timer := _timer s; view := view s;
     attached := attached s; elemTop := elemTop s; sched := sched s;
     events := events s |}.

Definition set_timer {LM} (t : Timer) (s : State LM) : State LM :=
  {| options := options s; el := el s; layoutManager := layoutManager s;
     _status := _status s; _timer := t; view := view s;
     attached := attached s; elemTop := elemTop s; sched := sched s;
     events := events s |}.

Definition set_view {LM} (v : View) (s : State LM) : State LM :=
  {| options := options s; el := el s; layoutManager := layoutManager s;
     _status := _status s; _timer := _timer s; view := v;
     attached := attached s; elemTop := elemTop s; sched := sched s;
     events := events s |}.

Definition set_attached {LM} (b : bool) (s : State LM) : State LM :=
  {| options := options s; el := el s; layoutManager := layoutManager s;
     _status := _status s; _timer := _timer s; view := view s;
     attached := b; elemTop := elemTop s; sched := sched s;
     events := events s |}.

Definition set_elemTop {LM} (m : gmap nat Z) (s : State LM) : State LM :=
  {| options := options s; el := el s; layoutManager := layoutManager s;
     _status := _status s; _timer := _timer s; view := view s;
     attached := attached s; elemTop := m; sched := sched s;
     events := events s |}.

Definition set_sched {LM} (q : Scheduler) (s : State LM) : State LM :=
  {| options := options s; el := el s; layoutManager := layoutManager s;
     _status := _status s; _timer := _timer s; view := view s;
     attached := attached s; elemTop := elemTop s; sched := q;
     events := events s |}.

Definition set_events {LM} (l : list Event) (s : State LM) : State LM :=
  {| options := options s; el := el s; layoutManager := layoutManager s;
     _status := _status s; _timer := _timer s; view := view s;
     attached := attached s; elemTop := elemTop s; sched := sched s;
     events := l |}.

Definition set_isProcessing (b : bool) (st : Status) : Status :=
  {| s_isProcessing := b; s_isRecycling := s_isRecycling st;
     prevScrollTop := prevScrollTop st; topElement := topElement st;
     bottomElement := bottomElement st; clientHeight := clientHeight st |}.

Definition set_isRecycling (b : bool) (st : Status) : Status :=
  {| s_isProcessing := s_isProcessing st; s_isRecycling := b;
     prevScrollTop := prevScrollTop st; topElement := topElement st;
     bottomElement := bottomElement st; clientHeight := clientHeight st |}.

Definition set_prevScrollTop (y : Z) (st : Status) : Status :=
  {| s_isProcessing := s_isProcessing st; s_isRecycling := s_isRecycling st;
     prevScrollTop := y; topElement := topElement st;
     bottomElement := bottomElement st; clientHeight := clientHeight st |}.

Definition set_topElement (e : option Element) (st : Status) : Status :=
  {| s_isProcessing := s_isProcessing st; s_isRecycling := s_isRecycling st;
     prevScrollTop := prevScrollTop st; topElement := e;
     bottomElement := bottomElement st; clientHeight := clientHeight st |}.

Definition set_bottomElement (e : option Element) (st : Status) : Status :=
  {| s_isProcessing := s_isProcessing st; s_isRecycling := s_isRecycling st;
     prevScrollTop := prevScrollTop st; topElement := topElement st;
     bottomElement := e; clientHeight := clientHeight st |}.

Definition set_clientHeight (h : Z) (st : Status) : Status :=
  {| s_isProcessing := s_isProcessing st; s_isRecycling := s_isRecycling st;
     prevScrollTop := prevScrollTop st; topElement := topElement st;
     bottomElement := bottomElement st; clientHeight := h |}.

Definition set_resize (h : option nat) (t : Timer) : Timer :=
  {| resize := h; doubleCheck := doubleCheck t;
     doubleCheckCount := doubleCheckCount t |}.

Definition set_doubleCheck (h : option nat) (t : Timer) : Timer :=
  {| resize := resize t; doubleCheck := h;
     doubleCheckCount := doubleCheckCount t |}.

Definition set_doubleCheckCount (n : Z) (t : Timer) : Timer :=
  {| resize := resize t; doubleCheck := doubleCheck t;
     doubleCheckCount := n |}.

(** ** Arrays, strings and the DOM, as the code uses them *)

(** [Array.prototype.splice(start, deleteCount)]: the removed elements and
    what is left in the array. *)
Definition splice {A} (start : Z) (deleteCount : option Z) (l : list A)
  : list A * list A :=
  let len := Z.of_nat (length l) in
  let actualStart := if start <? 0 then Z.max (len + start) 0 else Z.min start len in
  let actualDelete :=
    match deleteCount with
    | None => len - actualStart
    | Some d => Z.min (Z.max d 0) (len - actualStart)
    end in
  (take (Z.to_nat actualDelete) (drop (Z.to_nat actualStart) l),
   take (Z.to_nat actualStart) l
     ++ drop (Z.to_nat (actualStart + actualDelete)) l).

(** [Array.prototype.indexOf]: the first position of [x], or -1. *)
Fixpoint indexOf {A} `{EqDecision A} (x : A) (l : list A) : Z :=
  match l with
  | [] => -1
  | y :: l' =>
      if decide (y = x) then 0
      else let i := indexOf x l' in if i =? -1 then -1 else i + 1
  end.

Fixpoint startsWith (pat s : string) : bool :=
  match pat, s with
  | EmptyString, _ => true
  | String a pat', String b s' => bool_decide (a = b) && startsWith pat' s'
  | String _ _, EmptyString => false
  end.

(** A literal with no anchors matches anywhere in the subject. *)
Fixpoint includes (pat s : string) : bool :=
  startsWith pat s
  || match s with
     | EmptyString => false
     | String _ s' => includes pat s'
     end.

(** [/DIV|SPAN|LI/.test(v.tagName)]. *)
Definition tagAccepted (v : Element) : bool :=
  includes "DIV" (tagName v) || includes "SPAN" (tagName v)
  || includes "LI" (tagName v).

(** [!x] on an optional argument: [undefined] is falsy, an array (even an
    empty one) is not. *)
Definition isUndefined {A} (o : option A) : bool :=
  match o with
  | None => true
  | Some _ => false
  end.

(** Modelled from the spec: [utils.isEmptyObject] (utils.js is not among
    the sources) on a cached edge element.  The cache is "invalidated
    (null)" and "recomputed lazily on next access": [null] is empty, an
    element is not. *)
Definition isEmptyObject (o : option Element) : bool :=
  match o with
  | None => true
  | Some _ => false
  end.

Definition removeChild (v : Element) (c : Container) : Container :=
  {| children := List.filter (λ x, negb (bool_decide (x = v))) (children c);
     style := style c; columns := columns c |}.

Definition set_children (l : list Element) (c : Container) : Container :=
  {| children := l; style := style c; columns := columns c |}.

Definition set_height (h : option Z) (c : Container) : Container :=
  {| children := children c;
     style := {| cssDecls := cssDecls (style c); height := h |};
     columns := columns c |}.

Definition set_style (st : Style) (c : Container) : Container :=
  {| children := children c; style := st; columns := columns c |}.

(** [docFragment.appendChild(v)]: a node has one parent, so [v] first leaves
    the container (or its earlier place in the fragment). *)
Definition fragmentAppend (acc : list Element * Container) (v : Element)
  : list Element * Container :=
  (List.filter (λ x, negb (bool_decide (x = v))) acc.1 ++ [v],
   removeChild v acc.2).

(** [el.style.cssText] is the empty string. *)
Definition cssIsEmpty (st : Style) : bool :=
  bool_decide (cssDecls st = "") && bool_decide (height st = None).

(** ** Scheduler and event bus *)

(** [this.trigger(name, payload)].  The listeners belong to the page, not
    to the library: the bus records what was triggered, in order. *)
Definition trigger {LM} (e : Event) (s : State LM) : State LM :=
  set_events (events s ++ [e]) s.

(** [setTimeout(callback, delay)] and [ImageLoaded.waitImageLoaded(needCheck,
    callback)]: the callback joins the ones not yet run, under a fresh
    handle. *)
Definition defer {LM} (w : Wait) (cb : Callback) (s : State LM)
  : nat * State LM :=
  let q := sched s in
  (nextId q,
   set_sched {| pending := pending q ++ [(nextId q, w, cb)];
                intervals := intervals q;
                nextId := S (nextId q) |} s).

Definition clearTimeout {LM} (h : option nat) (s : State LM) : State LM :=
  match h with
  | None => s
  | Some id =>
      let q := sched s in
      set_sched {| pending :=
                     List.filter (λ e, negb (bool_decide (e.1.1 = id))) (pending q);
                   intervals := intervals q;
                   nextId := nextId q |} s
  end.

Definition setInterval {LM} (s : State LM) : nat * State LM :=
  let q := sched s in
  (nextId q,
   set_sched {| pending := pending q;
                intervals := {[ nextId q ]} ∪ intervals q;
                nextId := S (nextId q) |} s).

Definition clearInterval {LM} (h : option nat) (s : State LM) : State LM :=
  match h with
  | None => s
  | Some id =>
      let q := sched s in
      set_sched {| pending := pending q;
                   intervals := intervals q ∖ {[ id ]};
                   nextId := nextId q |} s
  end.

(** ** [InfiniteGrid.js] *)

Section InfiniteGrid.
Context {LM LMStatus : Type}.
Context `{mgr : !LayoutManager LM LMStatus}.
Context `{consts : !Consts} `{loader : !ImageLoaded}.

Definition isProcessing (s : State LM) : bool :=
  s_isProcessing (_status s).

Definition isRecycling (s : State LM) : bool :=
  (0 <? count (options s)) && s_isRecycling (_status s).

Definition _resizeViewport (s : State LM) : State LM :=
  set_status (set_clientHeight (innerHeight (view s)) (_status s)) s.

Definition getTopElement (s : State LM) : option Element :=
  i_el <$> getTopItem (layoutManager s).

Definition getBottomElement (s : State LM) : option Element :=
  i_el <$> getBottomItem (layoutManager s).

Definition _resizeContainerHeight (s : State LM) : State LM :=
  set_el (set_height (Some (getLogicalHeight (layoutManager s))) (el s)) s.

(** The [for ... in] loop keeps a key unless its value is an [Element]: the
    two cached edges are copied only while they are [null]. *)
Definition statusProp (st : Status) : StatusProp :=
  {| p_isProcessing := Some (s_isProcessing st);
     p_isRecycling := Some (s_isRecycling st);
     p_prevScrollTop := Some (prevScrollTop st);
     p_topElement :=
       match topElement st with Some _ => None | None => Some None end;
     p_bottomElement :=
       match bottomElement st with Some _ => None | None => Some None end;
     p_clientHeight := Some (clientHeight st) |}.

Definition getStatus (s : State LM) : Snapshot LMStatus :=
  {| html := Some (children (el s));
     cssText := Some (style (el s));
     snap_layoutManager := Some (lm_getStatus (layoutManager s));
     snap_options := Some (copyOptions (options s));
     prop := Some (statusProp (_status s)) |}.

(** [!status.html] and [!status.cssText]: a missing key and the empty
    string are both falsy. *)
Definition htmlFalsy (h : option (list Element)) : bool :=
  match h with
  | None => true
  | Some l => bool_decide (l = [])
  end.

Definition cssTextFalsy (c : option Style) : bool :=
  match c with
  | None => true
  | Some st => cssIsEmpty st
  end.

(** The guard makes six tests: the argument itself, three objects that
    must be there, and two strings that must be there and not empty. *)
Definition setStatus (status : option (Snapshot LMStatus)) (s : State LM)
  : State LM :=
  match status with
  | None => s
  | Some status =>
      match snap_options status, prop status, snap_layoutManager status,
            html status, cssText status with
      | Some o, Some p, Some m, Some h, Some c =>
          if htmlFalsy (Some h) || cssTextFalsy (Some c) then s
          else
            let s := set_el (set_style c (el s)) s in
            let s := set_el (set_children h (el s)) s in
            let s := set_options (assignOptions (options s) o) s in
            let s := set_status (assignStatus (_status s) p) s in
            let s := set_layoutManager
                       (lm_setStatus m (el s) (layoutManager s)) s in
            let s := set_status (set_topElement (getTopElement s) (_status s)) s in
            let s := set_status
                       (set_bottomElement (getBottomElement s) (_status s)) s in
            s
      | _, _, _, _, _ => s
      end
  end.

Definition _doubleCheckForPrepend (s : State LM) : State LM :=
  if scrollY (view s) =? 0 then
    let s := clearInterval (doubleCheck (_timer s)) s in
    let '(id, s) := setInterval s in
    set_timer (set_doubleCheck (Some id) (_timer s)) s
  else s.

(** The function handed to [setInterval] above, run once. *)
Definition doubleCheckTick (s : State LM) : State LM :=
  if scrollY (view s) =? 0 then
    let s := trigger (EvPrepend 0) s in
    let n := doubleCheckCount (_timer s) - 1 in
    let s := set_timer (set_doubleCheckCount n (_timer s)) s in
    if n <=? 0 then clearInterval (doubleCheck (_timer s)) s else s
  else s.

Definition _postLayout (isRelayout : bool) (addItems : option (list Item))
    (opts : LayoutOptions) (s : State LM) : State LM :=
  let addItems := default [] addItems in
  if negb (isProcessing s) then s
  else
    let s := _resizeContainerHeight s in
    let s := set_timer (set_doubleCheckCount RETRY (_timer s)) s in
    let s := set_status (set_topElement (getTopElement s) (_status s)) s in
    let s := set_status (set_bottomElement (getBottomElement s) (_status s)) s in
    let distance :=
      if negb (isAppend opts) then
        if (length (items (layoutManager s)) <=? length addItems)%nat then 0
        else default 0
               (snd ∘ i_position <$> items (layoutManager s) !! length addItems)
      else 0 in
    let s :=
      if negb (isAppend opts) && (0 <? distance) then
        let s := set_status
                   (set_prevScrollTop (scrollY (view s) + distance) (_status s)) s in
        set_view {| scrollY := prevScrollTop (_status s);
                    innerHeight := innerHeight (view s) |} s
      else s in
    let s := set_status (set_isProcessing false (_status s)) s in
    let s := trigger (EvLayoutComplete addItems (isAppend opts) distance
                        (removedCount opts)) s in
    if negb (isAppend opts) then _doubleCheckForPrepend s else s.

Definition _onLayoutComplete (isRelayout : bool)
    (addItems : option (list Item)) (opts : LayoutOptions) (s : State LM)
  : State LM :=
  let m := layoutManager s in
  let o := options s in
  let s := set_layoutManager (layoutItems isRelayout addItems opts o m) s in
  let addItems :=
    (λ a, layoutItems_addItems isRelayout a opts o m) <$> addItems in
  _postLayout isRelayout addItems opts s.

(** Both branches hand the same callback to somebody who runs it later. *)
Definition _waitResource (isRelayout : bool) (addItems : option (list Item))
    (opts : LayoutOptions) (s : State LM) : State LM :=
  let needCheck := checkImageLoaded (el s) in
  if (0 <? length needCheck)%nat then
    (defer (ByImages needCheck) (CbLayout isRelayout addItems opts) s).2
  else
    (defer (ByTimeout 0) (CbLayout isRelayout addItems opts) s).2.

Definition layout (isRelayout : bool) (_addItems : option (list Item))
    (_options : option LayoutOptions) (s : State LM) : State LM :=
  let s := set_status (set_isProcessing true (_status s)) s in
  let opts := default {| isAppend := true; removedCount := 0 |} _options in
  let opts :=
    if isUndefined _addItems && negb (isAppend opts)
    then {| isAppend := true; removedCount := removedCount opts |}
    else opts in
  _waitResource isRelayout
    (if isAppend opts then _addItems else reverse <$> _addItems)
    opts s.

Definition _reset (s : State LM) : State LM :=
  let s := set_status {| s_isProcessing := false; s_isRecycling := false;
                         prevScrollTop := 0; topElement := None;
                         bottomElement := None;
                         clientHeight := clientHeight (_status s) |} s in
  let s := set_timer {| resize := None; doubleCheck := None;
                        doubleCheckCount := RETRY |} s in
  let s := set_layoutManager (resetCols (el s) (layoutManager s)) s in
  set_layoutManager (clear_items (layoutManager s)) s.

Definition clear (s : State LM) : State LM :=
  let s := set_el (set_children [] (el s)) s in
  let s := set_el (set_height None (el s)) s in
  _reset s.

(** [utils.$(paramElements, true)] turns its argument into an array of
    elements; the argument is taken to be one already. *)
Definition _prepareElement (paramElements : list Element) (s : State LM)
  : list Element * State LM :=
  let elements := paramElements in
  let elements := List.filter tagAccepted elements in
  let s := set_status (set_isProcessing true (_status s)) s in
  let s :=
    if negb (isRecycling s) then
      set_status
        (set_isRecycling
           (count (options s)
              <=? Z.of_nat (length (items (layoutManager s)))
                  + Z.of_nat (length elements))
           (_status s)) s
    else s in
  (elements, s).

(** The body of [targets.forEach] in [_adjustRange].  An evicted element
    that is no longer a child of the container has no [parentNode], and the
    call on [null] throws. *)
Fixpoint releaseTargets (targets : list Item) (elements : list Element)
    (c : Container) : Completion unit * list Element * Container :=
  match targets with
  | [] => (Return (), elements, c)
  | v :: targets =>
      let idx := indexOf (i_el v) elements in
      if negb (idx =? -1) then
        releaseTargets targets (splice idx (Some 1) elements).2 c
      else if bool_decide (i_el v ∈ children c) then
        releaseTargets targets elements (removeChild (i_el v) c)
      else (Throw "TypeError: parentNode is null", elements, c)
  end.

(** The block under [// trim $elements] in [_adjustRange]: a batch at
    least as long as [count] keeps its last [count] elements when it goes
    to the bottom, its first [count] when it goes to the top.  It yields
    how many elements were cut and what is left of the batch. *)
Definition trimElements (isTop : bool) (elements : list Element)
    (s : State LM) : Z * list Element :=
  if count (options s) <=? Z.of_nat (length elements) then
    let cut :=
      if isTop
      then splice 0 (Some (Z.of_nat (length elements) - count (options s)))
             elements
      else splice (count (options s)) None elements in
    (Z.of_nat (length cut.1), cut.2)
  else (0, elements).

(** [diff] in [_adjustRange]: by how much the window and the trimmed batch
    together exceed [count]. *)
Definition overflow (isTop : bool) (elements : list Element) (s : State LM)
  : Z :=
  Z.of_nat (length (items (layoutManager s)))
  + Z.of_nat (length (trimElements isTop elements s).2)
  - count (options s).

Definition _adjustRange (isTop : bool) (elements : list Element)
    (s : State LM) : Completion Z * list Element * State LM :=
  let removedCount := 0 in
  if negb (isRecycling s) then (Return removedCount, elements, s)
  else
    let removedCount := removedCount + (trimElements isTop elements s).1 in
    let diff := overflow isTop elements s in
    let elements := (trimElements isTop elements s).2 in
    let idx := getDelimiterIndex isTop diff (layoutManager s) in
    if (diff <=? 0) || (idx <? 0) then (Return removedCount, elements, s)
    else
      let '(targets, m) := adjustItems isTop idx (layoutManager s) in
      let s := set_layoutManager m s in
      let '(done, elements, c) := releaseTargets targets elements (el s) in
      let s := set_el c s in
      match done with
      | Return _ =>
          (Return (removedCount + Z.of_nat (length targets)), elements, s)
      | Throw e => (Throw e, elements, s)
      end.

Definition _insert (paramElements : list Element) (groupKey : GroupKey)
    (isAppend : bool) (s : State LM) : Completion Z * State LM :=
  if isProcessing s || bool_decide (length paramElements = 0%nat)
  then (Return 0, s)
  else
    let '(elements, s) := _prepareElement paramElements s in
    let cloneElements := elements in
    let dummy := - clientHeight (_status s) in
    let s := set_elemTop
               (foldl (λ m v, <[el_id v := dummy]> m) (elemTop s) elements) s in
    let '(removed, cloneElements, s) := _adjustRange isAppend cloneElements s in
    match removed with
    | Throw e => (Throw e, s)
    | Return removedCount =>
        let '(docFragment, c) := foldl fragmentAppend ([], el s) cloneElements in
        let s :=
          if isAppend
          then set_el (set_children (children c ++ docFragment) c) s
          else set_el (set_children (docFragment ++ children c) c) s in
        let s := layout false (Some (itemize cloneElements groupKey))
                   (Some {| isAppend := isAppend;
                            removedCount := removedCount |}) s in
        (Return (Z.of_nat (length cloneElements)), s)
    end.

Definition append (paramElements : list Element) (groupKey : GroupKey)
    (s : State LM) : Completion Z * State LM :=
  _insert paramElements groupKey true s.

Definition prepend (paramElements : list Element) (groupKey : GroupKey)
    (s : State LM) : Completion Z * State LM :=
  _insert paramElements groupKey false s.

Definition _fitItems (s : State LM) : Z * State LM :=
  let '(y, m) := fit (layoutManager s) in
  let s := set_layoutManager m s in
  (y, if negb (y =? 0) then _resizeContainerHeight s else s).

Definition remove (element : Element) (s : State LM)
  : option Item * State LM :=
  let '(r, m) := removeItem element (layoutManager s) in
  (r, set_layoutManager m s).

(** ** [eventHandler.js] *)

Definition _attachEvent (s : State LM) : State LM := set_attached true s.

Definition _detachEvent (s : State LM) : State LM := set_attached false s.

Definition scrollTo (y : Z) (s : State LM) : State LM :=
  set_view {| scrollY := y; innerHeight := innerHeight (view s) |} s.

(** [rect] answers [getBoundingClientRect()] at the moment of the signal.
    In each direction the handler returns early only when the freshly
    looked-up edge element is [null]; a cached one is never [null] past the
    [isEmptyObject] test, so one [match] covers both. *)
Definition _onScroll (rect : Element → Rect) (s : State LM) : State LM :=
  if isProcessing s then s
  else
    let scrollTop := scrollY (view s) in
    let prevScrollTop := prevScrollTop (_status s) in
    if (IS_IOS && (scrollTop =? 0)) || (prevScrollTop =? scrollTop) then s
    else if prevScrollTop <? scrollTop then
      let s :=
        if isEmptyObject (bottomElement (_status s))
        then set_status (set_bottomElement (getBottomElement s) (_status s)) s
        else s in
      match bottomElement (_status s) with
      | None => s
      | Some ele =>
          let s :=
            if rect_top (rect ele)
               <=? clientHeight (_status s) + threshold (options s)
            then trigger (EvAppend scrollTop) s
            else s in
          set_status (set_prevScrollTop scrollTop (_status s)) s
      end
    else
      let s :=
        if isEmptyObject (topElement (_status s))
        then set_status (set_topElement (getTopElement s) (_status s)) s
        else s in
      match topElement (_status s) with
      | None => s
      | Some ele =>
          if - threshold (options s) <=? rect_bottom (rect ele) then
            let '(croppedDistance, s) := _fitItems s in
            let scrollTop :=
              if 0 <? croppedDistance then scrollTop - croppedDistance
              else scrollTop in
            let s := if 0 <? croppedDistance then scrollTo scrollTop s else s in
            let s := trigger (EvPrepend scrollTop) s in
            set_status (set_prevScrollTop scrollTop (_status s)) s
          else set_status (set_prevScrollTop scrollTop (_status s)) s
      end.

(** A timer handle is truthy unless it is 0. *)
Definition handleTruthy (h : option nat) : bool :=
  match h with
  | Some (S _) => true
  | _ => false
  end.

Definition _onResize (s : State LM) : State LM :=
  let s := if handleTruthy (resize (_timer s))
           then clearTimeout (resize (_timer s)) s else s in
  let '(id, s) := defer (ByTimeout 100) CbResize s in
  set_timer (set_resize (Some id) (_timer s)) s.

(** The function handed to [setTimeout] by [_onResize]. *)
Definition resizeCallback (s : State LM) : State LM :=
  let s :=
    if isNeededResize (el s) (layoutManager s)
    then layout true None None (_resizeViewport s)
    else s in
  let s := set_timer (set_resize None (_timer s)) s in
  set_status (set_prevScrollTop (-1) (_status s)) s.

(** ** Construction and destruction *)

Definition destroy (s : State LM) : State LM :=
  _reset (_detachEvent s).

Definition constructor (el : Container) (options : POptions) (window : View)
  : State LM :=
  let o := assignOptions defaultOptions options in
  let s :=
    {| options := o; el := el; layoutManager := new_LayoutManager el o;
       _status := {| s_isProcessing := false; s_isRecycling := false;
                     prevScrollTop := 0; topElement := None;
                     bottomElement := None; clientHeight := 0 |};
       _timer := {| resize := None; doubleCheck := None;
                    doubleCheckCount := RETRY |};
       view := window; attached := false; elemTop := ∅;
       sched := {| pending := []; intervals := ∅; nextId := 1 |};
       events := [] |} in
  let s := _reset s in
  let s := _resizeViewport s in
  let s :=
    if (0 <? length (children el))%nat
    then layout true (Some (itemize (children el) (defaultGroupKey o))) None s
    else s in
  _attachEvent s.

(** ** The instance over time *)

(** Everything that can happen to an instance: a call of its public API, a
    viewport signal, or the scheduler running something it was handed. *)
Inductive Op :=
| OpAppend (elements : list Element) (groupKey : GroupKey)
| OpPrepend (elements : list Element) (groupKey : GroupKey)
| OpLayout (isRelayout : bool)
| OpClear
| OpRemove (element : Element)
| OpSetStatus (status : option (Snapshot LMStatus))
| OpDestroy
| OpScroll (y : Z) (rect : Element → Rect)
| OpResize (h : Z) (cols : nat)
| OpFire (id : nat)
| OpTick (id : nat).

Definition runCallback (cb : Callback) (s : State LM) : State LM :=
  match cb with
  | CbLayout isRelayout addItems opts =>
      _onLayoutComplete isRelayout addItems opts s
  | CbResize => resizeCallback s
  end.

Definition fire (id : nat) (s : State LM) : State LM :=
  match List.find (λ e, bool_decide (e.1.1 = id)) (pending (sched s)) with
  | None => s
  | Some (_, _, cb) => runCallback cb (clearTimeout (Some id) s)
  end.

Definition step (op : Op) (s : State LM) : State LM :=
  match op with
  | OpAppend elements groupKey => (append elements groupKey s).2
  | OpPrepend elements groupKey => (prepend elements groupKey s).2
  | OpLayout isRelayout => layout isRelayout None None s
  | OpClear => clear s
  | OpRemove element => (remove element s).2
  | OpSetStatus status => setStatus status s
  | OpDestroy => destroy s
  | OpScroll y rect =>
      let s := scrollTo y s in
      if attached s then _onScroll rect s else s
  | OpResize h cols =>
      let s := set_view {| scrollY := scrollY (view s); innerHeight := h |} s in
      let s := set_el {| children := children (el s); style := style (el s);
                         columns := cols |} s in
      if attached s then _onResize s else s
  | OpFire id => fire id s
  | OpTick id =>
      if bool_decide (id ∈ intervals (sched s)) then doubleCheckTick s else s
  end.

Definition run (ops : list Op) (s : State LM) : State LM :=
  foldl (λ s op, step op s) s ops.

Definition reachable (s : State LM) : Prop :=
  ∃ el options window ops, s = run ops (constructor el options window).

(** How many layout cycles have been started and not yet completed. *)
Definition inFlight (s : State LM) : nat :=
  length (List.filter
            (λ e, match e.2 with CbLayout _ _ _ => true | CbResize => false end)
            (pending (sched s))).

(** ** Notions the statements below use *)

(** The top edge element the handler looks at: the cached one, or the
    window's first item when the cache is empty. *)
Definition topEdge (s : State LM) : option Element :=
  if isEmptyObject (topElement (_status s)) then getTopElement s
  else topElement (_status s).

(** The distance [_postLayout] computes for a prepend: the [y] of the item
    that follows the inserted batch, 0 when the batch is the whole window. *)
Definition prependShift (addItems : list Item) (m : LM) : Z :=
  if (length (items m) <=? length addItems)%nat then 0
  else default 0 (snd ∘ i_position <$> items m !! length addItems).

(** The scheduler runs the callback of a layout cycle that was started in
    the prepend direction. *)
Definition completesPrepend (op : Op) (s : State LM) : Prop :=
  ∃ id w isRelayout addItems opts,
    op = OpFire id
    ∧ (id, w, CbLayout isRelayout addItems opts) ∈ pending (sched s)
    ∧ isAppend opts = false.

(** The [layoutComplete] events of a log, in order. *)
Definition completions (l : list Event) : list Event :=
  List.filter
    (λ e, match e with EvLayoutComplete _ _ _ _ => true | _ => false end) l.

(** The pending callbacks that [_onResize] deferred. *)
Definition resizeCallbacks (s : State LM) : list (nat * Wait * Callback) :=
  List.filter
    (λ e, match e.2 with CbResize => true | CbLayout _ _ _ => false end)
    (pending (sched s)).

(** The bookkeeping of the resize timer is in order: handles are positive,
    and a resize callback still pending is the one under the handle in
    [_timer.resize]. *)
Definition resizeDebounced (s : State LM) : Prop :=
  (1 ≤ nextId (sched s))%nat
  ∧ ∀ e, In e (resizeCallbacks s) →
         resize (_timer s) = Some e.1.1 ∧ (1 ≤ e.1.1)%nat.

(** A viewport signal, as opposed to a call of the API or a callback. *)
Definition isSignal (op : Op) : bool :=
  match op with
  | OpScroll _ _ | OpResize _ _ => true
  | _ => false
  end.

(** The calls that overwrite the flags of [_status] wholesale. *)
Definition resetsStatus (op : Op) : bool :=
  match op with
  | OpClear | OpDestroy | OpSetStatus _ => true
  | _ => false
  end.

(** The handle [defer] will hand out next is not in use. *)
Definition freshHandle (s : State LM) : Prop :=
  ∀ e, In e (pending (sched s)) → e.1.1 ≠ nextId (sched s).

(** The bottom edge element the handler looks at: the cached one, or the
    window's last item when the cache is empty. *)
Definition bottomEdge (s : State LM) : option Element :=
  if isEmptyObject (bottomElement (_status s)) then getBottomElement s
  else bottomElement (_status s).

(** At most one double-check poll is live, and it is the one whose handle
    the instance holds. *)
Definition onePoll (s : State LM) : Prop :=
  ∀ id, id ∈ intervals (sched s) → doubleCheck (_timer s) = Some id.

(** The calls that go through [_reset]. *)
Definition callsReset (op : Op) : bool :=
  match op with
  | OpClear | OpDestroy => true
  | _ => false
  end.

(** The steps that start a layout cycle or a resize debounce on a
    processing instance, or overwrite its flags: [layout()], a resize
    signal, [clear()], [destroy()] and [setStatus()]. *)
Definition restarts (op : Op) : bool :=
  match op with
  | OpLayout _ | OpResize _ _ | OpClear | OpDestroy | OpSetStatus _ => true
  | _ => false
  end.

(** An evicted element that [releaseTargets] takes out of the container:
    it belongs to one of the evicted items and is not part of the batch. *)
Definition leavesContainer (targets : list Item) (elements : list Element)
    (x : Element) : bool :=
  bool_decide (x ∈ i_el <$> targets) && negb (bool_decide (x ∈ elements)).

(** The instance as [_insert] hands it to [_adjustRange]: flags set by
    [_prepareElement], the accepted elements parked above the viewport. *)
Definition staged (paramElements : list Element) (s : State LM) : State LM :=
  let '(elements, s) := _prepareElement paramElements s in
  set_elemTop
    (foldl (λ m v, <[el_id v := - clientHeight (_status s)]> m) (elemTop s)
       elements) s.

(** The container once [_insert] has moved the batch into it through the
    document fragment: at the end for [append], at the front for
    [prepend]. *)
Definition placeBatch (isAppend : bool) (batch : list Element)
    (c : Container) : Container :=
  let '(docFragment, c) := foldl fragmentAppend ([], c) batch in
  if isAppend then set_children (children c ++ docFragment) c
  else set_children (docFragment ++ children c) c.

End InfiniteGrid.

(** ** [LayoutManager.js], after the design document

    The file itself is not among the sources; what follows writes down
    sections 3, 4.1, 4.2 and 4.3 of the design document. *)

(** Modelled from the spec: the state of the missing [LayoutManager], the
    Window (items in rank order) and the Column state (one logical height
    per column). *)
Record LMState := {
  lm_items : list Item;
  lm_cols : list Z;
}.

#[global] Instance LMState_eq_dec : EqDecision LMState.
Proof. solve_decision. Defined.

(** Modelled from the spec: the scan behind [argmin] below; [best] is the
    first column that holds the least height seen so far. *)
Fixpoint argminFrom (i best : nat) (least : Z) (l : list Z) : nat :=
  match l with
  | [] => best
  | h :: l' =>
      if h <? least then argminFrom (S i) i h l'
      else argminFrom (S i) best least l'
  end.

(** Modelled from the spec: the masonry rule of the missing Column Tracker,
    "the column with the minimum accumulated height, breaking ties by
    lowest column index". *)
Definition argmin (cols : list Z) : nat :=
  match cols with
  | [] => 0%nat
  | h :: l => argminFrom 1 0 h l
  end.

(** Modelled from the spec: [place] of the missing Column Tracker.  With
    [isEqualSize] items cycle the columns by rank; otherwise the masonry
    rule picks the column.  The item lands at that column's current height,
    which then grows by the item's measured height. *)
Definition place (equal : bool) (rank : nat) (it : Item) (cols : list Z)
  : Item * list Z :=
  let c := if equal then (rank mod length cols)%nat else argmin cols in
  ({| i_el := i_el it; i_groupKey := i_groupKey it; i_size := i_size it;
      i_column := c;
      i_position := (Z.of_nat c * (i_size it).1, default 0 (cols !! c)) |},
   alter (λ h, h + (i_size it).2) c cols).

(** Modelled from the spec: [place] over a batch, in rank order. *)
Fixpoint placeAll (equal : bool) (rank : nat) (l : list Item) (cols : list Z)
  : list Item * list Z :=
  match l with
  | [] => ([], cols)
  | it :: l' =>
      let '(it', cols) := place equal rank it cols in
      let '(rest, cols) := placeAll equal (S rank) l' cols in
      (it' :: rest, cols)
  end.

(** Modelled from the spec: [getLogicalHeight] of the missing Column
    Tracker, "the maximum column height". *)
Definition maxHeight (cols : list Z) : Z := foldr Z.max 0 cols.

(** Modelled from the spec: an item moved down by [d]. *)
Definition shiftY (d : Z) (it : Item) : Item :=
  {| i_el := i_el it; i_groupKey := i_groupKey it; i_size := i_size it;
     i_column := i_column it;
     i_position := ((i_position it).1, (i_position it).2 + d) |}.

(** Modelled from the spec: [layoutItems] of the missing Layout Engine.  A
    relayout resets the columns and re-places the window in rank order
    first.  Appended items go after the bottom edge.  Prepended items are
    placed as a block of their own above the top edge, and every item that
    was there moves down by the block's height; the orchestrator hands the
    batch reversed in that direction, and the window gets it back in the
    caller's order. *)
Definition spec_layoutItems (isRelayout : bool) (addItems : option (list Item))
    (opts : LayoutOptions) (o : Options) (m : LMState) : LMState :=
  let addItems := default [] addItems in
  let '(placed, cols) :=
    if isRelayout
    then placeAll (isEqualSize o) 0 (lm_items m)
           (replicate (length (lm_cols m)) 0)
    else (lm_items m, lm_cols m) in
  if isAppend opts then
    let '(added, cols) :=
      placeAll (isEqualSize o) (length placed) addItems cols in
    {| lm_items := placed ++ added; lm_cols := cols |}
  else
    let '(block, top) :=
      placeAll (isEqualSize o) 0 (reverse addItems)
        (replicate (length cols) 0) in
    let d := maxHeight top in
    {| lm_items := block ++ (shiftY d <$> placed);
       lm_cols := (λ h, h + d) <$> cols |}.

(** Modelled from the spec: the batch after [layoutItems] of the missing
    Layout Engine.  An item's "position/column [are] mutated only by the
    Layout Engine during a layout pass", and the array holds the very items
    the pass has placed: it comes back in the order it was handed, each
    item with the column and the position the pass gave it. *)
Definition spec_layoutItems_addItems (isRelayout : bool)
    (addItems : list Item) (opts : LayoutOptions) (o : Options) (m : LMState)
  : list Item :=
  let '(placed, cols) :=
    if isRelayout
    then placeAll (isEqualSize o) 0 (lm_items m)
           (replicate (length (lm_cols m)) 0)
    else (lm_items m, lm_cols m) in
  if isAppend opts then
    (placeAll (isEqualSize o) (length placed) addItems cols).1
  else
    reverse (placeAll (isEqualSize o) 0 (reverse addItems)
               (replicate (length cols) 0)).1.

(** Modelled from the spec: the dead space above the window, the least
    [y] among its items. *)
Definition minTop (l : list Item) : Z :=
  match l with
  | [] => 0
  | it :: l' => foldr (λ x acc, Z.min (i_position x).2 acc) (i_position it).2 l'
  end.

(** Modelled from the spec: [fit] of the missing Layout Engine, "removing
    dead space above the window's first item and shifting all items upward
    accordingly"; it returns the distance, 0 when nothing moved. *)
Definition spec_fit (m : LMState) : Z * LMState :=
  let d := minTop (lm_items m) in
  (d, {| lm_items := shiftY (- d) <$> lm_items m;
         lm_cols := (λ h, h - d) <$> lm_cols m |}).

(** Modelled from the spec: [itemize] of the missing Window Manager,
    "converts raw external elements into Items tagged with the supplied
    group key (or undefined), preserving input order". *)
Definition spec_itemize (rawElements : list Element) (groupKey : GroupKey)
  : list Item :=
  (λ v, {| i_el := v; i_groupKey := groupKey;
           i_size := (el_width v, el_height v);
           i_column := 0%nat; i_position := (0, 0) |}) <$> rawElements.

(** Modelled from the spec: a cut at rank [k] of the missing Window
    Manager's window is on a group boundary when no group key has items on
    both sides of it ("all items sharing a group key are evicted together,
    or none are"). *)
Definition respectsGroups (k : nat) (l : list Item) : bool :=
  forallb
    (λ a, forallb (λ b, negb (bool_decide (i_groupKey a = i_groupKey b)))
            (drop k l))
    (take k l).

(** Modelled from the spec: in the missing Window Manager the cut for an
    eviction from the top moves outward, toward rank 0,
    until it sits on a group boundary: never more than the overflow is
    evicted, which is what keeps the window at capacity or above (the
    window bound of section 8). *)
Fixpoint snapTop (k : nat) (l : list Item) : nat :=
  match k with
  | O => O
  | S k' => if respectsGroups k l then k else snapTop k' l
  end.

(** Modelled from the spec: the search behind [snapBottom] below, at most
    [fuel] ranks further down. *)
Fixpoint snapBottomFrom (fuel k : nat) (l : list Item) : nat :=
  match fuel with
  | O => k
  | S fuel' => if respectsGroups k l then k else snapBottomFrom fuel' (S k) l
  end.

(** Modelled from the spec: in the missing Window Manager the cut for an
    eviction from the bottom moves outward, toward the last rank. *)
Definition snapBottom (k : nat) (l : list Item) : nat :=
  snapBottomFrom (length l - k) k l.

(** Modelled from the spec: [getDelimiterIndex] of the missing Window
    Manager, "the rank index up to which eviction must extend to both
    satisfy the overflow count and respect group boundaries; returns -1 if
    no valid boundary-respecting index exists within the current window".
    From the top the items before the index go, from the bottom the items
    from the index on; an index that would evict nothing is no index. *)
Definition spec_getDelimiterIndex (isTop : bool) (overflow : Z) (m : LMState)
  : Z :=
  let len := length (lm_items m) in
  if (overflow <=? 0) || (Z.of_nat len <? overflow) then -1
  else if isTop then
    let j := snapTop (Z.to_nat overflow) (lm_items m) in
    if (j =? 0)%nat then -1 else Z.of_nat j
  else
    let j := snapBottom (len - Z.to_nat overflow) (lm_items m) in
    if (j =? len)%nat then -1 else Z.of_nat j.

(** Modelled from the spec: [adjustItems] of the missing Window Manager,
    which removes items "from the end of the Window opposite the insertion
    direction, extended outward to the nearest group boundary (never evicts
    part of a group), and returns the evicted items".  Its second argument
    is the index [_adjustRange] got from [getDelimiterIndex]. *)
Definition spec_adjustItems (isTop : bool) (idx : Z) (m : LMState)
  : list Item * LMState :=
  let k := (Z.to_nat idx `min` length (lm_items m))%nat in
  if isTop then
    let j := snapTop k (lm_items m) in
    (take j (lm_items m),
     {| lm_items := drop j (lm_items m); lm_cols := lm_cols m |})
  else
    let j := snapBottom k (lm_items m) in
    (drop j (lm_items m),
     {| lm_items := take j (lm_items m); lm_cols := lm_cols m |}).

(** Modelled from the spec: the search behind [removeItem] below. *)
Fixpoint removeFirst (element : Element) (l : list Item)
  : option Item * list Item :=
  match l with
  | [] => (None, [])
  | it :: l' =>
      if decide (i_el it = element) then (Some it, l')
      else let '(r, rest) := removeFirst element l' in (r, it :: rest)
  end.

(** Modelled from the spec: [removeItem] of the missing Window Manager,
    "direct removal of a single item by external reference", returning the
    removed item or a not-found failure. *)
Definition spec_removeItem (element : Element) (m : LMState)
  : option Item * LMState :=
  let '(r, rest) := removeFirst element (lm_items m) in
  (r, {| lm_items := rest; lm_cols := lm_cols m |}).

(** Modelled from the spec: [getGroupKeys] of the missing Window Manager,
    the "distinct group keys currently present, in first-occurrence rank
    order". *)
Fixpoint distinctKeys (seen : list GroupKey) (l : list Item) : list GroupKey :=
  match l with
  | [] => []
  | it :: l' =>
      if bool_decide (i_groupKey it ∈ seen) then distinctKeys seen l'
      else i_groupKey it :: distinctKeys (i_groupKey it :: seen) l'
  end.

(** Modelled from the spec: the rest of the missing [LayoutManager].
    [getStatus] and [setStatus] are a structural copy of the window and the
    column heights; [getGroupKeys] lists the distinct keys in
    first-occurrence order; the edge items are ranks 0 and N-1; the logical
    height is the tallest column; the columns are reset to zero, one per
    column that fits the container, and a resize is needed when that number
    has changed. *)
#[global] Instance SpecLayoutManager : LayoutManager LMState LMState := {|
  new_LayoutManager c _ :=
    {| lm_items := []; lm_cols := replicate (columns c) 0 |};
  items := lm_items;
  itemize := spec_itemize;
  lm_getStatus m := m;
  lm_setStatus st _ _ := st;
  getGroupKeys m := distinctKeys [] (lm_items m);
  layoutItems := spec_layoutItems;
  layoutItems_addItems := spec_layoutItems_addItems;
  getTopItem m := head (lm_items m);
  getBottomItem m := last (lm_items m);
  getLogicalHeight m := maxHeight (lm_cols m);
  getDelimiterIndex := spec_getDelimiterIndex;
  adjustItems := spec_adjustItems;
  fit := spec_fit;
  resetCols c m :=
    {| lm_items := lm_items m; lm_cols := replicate (columns c) 0 |};
  clear_items m := {| lm_items := []; lm_cols := lm_cols m |};
  removeItem := spec_removeItem;
  isNeededResize c m := negb (length (lm_cols m) =? columns c)%nat;
|}.

(** The items of the window that carry the group key [g], in rank order. *)
Definition groupItems (g : GroupKey) (l : list Item) : list Item :=
  List.filter (λ it, bool_decide (i_groupKey it = g)) l.

(** [consts.js] is not among the sources.  The theorems take its
    constants as parameters; the examples run with these values, a desktop
    browser and three retries. *)
Definition desktop : Consts := {| IS_IOS := false; RETRY := 3 |}.

(** The same on iOS. *)
Definition ios : Consts := {| IS_IOS := true; RETRY := 3 |}.

(** A page where every image has loaded. *)
Definition imagesReady : ImageLoaded := {| checkImageLoaded _ := [] |}.

(** ** Concrete instances

    A two-column grid on a desktop page whose images have all loaded; the
    cards are 100 by 50.  The states below are reached from the
    constructor by the calls and signals listed. *)

Section Fixtures.
#[local] Existing Instance desktop.
#[local] Existing Instance imagesReady.

Definition card (n : nat) (tag : string) : Element :=
  {| el_id := n; tagName := tag; el_width := 100; el_height := 50 |}.

Definition emptyGrid : Container :=
  {| children := []; style := emptyStyle; columns := 2 |}.

Definition atTop : View := {| scrollY := 0; innerHeight := 600 |}.

Definition withCount (n : Z) : POptions :=
  {| o_isEqualSize := None; o_defaultGroupKey := None; o_count := Some n;
     o_threshold := None |}.

Definition key (n : Z) : GroupKey := Some (GKNum n).

(** Every element reports a box at the top edge of the viewport. *)
Definition flat (_ : Element) : Rect := {| rect_top := 0; rect_bottom := 0 |}.

(** A fresh instance on the empty grid, with capacity [n]. *)
Definition grid (n : Z) : State LMState :=
  constructor emptyGrid (withCount n) atTop.

(** Capacity 4, and one group of four cards laid out. *)
Definition oneGroup : State LMState :=
  run [OpAppend [card 1 "LI"; card 2 "LI"; card 3 "LI"; card 4 "LI"] (key 1);
       OpFire 1] (grid 4).

(** Capacity 4, three groups of two appended one after the other, each
    cycle completed before the next. *)
Definition threeGroups : list (Op (LMStatus:=LMState)) :=
  [OpAppend [card 1 "LI"; card 2 "LI"] (key 1); OpFire 1;
   OpAppend [card 3 "LI"; card 4 "LI"] (key 2); OpFire 2;
   OpAppend [card 5 "LI"; card 6 "LI"] (key 3); OpFire 3].

(** One card appended, the cycle still in flight. *)
Definition busy : State LMState :=
  (append [card 1 "DIV"] None (grid 30)).2.

(** After [threeGroups] the user has scrolled down to 300, and the signal
    for it has been handled. *)
Definition scrolledDown : State LMState :=
  run (threeGroups ++ [OpScroll 300 flat]) (grid 4).

(** From there the user is back up at 120; the signal for 120 is about to
    be delivered. *)
Definition scrolledUp : State LMState := scrollTo 120 scrolledDown.

(** Two cards laid out, the user at offset 200, two more cards prepended:
    the array the cycle hands to [layoutItems], the options of the cycle,
    the array as [layoutItems] leaves it, and the state in which the
    callback of the cycle then calls [_postLayout]. *)
Definition prependedBatch : list Item :=
  reverse (itemize [card 3 "LI"; card 4 "LI"] None).

Definition prependCycle : LayoutOptions :=
  {| isAppend := false; removedCount := 0 |}.

Definition prependRequested : State LMState :=
  run [OpAppend [card 1 "LI"; card 2 "LI"] None; OpFire 1; OpScroll 200 flat;
       OpPrepend [card 3 "LI"; card 4 "LI"] None] (grid 30).

Definition placedBatch : list Item :=
  let s := clearTimeout (Some 2%nat) prependRequested in
  layoutItems_addItems false prependedBatch prependCycle (options s)
    (layoutManager s).

Definition beforePostLayout : State LMState :=
  let s := clearTimeout (Some 2%nat) prependRequested in
  set_layoutManager
    (layoutItems false (Some prependedBatch) prependCycle (options s)
       (layoutManager s)) s.

(** A snapshot from which the markup is missing. *)
Definition noMarkup : Snapshot LMState :=
  {| html := None; cssText := Some {| cssDecls := ""; height := Some 50 |};
     snap_layoutManager := Some {| lm_items := []; lm_cols := [0; 0] |};
     snap_options := Some (copyOptions defaultOptions);
     prop := Some (statusProp (_status (grid 30))) |}.

(** Two cards of one group laid out. *)
Definition laidOut : State LMState :=
  run [OpAppend [card 1 "LI"; card 2 "LI"] (key 1); OpFire 1] (grid 30).

(** One card appended, then [clear()] before the cycle completes, then the
    callback of the cycle. *)
Definition clearedInFlight : State LMState :=
  run [OpAppend [card 1 "LI"] None; OpClear; OpFire 1] (grid 30).

(** One card prepended at offset 0 and the cycle completed: the poll is
    live under handle 2. *)
Definition armed : State LMState :=
  run [OpPrepend [card 1 "LI"] None; OpFire 1] (grid 30).

(** From [armed], the user scrolls to 100 and the poll runs four times. *)
Definition scrolledAway : State LMState :=
  run [OpScroll 100 flat; OpTick 2; OpTick 2; OpTick 2; OpTick 2] armed.

(** Capacity 2, two cards appended, [clear()] before the cycle completes,
    then the callback of the cycle: the window holds the two cards and the
    container holds none. *)
Definition detachedWindow : State LMState :=
  run [OpAppend [card 1 "LI"; card 2 "LI"] (key 1); OpClear; OpFire 1] (grid 2).

(** Every element reports a box far above the viewport. *)
Definition farAbove (_ : Element) : Rect :=
  {| rect_top := -500; rect_bottom := -400 |}.

(** Three cards for a grid of capacity 2, as [_insert] hands them to
    [_adjustRange]. *)
Definition threeCards : list Element :=
  [card 1 "LI"; card 2 "LI"; card 3 "LI"].

Definition stagedThree : State LMState := staged threeCards (grid 2).

(** A container that holds cards 1 and 4, and two evicted items, of cards
    1 and 2. *)
Definition twoChildren : Container :=
  {| children := [card 1 "LI"; card 4 "LI"]; style := emptyStyle;
     columns := 2 |}.

Definition evicted : list Item := itemize [card 1 "LI"; card 2 "LI"] None.

(** Scenario A, then the user scrolls down to 200.  The first group has
    been evicted from the top and no [fit] has run since: the window starts
    at [y] = 50, with card 3. *)
Definition evictedOnTop : State LMState :=
  run (threeGroups ++ [OpScroll 200 flat]) (grid 4).

(** From there two cards are prepended by a call of [prepend], and the
    callback of the cycle has run. *)
Definition prependedAfterEviction : State LMState :=
  run [OpPrepend [card 7 "LI"; card 8 "LI"] (key 0); OpFire 4] evictedOnTop.

(** An item's element and its [y]. *)
Definition whereIs (it : Item) : Element * Z := (i_el it, (i_position it).2).

(** The tag test read as a test of the whole tag name. *)
Definition isDivSpanLi (v : Element) : bool :=
  bool_decide (tagName v ∈ ["DIV"; "SPAN"; "LI"]).

End Fixtures.

(** * The JavaScript helpers on small inputs *)

Example splice_front : splice 0 (Some 2) [1; 2; 3; 4; 5] = ([1; 2], [3; 4; 5]).
Proof. reflexivity. Qed.

Example splice_tail : splice 3 None [1; 2; 3; 4; 5] = ([4; 5], [1; 2; 3]).
Proof. reflexivity. Qed.

Example splice_one : splice 1 (Some 1) [1; 2; 3] = ([2], [1; 3]).
Proof. reflexivity. Qed.

Example splice_from_end : splice (-2) None [1; 2; 3; 4; 5] = ([4; 5], [1; 2; 3]).
Proof. reflexivity. Qed.

Example indexOf_found : indexOf 3 [1; 2; 3; 3] = 2.
Proof. reflexivity. Qed.

Example indexOf_missing : indexOf 7 [1; 2; 3] = -1.
Proof. reflexivity. Qed.

Lemma startsWith_spec (pat s : string) :
  startsWith pat s = true ↔ ∃ post, s = String.append pat post.
Proof.
  revert s. induction pat as [| a pat IH]; intros s; cbn.
  - split; [intros _; by exists s | done].
  - destruct s as [| b s]; cbn.
    + split; [done | by intros [post Hpost]].
    + rewrite andb_true_iff, bool_decide_eq_true, IH. split.
      * intros [-> [post ->]]. by exists post.
      * intros [post Hpost]. injection Hpost as -> ->. split; [done |].
        by exists post.
Qed.

(** The tag test is a search: it succeeds exactly when the literal occurs
    somewhere in the subject. *)
Lemma includes_spec (pat s : string) :
  includes pat s = true
  ↔ ∃ pre post, s = String.append pre (String.append pat post).
Proof.
  induction s as [| b s IH]; cbn [includes].
  - rewrite orb_false_r, startsWith_spec. split.
    + intros [post Hpost]. by exists EmptyString, post.
    + intros [pre [post Hs]]. destruct pre; [by exists post | done].
  - rewrite orb_true_iff, startsWith_spec, IH. split.
    + intros [[post Hpost] | [pre [post Hs]]].
      * by exists EmptyString, post.
      * exists (String b pre), post. cbn. by rewrite Hs.
    + intros [pre [post Hs]]. destruct pre as [| c pre]; cbn in Hs.
      * left. by exists post.
      * right. injection Hs as -> ->. by exists pre, post.
Qed.

Example tagAccepted_cards :
  tagAccepted (card 1 "DIV") = true ∧ tagAccepted (card 1 "SPAN") = true
  ∧ tagAccepted (card 1 "LI") = true ∧ tagAccepted (card 1 "UL") = false
  ∧ tagAccepted (card 1 "IMG") = false ∧ tagAccepted (card 1 "P") = false.
Proof. by vm_compute. Qed.

(** * Properties of the orchestrator

    Everything in this section holds for every layout manager, every value
    of the constants and every image detector: it is decided by the two
    source files alone. *)

Section Orchestrator.
Context {LM LMStatus : Type}.
Context `{mgr : !LayoutManager LM LMStatus}.
Context `{consts : !Consts} `{loader : !ImageLoaded}.

Implicit Types (s : State LM) (rect : Element → Rect).

(** *** The guards at the entry points *)

Lemma _insert_rejected paramElements groupKey isAppend s :
  isProcessing s = true ∨ paramElements = [] →
  _insert paramElements groupKey isAppend s = (Return 0, s).
Proof.
  intros [Hp | ->]; unfold _insert.
  - by rewrite Hp.
  - by rewrite orb_true_r.
Qed.

Lemma _onScroll_processing rect s :
  isProcessing s = true → _onScroll rect s = s.
Proof. intros Hp. unfold _onScroll. by rewrite Hp. Qed.

(** C2 (as amended).  A call of [append] or [prepend] made while the
    instance is processing, or with an empty list of elements, is a no-op:
    it returns 0 and leaves the whole instance as it was, so no layout
    cycle is scheduled and no [layoutComplete] is ever triggered for it. *)
Theorem insert_noop_when_processing_or_empty
    (paramElements : list Element) (groupKey : GroupKey) (isAppend : bool) s :
  isProcessing s = true ∨ paramElements = [] →
  _insert paramElements groupKey isAppend s = (Return 0, s)
  ∧ append paramElements groupKey s = (Return 0, s)
  ∧ prepend paramElements groupKey s = (Return 0, s).
Proof.
  intros Hguard. unfold append, prepend.
  by rewrite !_insert_rejected.
Qed.

(** C3 (as amended).  While the processing flag is set, a scroll signal is
    dropped: the handler leaves the instance as it was, so nothing is
    queued and neither [append] nor [prepend] is triggered; and an
    insertion is rejected in the same way. *)
Theorem processing_drops_scroll_and_insert s :
  isProcessing s = true →
  (∀ rect, _onScroll rect s = s)
  ∧ (∀ y rect,
       attached s = true →
       events (step (OpScroll y rect) s) = events s
       ∧ sched (step (OpScroll y rect) s) = sched s
       ∧ layoutManager (step (OpScroll y rect) s) = layoutManager s)
  ∧ (∀ (paramElements : list Element) groupKey isAppend,
       _insert paramElements groupKey isAppend s = (Return 0, s)).
Proof.
  intros Hp. split_and!.
  - intros rect. by apply _onScroll_processing.
  - intros y rect Ha. cbn [step].
    replace (attached (scrollTo y s)) with (attached s) by done.
    rewrite Ha, _onScroll_processing; done.
  - intros. apply _insert_rejected. by left.
Qed.

(** C4.  A scroll signal whose offset equals the last processed offset is a
    no-op of the handler, and so is, where [IS_IOS] holds, a signal at
    offset 0 whatever the previous offset was: the instance is left as it
    was, no event is triggered. *)
Theorem onScroll_ignores_unchanged_offset rect s :
  scrollY (view s) = prevScrollTop (_status s)
  ∨ (IS_IOS = true ∧ scrollY (view s) = 0) →
  _onScroll rect s = s.
Proof.
  intros Hsame. unfold _onScroll.
  destruct (isProcessing s); [done |].
  destruct Hsame as [-> | [-> ->]].
  - by rewrite Z.eqb_refl, orb_true_r.
  - done.
Qed.

(** C7.  A snapshot from which [options], [prop], [layoutManager], [html]
    or [cssText] is missing, or no snapshot at all, is rejected by
    [setStatus]: the instance comes back exactly as it was. *)
Theorem setStatus_rejects_incomplete
    (status : option (Snapshot LMStatus)) s :
  (∀ st, status = Some st →
     snap_options st = None ∨ prop st = None ∨ snap_layoutManager st = None
     ∨ html st = None ∨ cssText st = None) →
  setStatus status s = s.
Proof.
  intros Hmissing. destruct status as [st |]; [| done].
  unfold setStatus.
  destruct (Hmissing st eq_refl) as [-> | [-> | [-> | [-> | ->]]]];
    repeat case_match; done.
Qed.

(** *** The prepend trigger *)

(** C5.  An idle instance receives a scroll signal that moved up, its top
    edge element is within the threshold.  Then the handler has run [fit];
    with [d] the distance [fit] returned, the offset it goes on with is the
    raw offset minus [d] when [d] is positive (and the viewport has been
    moved there), the raw offset otherwise; the one event it triggers is
    [prepend] with that offset, which is also the offset it remembers. *)
Theorem onScroll_prepend_carries_adjusted_offset rect s (ele : Element) :
  isProcessing s = false →
  IS_IOS && (scrollY (view s) =? 0) = false →
  scrollY (view s) < prevScrollTop (_status s) →
  topEdge s = Some ele →
  - threshold (options s) ≤ rect_bottom (rect ele) →
  let raw := scrollY (view s) in
  let d := (fit (layoutManager s)).1 in
  let adjusted := if 0 <? d then raw - d else raw in
  let s' := _onScroll rect s in
  layoutManager s' = (fit (layoutManager s)).2
  ∧ events s' = events s ++ [EvPrepend adjusted]
  ∧ scrollY (view s') = adjusted
  ∧ prevScrollTop (_status s') = adjusted
  ∧ (0 < d → adjusted = raw - d ∧ adjusted ≠ raw).
Proof.
  intros Hidle Hios Hup Hedge Hnear raw d adjusted s'.
  assert (Hadj : 0 < d → adjusted = raw - d ∧ adjusted ≠ raw).
  { intros Hd. subst adjusted.
    destruct (Z.ltb_spec 0 d); [split; lia | lia]. }
  subst s'. unfold _onScroll. rewrite Hidle, Hios. cbn [orb].
  destruct (Z.eqb_spec (prevScrollTop (_status s)) (scrollY (view s)));
    [lia |].
  destruct (Z.ltb_spec (prevScrollTop (_status s)) (scrollY (view s)));
    [lia |].
  unfold topEdge in Hedge.
  set (s1 := if isEmptyObject (topElement (_status s)) then _ else s).
  assert (Htop : topElement (_status s1) = Some ele).
  { subst s1. by destruct (isEmptyObject (topElement (_status s))). }
  assert (Hlm : layoutManager s1 = layoutManager s).
  { subst s1. by destruct (isEmptyObject (topElement (_status s))). }
  assert (Hev : events s1 = events s).
  { subst s1. by destruct (isEmptyObject (topElement (_status s))). }
  assert (Hopt : options s1 = options s).
  { subst s1. by destruct (isEmptyObject (topElement (_status s))). }
  assert (Hview : view s1 = view s).
  { subst s1. by destruct (isEmptyObject (topElement (_status s))). }
  clearbody s1. rewrite Htop, Hopt.
  destruct (Z.leb_spec (- threshold (options s)) (rect_bottom (rect ele)));
    [| lia].
  unfold _fitItems. rewrite Hlm.
  subst d adjusted raw.
  destruct (fit (layoutManager s)) as [y m] eqn:Hfit. cbn [fst snd] in *.
  destruct (0 <? y); destruct (negb (y =? 0)); cbn; rewrite ?Hev, ?Hview;
    split_and!; try done.
Qed.

(** *** Scroll compensation after a prepend *)

Lemma _doubleCheckForPrepend_frame s :
  events (_doubleCheckForPrepend s) = events s
  ∧ view (_doubleCheckForPrepend s) = view s
  ∧ _status (_doubleCheckForPrepend s) = _status s
  ∧ layoutManager (_doubleCheckForPrepend s) = layoutManager s
  ∧ el (_doubleCheckForPrepend s) = el s
  ∧ options (_doubleCheckForPrepend s) = options s.
Proof.
  unfold _doubleCheckForPrepend.
  destruct (scrollY (view s) =? 0); [| done].
  by destruct (doubleCheck (_timer s)).
Qed.

(** What [_postLayout] computes in the prepend direction.  The [distance]
    of the [layoutComplete] payload is the [y] at which the item behind
    the batch now sits, whatever its [y] was before, and 0 when the batch
    covers the whole window.  When that distance is positive the viewport
    is moved to the current offset plus the distance, which is also the
    offset remembered; otherwise the offset stays.  The processing flag is
    cleared. *)
Lemma postLayout_prepend_compensates
    (isRelayout : bool) (addItems : option (list Item))
    (opts : LayoutOptions) s :
  isProcessing s = true →
  isAppend opts = false →
  let batch := default [] addItems in
  let distance := prependShift batch (layoutManager s) in
  let s' := _postLayout isRelayout addItems opts s in
  events s' = events s
                ++ [EvLayoutComplete batch false distance (removedCount opts)]
  ∧ ((length (items (layoutManager s)) ≤ length batch)%nat → distance = 0)
  ∧ (0 < distance →
       scrollY (view s') = scrollY (view s) + distance
       ∧ prevScrollTop (_status s') = scrollY (view s) + distance)
  ∧ (distance ≤ 0 →
       scrollY (view s') = scrollY (view s)
       ∧ prevScrollTop (_status s') = prevScrollTop (_status s))
  ∧ isProcessing s' = false.
Proof.
  intros Hp Hpre batch distance s'.
  assert (Hcover : (length (items (layoutManager s)) ≤ length batch)%nat →
                   distance = 0).
  { intros Hle. subst distance. unfold prependShift.
    by destruct (Nat.leb_spec (length (items (layoutManager s)))
                   (length batch)); [| lia]. }
  subst s'. unfold _postLayout. rewrite Hp, Hpre. cbn [negb andb].
  fold batch. cbn [layoutManager _resizeContainerHeight set_el set_timer
                   set_status].
  change (if (length (items (layoutManager s)) <=? length batch)%nat
          then 0
          else default 0
                 (snd ∘ i_position <$> items (layoutManager s) !! length batch))
    with distance.
  unfold isProcessing.
  match goal with
  | |- context [_doubleCheckForPrepend ?x] =>
      destruct (_doubleCheckForPrepend_frame x) as (-> & -> & -> & _)
  end.
  destruct (Z.ltb_spec 0 distance); cbn; split_and!; done || lia.
Qed.

(** *** The double-check polling loop *)

(** Every method but [_doubleCheckForPrepend] and the poll itself leaves
    the live intervals alone. *)
Lemma layout_intervals isRelayout _addItems _options s :
  intervals (sched (layout isRelayout _addItems _options s))
  = intervals (sched s).
Proof.
  unfold layout, _waitResource.
  by destruct (0 <? length (checkImageLoaded _))%nat.
Qed.

Lemma _adjustRange_frame isTop (elements : list Element) s :
  let r := _adjustRange isTop elements s in
  r.2 = set_el (el r.2) (set_layoutManager (layoutManager r.2) s).
Proof.
  destruct s. unfold _adjustRange.
  repeat (case_match; simplify_eq; cbn in * ); done.
Qed.

Lemma _insert_intervals (paramElements : list Element) groupKey isAppend s :
  intervals (sched (_insert paramElements groupKey isAppend s).2)
  = intervals (sched s).
Proof.
  unfold _insert.
  destruct (isProcessing s || bool_decide (length paramElements = 0%nat));
    [done |].
  destruct (_prepareElement paramElements s) as [elements s1] eqn:Hprep.
  assert (Hs1 : sched s1 = sched s).
  { unfold _prepareElement in Hprep. simplify_eq.
    by destruct (negb (isRecycling _)). }
  match goal with
  | |- context [_adjustRange ?a ?b ?c] =>
      pose proof (_adjustRange_frame a b c) as Hframe;
      destruct (_adjustRange a b c) as [[removed clone] s2]
  end.
  cbn in Hframe.
  destruct removed as [removedCount | e]; cbn.
  - destruct (foldl fragmentAppend _ clone) as [docFragment c].
    cbn [snd]. rewrite layout_intervals. rewrite Hframe.
    destruct isAppend; cbn; by rewrite Hs1.
  - rewrite Hframe. cbn. by rewrite Hs1.
Qed.

Lemma _onScroll_sched rect s : sched (_onScroll rect s) = sched s.
Proof.
  unfold _onScroll, _fitItems.
  repeat (case_match; simplify_eq; cbn in * ); done.
Qed.

Lemma _onResize_intervals s :
  intervals (sched (_onResize s)) = intervals (sched s).
Proof.
  unfold _onResize.
  destruct (handleTruthy (resize (_timer s))); [| done].
  by destruct (resize (_timer s)).
Qed.

Lemma resizeCallback_intervals s :
  intervals (sched (resizeCallback s)) = intervals (sched s).
Proof.
  unfold resizeCallback.
  destruct (isNeededResize (el s) (layoutManager s)); [| done].
  cbn. by rewrite layout_intervals.
Qed.

Lemma _postLayout_append_intervals isRelayout addItems opts s :
  isAppend opts = true →
  sched (_postLayout isRelayout addItems opts s) = sched s
  ∧ doubleCheck (_timer (_postLayout isRelayout addItems opts s))
    = doubleCheck (_timer s).
Proof.
  intros Happ. unfold _postLayout. rewrite Happ.
  by destruct (negb (isProcessing s)).
Qed.

Lemma doubleCheckTick_intervals s :
  intervals (sched (doubleCheckTick s)) ⊆ intervals (sched s).
Proof.
  unfold doubleCheckTick.
  destruct (scrollY (view s) =? 0); [| done].
  destruct (doubleCheckCount (_timer _) - 1 <=? 0); [| done].
  cbn. destruct (doubleCheck (_timer s)); cbn; [| done].
  by apply subseteq_difference_l.
Qed.

Lemma only_prepend_completion_starts_interval op s :
  ¬ completesPrepend op s →
  intervals (sched (step op s)) ⊆ intervals (sched s).
Proof.
  intros Hnot. destruct op; cbn [step].
  - unfold append. by rewrite _insert_intervals.
  - unfold prepend. by rewrite _insert_intervals.
  - by rewrite layout_intervals.
  - done.
  - unfold remove. by destruct (removeItem _ _).
  - unfold setStatus. repeat case_match; done.
  - done.
  - replace (attached (scrollTo y s)) with (attached s) by done.
    destruct (attached s); [| done]. by rewrite _onScroll_sched.
  - match goal with
    | |- context [if attached ?x then _ else _] => destruct (attached x)
    end; [| done].
    by rewrite _onResize_intervals.
  - unfold fire.
    destruct (List.find _ _) as [[[i w] cb] |] eqn:Hfind; [| done].
    apply find_some in Hfind as [Hin Hid]. cbn in Hid.
    apply bool_decide_eq_true in Hid. subst i.
    destruct cb as [isRelayout addItems opts |]; cbn [runCallback].
    + destruct (isAppend opts) eqn:Happ.
      * unfold _onLayoutComplete. cbn zeta.
        by rewrite (proj1 (_postLayout_append_intervals _ _ _ _ Happ)).
      * exfalso. apply Hnot. exists id, w, isRelayout, addItems, opts.
        split_and!; [done | by apply list_elem_of_In | done].
    + by rewrite resizeCallback_intervals.
  - case_bool_decide; [| done]. apply doubleCheckTick_intervals.
Qed.

Lemma doubleCheckTick_away s :
  scrollY (view s) ≠ 0 → doubleCheckTick s = s.
Proof.
  intros Haway. unfold doubleCheckTick.
  by destruct (Z.eqb_spec (scrollY (view s)) 0).
Qed.

(** One poll at the top that does not use up the budget. *)
Lemma doubleCheckTick_top_more s :
  scrollY (view s) = 0 →
  1 < doubleCheckCount (_timer s) →
  let s' := doubleCheckTick s in
  events s' = events s ++ [EvPrepend 0]
  ∧ sched s' = sched s
  ∧ view s' = view s
  ∧ doubleCheck (_timer s') = doubleCheck (_timer s)
  ∧ doubleCheckCount (_timer s') = doubleCheckCount (_timer s) - 1.
Proof.
  intros Htop Hmore. unfold doubleCheckTick. rewrite Htop. cbn.
  by destruct (Z.leb_spec (doubleCheckCount (_timer s) - 1) 0); [lia |].
Qed.

(** The poll at the top that uses up the budget. *)
Lemma doubleCheckTick_top_last s :
  scrollY (view s) = 0 →
  doubleCheckCount (_timer s) ≤ 1 →
  let s' := doubleCheckTick s in
  events s' = events s ++ [EvPrepend 0]
  ∧ sched s' = sched (clearInterval (doubleCheck (_timer s)) s).
Proof.
  intros Htop Hlast. unfold doubleCheckTick. rewrite Htop. cbn.
  destruct (Z.leb_spec (doubleCheckCount (_timer s) - 1) 0); [| lia].
  by destruct (doubleCheck (_timer s)).
Qed.

Lemma run_cons (op : Op (LMStatus:=LMStatus)) ops s :
  run (op :: ops) s = run ops (step op s).
Proof. done. Qed.

Lemma step_tick_live (id : nat) s :
  id ∈ intervals (sched s) →
  step (OpTick (LMStatus:=LMStatus) id) s = doubleCheckTick s.
Proof. intros Hlive. cbn [step]. by rewrite bool_decide_eq_true_2. Qed.

(** With the viewport resting at the top and [S n] attempts left, [S n]
    polls trigger [S n] prepend requests and the last one clears the
    interval; none of the earlier ones does. *)
Lemma polls_exhaust_budget (n : nat) : ∀ s (id : nat),
  scrollY (view s) = 0 →
  doubleCheck (_timer s) = Some id →
  id ∈ intervals (sched s) →
  doubleCheckCount (_timer s) = Z.of_nat (S n) →
  events (run (replicate (S n) (OpTick id)) s)
  = events s ++ replicate (S n) (EvPrepend 0)
  ∧ (id ∉ intervals (sched (run (replicate (S n) (OpTick id)) s)))
  ∧ (∀ k, (k ≤ n)%nat →
       id ∈ intervals (sched (run (replicate k (OpTick id)) s))).
Proof.
  induction n as [| n IH]; intros s id Htop Hh Hlive Hcount.
  - change (replicate 1 (OpTick id)) with [OpTick (LMStatus:=LMStatus) id].
    rewrite run_cons, step_tick_live by done. cbn [run foldl].
    destruct (doubleCheckTick_top_last s Htop) as [-> ->]; [lia |].
    rewrite Hh. cbn. split_and!.
    + done.
    + apply not_elem_of_difference. right. by apply elem_of_singleton.
    + intros k Hk. by replace k with 0%nat by lia.
  - destruct (doubleCheckTick_top_more s Htop) as (Hev & Hq & Hv & Hd & Hc);
      [lia |].
    assert (Hstep : ∀ k, run (replicate (S k) (OpTick id)) s
                         = run (replicate k (OpTick id)) (doubleCheckTick s)).
    { intros k. cbn [replicate]. by rewrite run_cons, step_tick_live. }
    destruct (IH (doubleCheckTick s) id) as (IHev & IHout & IHin).
    + by rewrite Hv.
    + by rewrite Hd.
    + by rewrite Hq.
    + rewrite Hc, Hcount. lia.
    + rewrite Hstep. split_and!.
      * rewrite IHev, Hev, <- app_assoc. done.
      * done.
      * intros [| k] Hk; [done |].
        rewrite Hstep. apply IHin. lia.
Qed.

Lemma _doubleCheckForPrepend_arms s :
  doubleCheckCount (_timer (_doubleCheckForPrepend s))
  = doubleCheckCount (_timer s)
  ∧ (scrollY (view s) = 0 →
       doubleCheck (_timer (_doubleCheckForPrepend s))
       = Some (nextId (sched s))
       ∧ nextId (sched s) ∈ intervals (sched (_doubleCheckForPrepend s)))
  ∧ (scrollY (view s) ≠ 0 → sched (_doubleCheckForPrepend s) = sched s).
Proof.
  unfold _doubleCheckForPrepend.
  destruct (Z.eqb_spec (scrollY (view s)) 0) as [Htop | Haway].
  - split_and!; [by destruct (doubleCheck (_timer s)) | | done].
    intros _. destruct (doubleCheck (_timer s)); cbn;
      (split; [done | by apply elem_of_union_l, elem_of_singleton]).
  - done.
Qed.

(** What a prepend-direction completion leaves behind: the budget is
    [RETRY]; if the viewport is at offset 0 a fresh interval is live and
    its handle is kept, otherwise no interval is started. *)
Lemma _postLayout_prepend_arms isRelayout addItems opts s :
  isProcessing s = true →
  isAppend opts = false →
  let s' := _postLayout isRelayout addItems opts s in
  doubleCheckCount (_timer s') = RETRY
  ∧ (scrollY (view s') = 0 →
       doubleCheck (_timer s') = Some (nextId (sched s))
       ∧ nextId (sched s) ∈ intervals (sched s'))
  ∧ (scrollY (view s') ≠ 0 → sched s' = sched s).
Proof.
  intros Hp Hpre s'. subst s'. unfold _postLayout. rewrite Hp, Hpre.
  cbn [negb andb].
  match goal with
  | |- context [_doubleCheckForPrepend ?x] => set (s1 := x)
  end.
  assert (sched s1 = sched s ∧ doubleCheckCount (_timer s1) = RETRY)
    as [Hq Hc].
  { subst s1.
    match goal with
    | |- context [if 0 <? ?d then _ else _] => by destruct (0 <? d)
    end. }
  clearbody s1.
  destruct (_doubleCheckForPrepend_frame s1) as (_ & -> & _).
  destruct (_doubleCheckForPrepend_arms s1) as (-> & Harm & Hnot).
  by rewrite <- Hq.
Qed.

(** Every completion, in either direction, refills the budget. *)
Lemma _postLayout_budget isRelayout addItems opts s :
  isProcessing s = true →
  doubleCheckCount (_timer (_postLayout isRelayout addItems opts s)) = RETRY.
Proof.
  intros Hp. destruct (isAppend opts) eqn:Hdir.
  - unfold _postLayout. by rewrite Hp, Hdir.
  - by apply _postLayout_prepend_arms.
Qed.

(** C9 (as amended).  A new interval appears only when the scheduler
    completes a prepend-direction layout cycle.  Every completion sets the
    budget to [RETRY]; a prepend-direction one starts the poll when the
    viewport is at offset 0, and starts nothing otherwise.  A poll away
    from offset 0 does nothing at all: no request, and the interval stays
    live.  With the viewport resting at offset 0 and [S n] attempts left,
    [S n] polls trigger exactly [S n] prepend requests at offset 0, and the
    last of them stops the loop. *)
Theorem doubleCheck_loop_budget s :
  (∀ op, ¬ completesPrepend op s →
         intervals (sched (step op s)) ⊆ intervals (sched s))
  ∧ (∀ isRelayout addItems opts,
       isProcessing s = true →
       let s' := _postLayout isRelayout addItems opts s in
       doubleCheckCount (_timer s') = RETRY
       ∧ (isAppend opts = false → scrollY (view s') = 0 →
            doubleCheck (_timer s') = Some (nextId (sched s))
            ∧ nextId (sched s) ∈ intervals (sched s'))
       ∧ (isAppend opts = false → scrollY (view s') ≠ 0 →
            sched s' = sched s))
  ∧ (scrollY (view s) ≠ 0 → ∀ id, step (OpTick id) s = s)
  ∧ (∀ (n id : nat),
       scrollY (view s) = 0 →
       doubleCheck (_timer s) = Some id →
       id ∈ intervals (sched s) →
       doubleCheckCount (_timer s) = Z.of_nat (S n) →
       events (run (replicate (S n) (OpTick id)) s)
       = events s ++ replicate (S n) (EvPrepend 0)
       ∧ (id ∉ intervals (sched (run (replicate (S n) (OpTick id)) s)))
       ∧ (∀ k, (k ≤ n)%nat →
            id ∈ intervals (sched (run (replicate k (OpTick id)) s)))).
Proof.
  split_and!.
  - intros op. apply only_prepend_completion_starts_interval.
  - intros isRelayout addItems opts Hp s'. subst s'. split_and!.
    + by apply _postLayout_budget.
    + intros Hpre. by apply _postLayout_prepend_arms.
    + intros Hpre. by apply _postLayout_prepend_arms.
  - intros Haway id. cbn [step].
    case_bool_decide; [by apply doubleCheckTick_away | done].
  - intros n id. apply polls_exhaust_budget.
Qed.

(** *** Eviction in [_adjustRange] *)

(** Without recycling, without overflow, or with a negative delimiter
    index, [_adjustRange] touches neither the window nor the container. *)
Lemma _adjustRange_no_eviction isTop (elements : list Element) s :
  isRecycling s = false
  ∨ overflow isTop elements s ≤ 0
  ∨ getDelimiterIndex isTop (overflow isTop elements s) (layoutManager s) < 0 →
  (_adjustRange isTop elements s).2 = s.
Proof.
  intros Hcase. unfold _adjustRange.
  destruct (isRecycling s); cbn [negb]; [| done].
  destruct Hcase as [Hr | [Hd | Hi]]; [done | |].
  - by destruct (Z.leb_spec (overflow isTop elements s) 0); [| lia].
  - destruct (Z.ltb_spec
                (getDelimiterIndex isTop (overflow isTop elements s)
                   (layoutManager s)) 0); [| lia].
    by rewrite orb_true_r.
Qed.

(** Otherwise the new window is the one [adjustItems] leaves, at the index
    [getDelimiterIndex] gave. *)
Lemma _adjustRange_eviction isTop (elements : list Element) s :
  isRecycling s = true →
  0 < overflow isTop elements s →
  0 ≤ getDelimiterIndex isTop (overflow isTop elements s) (layoutManager s) →
  layoutManager (_adjustRange isTop elements s).2
  = (adjustItems isTop
       (getDelimiterIndex isTop (overflow isTop elements s) (layoutManager s))
       (layoutManager s)).2.
Proof.
  intros Hr Hd Hi. unfold _adjustRange. rewrite Hr. cbn [negb].
  destruct (Z.leb_spec (overflow isTop elements s) 0); [lia |].
  destruct (Z.ltb_spec
              (getDelimiterIndex isTop (overflow isTop elements s)
                 (layoutManager s)) 0); [lia |].
  cbn [orb].
  destruct (adjustItems _ _ _) as [targets m].
  destruct (releaseTargets _ _ _) as [[[] ?] ?]; done.
Qed.

(** *** What an accepted insertion returns and starts *)

Lemma inFlight_layout isRelayout _addItems _options s :
  inFlight (layout isRelayout _addItems _options s) = S (inFlight s)
  ∧ isProcessing (layout isRelayout _addItems _options s) = true.
Proof.
  unfold layout, _waitResource, inFlight.
  destruct (0 <? length (checkImageLoaded _))%nat; cbn;
    rewrite List.filter_app, length_app; cbn; split; done || lia.
Qed.

(** An insertion that is not rejected and does not throw has set the
    processing flag and started exactly one layout cycle. *)
Lemma _insert_starts_cycle (paramElements : list Element) groupKey isAppend
    s (n : Z) :
  isProcessing s = false →
  paramElements ≠ [] →
  (_insert paramElements groupKey isAppend s).1 = Return n →
  isProcessing (_insert paramElements groupKey isAppend s).2 = true
  ∧ inFlight (_insert paramElements groupKey isAppend s).2 = S (inFlight s).
Proof.
  intros Hidle Hne. unfold _insert. rewrite Hidle.
  rewrite bool_decide_eq_false_2 by (by destruct paramElements).
  cbn [orb].
  destruct (_prepareElement paramElements s) as [elements s1] eqn:Hprep.
  assert (Hs1 : sched s1 = sched s).
  { unfold _prepareElement in Hprep. simplify_eq.
    by destruct (negb (isRecycling _)). }
  match goal with
  | |- context [_adjustRange ?a ?b ?c] =>
      pose proof (_adjustRange_frame a b c) as Hframe;
      destruct (_adjustRange a b c) as [[removed clone] s2]
  end.
  cbn in Hframe.
  destruct removed as [removedCount | e]; [| done].
  destruct (foldl fragmentAppend _ clone) as [docFragment c].
  intros _. cbn [snd].
  match goal with
  | |- context [layout ?r ?a ?o ?x] =>
      destruct (inFlight_layout r a o x) as [-> ->]
  end.
  split; [done |]. f_equal. unfold inFlight.
  rewrite Hframe. destruct isAppend; cbn; by rewrite Hs1.
Qed.

(** Below capacity nothing is trimmed: the count returned is the number of
    elements that pass the tag test. *)
Lemma _insert_counts_accepted (paramElements : list Element) groupKey
    isAppend s :
  isProcessing s = false →
  paramElements ≠ [] →
  isRecycling (_prepareElement paramElements s).2 = false →
  (_insert paramElements groupKey isAppend s).1
  = Return (Z.of_nat (length (List.filter tagAccepted paramElements))).
Proof.
  intros Hidle Hne Hbelow. unfold _insert. rewrite Hidle.
  rewrite bool_decide_eq_false_2 by (by destruct paramElements).
  cbn [orb].
  destruct (_prepareElement paramElements s) as [elements s1] eqn:Hprep.
  assert (Hel : elements = List.filter tagAccepted paramElements)
    by (unfold _prepareElement in Hprep; by simplify_eq).
  cbn [snd] in Hbelow.
  unfold _adjustRange.
  replace (isRecycling (set_elemTop _ s1)) with (isRecycling s1) by done.
  rewrite Hbelow. cbn [negb].
  destruct (foldl fragmentAppend _ elements) as [docFragment c].
  cbn. by rewrite Hel.
Qed.

End Orchestrator.

(** * Properties that rest on the layout manager

    The window and the columns live in the layout manager; what follows is
    about [SpecLayoutManager]. *)

Section WithSpecLayoutManager.
Context `{consts : !Consts} `{loader : !ImageLoaded}.

Implicit Types (s t : State LMState) (l : list Item) (g : GroupKey).

Lemma groupItems_app g l1 l2 :
  groupItems g (l1 ++ l2) = groupItems g l1 ++ groupItems g l2.
Proof. apply List.filter_app. Qed.

Lemma groupItems_nil_iff g l :
  groupItems g l = [] ↔ ∀ it, In it l → i_groupKey it ≠ g.
Proof.
  induction l as [| a l IH]; cbn.
  - split; [by intros _ it [] | done].
  - case_bool_decide as Ha; split.
    + done.
    + intros Hall. exfalso. by apply (Hall a); [left |].
    + intros Hnil it [<- | Hin]; [done |]. by apply IH.
    + intros Hall. apply IH. intros it Hin. apply Hall. by right.
Qed.

Lemma respectsGroups_spec (k : nat) l :
  respectsGroups k l = true →
  ∀ a b, In a (take k l) → In b (drop k l) → i_groupKey a ≠ i_groupKey b.
Proof.
  unfold respectsGroups. intros Hall a b Ha Hb.
  rewrite forallb_forall in Hall. specialize (Hall a Ha).
  rewrite forallb_forall in Hall. specialize (Hall b Hb).
  apply negb_true_iff in Hall. by apply bool_decide_eq_false in Hall.
Qed.

(** Cutting at a rank that respects the groups leaves every group whole on
    one side of the cut. *)
Lemma respectsGroups_whole (k : nat) l g :
  respectsGroups k l = true →
  (groupItems g (drop k l) = groupItems g l ∨ groupItems g (drop k l) = [])
  ∧ (groupItems g (take k l) = groupItems g l ∨ groupItems g (take k l) = []).
Proof.
  intros Hk. pose proof (respectsGroups_spec k l Hk) as Hcut.
  assert (Hl : groupItems g l
               = groupItems g (take k l) ++ groupItems g (drop k l))
    by (by rewrite <- groupItems_app, take_drop).
  rewrite Hl.
  destruct (groupItems g (take k l)) as [| a front] eqn:Hfront.
  - split; [by left | by right].
  - assert (Ha : In a (take k l) ∧ i_groupKey a = g).
    { assert (Hin : In a (groupItems g (take k l)))
        by (rewrite Hfront; by left).
      apply filter_In in Hin as [Hin Hkey].
      by apply bool_decide_eq_true in Hkey. }
    destruct Ha as [Ha Hg].
    assert (Hback : groupItems g (drop k l) = []).
    { apply groupItems_nil_iff. intros b Hb Hkey.
      apply (Hcut a b Ha Hb). congruence. }
    rewrite Hback, app_nil_r. split; [by right | by left].
Qed.

Lemma respectsGroups_0 l : respectsGroups 0 l = true.
Proof. done. Qed.

Lemma respectsGroups_ge (k : nat) l :
  (length l ≤ k)%nat → respectsGroups k l = true.
Proof.
  intros Hk. unfold respectsGroups. rewrite drop_ge by done.
  apply forallb_forall. done.
Qed.

Lemma snapTop_respects (k : nat) l : respectsGroups (snapTop k l) l = true.
Proof.
  induction k as [| k IH]; cbn [snapTop]; [done |].
  by destruct (respectsGroups (S k) l) eqn:Hk.
Qed.

Lemma snapBottomFrom_respects (fuel : nat) : ∀ (k : nat) l,
  (length l ≤ fuel + k)%nat →
  respectsGroups (snapBottomFrom fuel k l) l = true.
Proof.
  induction fuel as [| fuel IH]; intros k l Hlen; cbn [snapBottomFrom].
  - by apply respectsGroups_ge.
  - destruct (respectsGroups k l) eqn:Hk; [done |]. apply IH. lia.
Qed.

Lemma snapBottom_respects (k : nat) l :
  respectsGroups (snapBottom k l) l = true.
Proof. unfold snapBottom. apply snapBottomFrom_respects. lia. Qed.

(** The two searches stay between the cut they start from and the end of
    the window they move toward, and a cut that is on a boundary is kept. *)
Lemma snapTop_le (k : nat) l : (snapTop k l ≤ k)%nat.
Proof.
  induction k as [| k IH]; cbn [snapTop]; [done |].
  destruct (respectsGroups (S k) l); lia.
Qed.

Lemma snapTop_fixed (k : nat) l :
  respectsGroups k l = true → snapTop k l = k.
Proof. intros Hk. destruct k; cbn [snapTop]; [done | by rewrite Hk]. Qed.

Lemma snapBottomFrom_fixed (fuel k : nat) l :
  respectsGroups k l = true → snapBottomFrom fuel k l = k.
Proof. intros Hk. destruct fuel; cbn [snapBottomFrom]; [done | by rewrite Hk]. Qed.

Lemma snapBottom_fixed (k : nat) l :
  respectsGroups k l = true → snapBottom k l = k.
Proof. apply snapBottomFrom_fixed. Qed.

Lemma snapBottomFrom_range (fuel : nat) : ∀ (k : nat) l,
  (k ≤ snapBottomFrom fuel k l ≤ k + fuel)%nat.
Proof.
  induction fuel as [| fuel IH]; intros k l; cbn [snapBottomFrom]; [lia |].
  destruct (respectsGroups k l); [lia |].
  specialize (IH (S k) l). lia.
Qed.

(** An index [getDelimiterIndex] returns for the top is a group boundary
    that evicts at least one item and at most the overflow, and
    [adjustItems] evicts exactly the items before it. *)
Lemma spec_eviction_from_top (d : Z) (m : LMState) :
  let idx := spec_getDelimiterIndex true d m in
  0 ≤ idx →
  0 < idx ≤ d
  ∧ respectsGroups (Z.to_nat idx) (lm_items m) = true
  ∧ (spec_adjustItems true idx m).1 = take (Z.to_nat idx) (lm_items m)
  ∧ lm_items (spec_adjustItems true idx m).2
    = drop (Z.to_nat idx) (lm_items m).
Proof.
  intros idx. subst idx. unfold spec_getDelimiterIndex.
  destruct (Z.leb_spec d 0) as [Hd | Hd]; cbn [orb]; [lia |].
  destruct (Z.ltb_spec (Z.of_nat (length (lm_items m))) d) as [Hlen | Hlen];
    [lia |].
  pose proof (snapTop_le (Z.to_nat d) (lm_items m)) as Hle.
  pose proof (snapTop_respects (Z.to_nat d) (lm_items m)) as Hresp.
  destruct (Nat.eqb_spec (snapTop (Z.to_nat d) (lm_items m)) 0) as [| Hpos];
    [lia |].
  intros _. rewrite Nat2Z.id. unfold spec_adjustItems. cbn [fst snd lm_items].
  rewrite Nat2Z.id.
  replace (snapTop (Z.to_nat d) (lm_items m) `min` length (lm_items m))%nat
    with (snapTop (Z.to_nat d) (lm_items m)) by lia.
  rewrite (snapTop_fixed (snapTop (Z.to_nat d) (lm_items m))) by done.
  split_and!; [lia | lia | done | done | done].
Qed.

(** The same for the bottom: the items from the index on are evicted, at
    least one and at most the overflow. *)
Lemma spec_eviction_from_bottom (d : Z) (m : LMState) :
  let idx := spec_getDelimiterIndex false d m in
  0 ≤ idx →
  Z.of_nat (length (lm_items m)) - d ≤ idx < Z.of_nat (length (lm_items m))
  ∧ respectsGroups (Z.to_nat idx) (lm_items m) = true
  ∧ (spec_adjustItems false idx m).1 = drop (Z.to_nat idx) (lm_items m)
  ∧ lm_items (spec_adjustItems false idx m).2
    = take (Z.to_nat idx) (lm_items m).
Proof.
  intros idx. subst idx. unfold spec_getDelimiterIndex.
  destruct (Z.leb_spec d 0) as [Hd | Hd]; cbn [orb]; [lia |].
  destruct (Z.ltb_spec (Z.of_nat (length (lm_items m))) d) as [Hlen | Hlen];
    [lia |].
  set (k := (length (lm_items m) - Z.to_nat d)%nat).
  pose proof (snapBottom_respects k (lm_items m)) as Hresp.
  pose proof (snapBottomFrom_range (length (lm_items m) - k) k (lm_items m))
    as Hrange.
  fold (snapBottom k (lm_items m)) in Hrange.
  destruct (Nat.eqb_spec (snapBottom k (lm_items m)) (length (lm_items m)))
    as [| Hin]; [lia |].
  intros _. rewrite Nat2Z.id. unfold spec_adjustItems. cbn [fst snd lm_items].
  rewrite Nat2Z.id.
  replace (snapBottom k (lm_items m) `min` length (lm_items m))%nat
    with (snapBottom k (lm_items m)) by lia.
  rewrite (snapBottom_fixed (snapBottom k (lm_items m))) by done.
  split_and!; [lia | lia | done | done | done].
Qed.

(** Whatever index it is given, [adjustItems] leaves every group either
    whole or gone. *)
Lemma spec_adjustItems_whole isTop (idx : Z) (m : LMState) g :
  groupItems g (lm_items (spec_adjustItems isTop idx m).2)
  = groupItems g (lm_items m)
  ∨ groupItems g (lm_items (spec_adjustItems isTop idx m).2) = [].
Proof.
  unfold spec_adjustItems. destruct isTop; cbn.
  - eapply respectsGroups_whole, snapTop_respects.
  - eapply respectsGroups_whole, snapBottom_respects.
Qed.

(** C1.  [_adjustRange] never splits a group.  When [getDelimiterIndex]
    answers with a negative index for the overflow of the cycle, nothing is
    evicted: the window, and with it the whole instance, is left as it was,
    over capacity.  And in every case each group key of the window is
    afterwards carried by all the items that carried it before, or by
    none. *)
Theorem adjustRange_never_splits_a_group isTop (elements : list Element) s :
  let after := (_adjustRange isTop elements s).2 in
  (getDelimiterIndex isTop (overflow isTop elements s) (layoutManager s) < 0 →
   after = s)
  ∧ (∀ g,
       groupItems g (items (layoutManager after))
       = groupItems g (items (layoutManager s))
       ∨ groupItems g (items (layoutManager after)) = []).
Proof.
  intros after. subst after. split.
  - intros Hneg. apply _adjustRange_no_eviction. by right; right.
  - intros g.
    destruct (isRecycling s) eqn:Hr;
      [| left; by rewrite _adjustRange_no_eviction by by left].
    destruct (Z.leb_spec (overflow isTop elements s) 0) as [Hd | Hd];
      [left; by rewrite _adjustRange_no_eviction by (right; by left) |].
    destruct (Z.ltb_spec
                (getDelimiterIndex isTop (overflow isTop elements s)
                   (layoutManager s)) 0) as [Hi | Hi];
      [left; by rewrite _adjustRange_no_eviction by (right; by right) |].
    rewrite _adjustRange_eviction by done.
    apply spec_adjustItems_whole.
Qed.

(** *** Snapshot and restore *)

(** C8 (as amended).  Take the snapshot of an instance whose container has
    at least one child and a non-empty inline style, and hand it to
    [setStatus] on any instance, a freshly constructed one included.  The
    window of the result is the window of the original, item for item in
    the same rank order, the column heights are the same, so are markup,
    style and options, and the two edge elements are the first and the last
    element of that window, whatever the caches of either instance held. *)
Theorem setStatus_getStatus_restores s t :
  children (el s) ≠ [] →
  cssIsEmpty (style (el s)) = false →
  let t' := setStatus (Some (getStatus s)) t in
  items (layoutManager t') = items (layoutManager s)
  ∧ lm_cols (layoutManager t') = lm_cols (layoutManager s)
  ∧ children (el t') = children (el s)
  ∧ style (el t') = style (el s)
  ∧ options t' = options s
  ∧ topElement (_status t') = i_el <$> head (items (layoutManager s))
  ∧ bottomElement (_status t') = i_el <$> last (items (layoutManager s)).
Proof.
  intros Hhtml Hcss t'. subst t'.
  unfold setStatus, getStatus. cbn [snap_options prop snap_layoutManager html
                                     cssText htmlFalsy cssTextFalsy].
  rewrite Hcss. rewrite bool_decide_eq_false_2 by done. cbn [orb].
  destruct s as [o c m st tm v a e q ev]. destruct o. cbn. done.
Qed.

(** With an empty container, or an empty inline style, the snapshot is
    refused and the receiving instance keeps its own window. *)
Lemma setStatus_getStatus_refused s t :
  children (el s) = [] ∨ cssIsEmpty (style (el s)) = true →
  setStatus (Some (getStatus s)) t = t.
Proof.
  intros Hempty. unfold setStatus, getStatus.
  cbn [snap_options prop snap_layoutManager html cssText htmlFalsy
       cssTextFalsy].
  destruct Hempty as [-> | ->]; [done | by rewrite orb_true_r].
Qed.

(** The two results of the modelled [layoutItems] agree: the items the
    array holds after the pass are items of the window. *)
Lemma spec_layoutItems_addItems_window (isRelayout : bool) l
    (opts : LayoutOptions) (o : Options) (m : LMState) :
  ∀ it, it ∈ spec_layoutItems_addItems isRelayout l opts o m →
        it ∈ lm_items (spec_layoutItems isRelayout (Some l) opts o m).
Proof.
  intros it. unfold spec_layoutItems_addItems, spec_layoutItems.
  change (default [] (Some l)) with l.
  destruct (if isRelayout then _ else _) as [placed cols].
  destruct (isAppend opts).
  - destruct (placeAll _ _ l cols) as [added cols']. cbn [fst lm_items].
    intros Hin. apply elem_of_app. by right.
  - destruct (placeAll _ _ (reverse l) _) as [block top]. cbn [fst lm_items].
    rewrite elem_of_reverse. intros Hin. apply elem_of_app. by left.
Qed.

End WithSpecLayoutManager.

(** * The properties at work on concrete instances *)

Section Scenarios.
#[local] Existing Instance desktop.
#[local] Existing Instance imagesReady.

(** Scenario A of the design document: capacity 4 and three groups of two.
    After the third group the window holds the second and the third, and
    the cycle reports the two cards it has placed and two cropped cards. *)
Example scenario_A_evicts_first_group :
  el_id ∘ i_el <$> items (layoutManager (run threeGroups (grid 4)))
  = [3; 4; 5; 6]%nat
  ∧ last (events (run threeGroups (grid 4)))
    = Some (EvLayoutComplete
              (drop 2 (items (layoutManager (run threeGroups (grid 4)))))
              true 0 2).
Proof. by vm_compute. Qed.

(** C1 at work: a window of one group of four, capacity 4, two more cards
    on their way to the bottom.  No cut respects the group, the index is
    -1, and the instance is left as it was. *)
Lemma adjustRange_never_splits_a_group_witness :
  getDelimiterIndex true
    (overflow true [card 5 "LI"; card 6 "LI"] oneGroup)
    (layoutManager oneGroup) = -1
  ∧ (_adjustRange true [card 5 "LI"; card 6 "LI"] oneGroup).2 = oneGroup
  ∧ ∀ g,
      groupItems g
        (items (layoutManager
                  (_adjustRange true [card 5 "LI"; card 6 "LI"] oneGroup).2))
      = groupItems g (items (layoutManager oneGroup))
      ∨ groupItems g
          (items (layoutManager
                    (_adjustRange true [card 5 "LI"; card 6 "LI"] oneGroup).2))
        = [].
Proof.
  assert (Hidx : getDelimiterIndex true
                   (overflow true [card 5 "LI"; card 6 "LI"] oneGroup)
                   (layoutManager oneGroup) = -1)
    by (vm_compute; reflexivity).
  destruct (adjustRange_never_splits_a_group true
              [card 5 "LI"; card 6 "LI"] oneGroup) as [Hsame Hwhole].
  split_and!; [exact Hidx | apply Hsame; rewrite Hidx; lia | exact Hwhole].
Defined.

(** C2 at work: a second [append] while the first cycle is in flight. *)
Lemma insert_noop_when_processing_or_empty_witness :
  isProcessing busy = true
  ∧ append [card 2 "DIV"] None busy = (Return 0, busy).
Proof.
  assert (Hbusy : isProcessing busy = true) by (vm_compute; reflexivity).
  split; [exact Hbusy |].
  destruct (insert_noop_when_processing_or_empty
              [card 2 "DIV"] None true busy (or_introl Hbusy))
    as (_ & Happend & _).
  exact Happend.
Defined.

(** C2 as stated fails: the window of a fresh instance is empty, and an
    [append] of one card is not a no-op.  It returns 1, sets the processing
    flag and starts a cycle, which triggers [layoutComplete] when it
    completes. *)
Lemma insert_into_empty_window_is_not_a_noop :
  items (layoutManager (grid 30)) = []
  ∧ isProcessing (grid 30) = false
  ∧ (append [card 1 "DIV"] None (grid 30)).1 = Return 1
  ∧ append [card 1 "DIV"] None (grid 30) ≠ (Return 0, grid 30)
  ∧ isProcessing (append [card 1 "DIV"] None (grid 30)).2 = true
  ∧ inFlight (append [card 1 "DIV"] None (grid 30)).2 = 1%nat
  ∧ events (run [OpAppend [card 1 "DIV"] None; OpFire 1] (grid 30))
    = [EvLayoutComplete (itemize [card 1 "DIV"] None) true 0 0].
Proof.
  split_and!; by vm_compute.
Qed.

(** C3 at work: a scroll signal and an insertion while a cycle is in
    flight. *)
Lemma processing_drops_scroll_and_insert_witness :
  isProcessing busy = true
  ∧ _onScroll flat busy = busy
  ∧ _insert [card 2 "DIV"] None false busy = (Return 0, busy).
Proof.
  assert (Hbusy : isProcessing busy = true) by (vm_compute; reflexivity).
  destruct (processing_drops_scroll_and_insert busy Hbusy)
    as (Hscroll & _ & Hinsert).
  split_and!; [exact Hbusy | apply Hscroll | apply Hinsert].
Defined.

(** C3 as stated fails: the flag does not guard [layout].  With one cycle
    in flight, a call of [layout(true)] starts a second one, and so does a
    resize that changes the number of columns once its debounce timer
    runs. *)
Lemma second_cycle_starts_while_processing :
  isProcessing busy = true
  ∧ inFlight busy = 1%nat
  ∧ inFlight (step (OpLayout true) busy) = 2%nat
  ∧ inFlight (run [OpResize 600 3; OpFire 2] busy) = 2%nat.
Proof. by vm_compute. Qed.

(** C4 at work: a second signal at offset 300, and on iOS a signal at
    offset 0 after one at 300. *)
Lemma onScroll_ignores_unchanged_offset_witness :
  scrollY (view scrolledDown) = prevScrollTop (_status scrolledDown)
  ∧ _onScroll flat scrolledDown = scrolledDown
  ∧ prevScrollTop (_status (scrollTo 0 scrolledDown)) = 300
  ∧ _onScroll (consts:=ios) flat (scrollTo 0 scrolledDown)
    = scrollTo 0 scrolledDown.
Proof.
  assert (Hsame : scrollY (view scrolledDown)
                  = prevScrollTop (_status scrolledDown))
    by (vm_compute; reflexivity).
  split_and!.
  - exact Hsame.
  - apply onScroll_ignores_unchanged_offset. left. exact Hsame.
  - vm_compute; reflexivity.
  - apply (onScroll_ignores_unchanged_offset (consts:=ios)). right.
    split; vm_compute; reflexivity.
Defined.

(** C5 at work: back up at 120 after 300, with 50 of dead space above the
    window.  [fit] returns 50; the viewport goes to 70 and the request
    carries 70, not 120. *)
Lemma onScroll_prepend_carries_adjusted_offset_witness :
  (fit (layoutManager scrolledUp)).1 = 50
  ∧ events (_onScroll flat scrolledUp) = events scrolledUp ++ [EvPrepend 70]
  ∧ scrollY (view (_onScroll flat scrolledUp)) = 70
  ∧ prevScrollTop (_status (_onScroll flat scrolledUp)) = 70.
Proof.
  assert (Hfit : (fit (layoutManager scrolledUp)).1 = 50)
    by (vm_compute; reflexivity).
  assert (Hraw : scrollY (view scrolledUp) = 120)
    by (vm_compute; reflexivity).
  destruct (onScroll_prepend_carries_adjusted_offset flat scrolledUp
              (card 3 "LI"))
    as (_ & Hev & Hview & Hprev & _).
  - vm_compute; reflexivity.
  - vm_compute; reflexivity.
  - vm_compute; reflexivity.
  - vm_compute; reflexivity.
  - vm_compute. discriminate.
  - rewrite Hfit, Hraw in Hev, Hview, Hprev.
    split_and!; [exact Hfit | exact Hev | exact Hview | exact Hprev].
Defined.

(** Scenario D of the design document: the user is at offset 200 when two
    cards are prepended above two cards that start at [y] = 0.  The card
    that was on top now sits at 50, which here is also how far it has
    moved; the payload says 50 and the offset becomes 250.  The last line
    is the same cycle run by the scheduler. *)
Lemma postLayout_prepend_compensates_witness :
  scrollY (view beforePostLayout) = 200
  ∧ prependShift placedBatch (layoutManager beforePostLayout) = 50
  ∧ events (_postLayout false (Some placedBatch) prependCycle
              beforePostLayout)
    = events beforePostLayout ++ [EvLayoutComplete placedBatch false 50 0]
  ∧ scrollY (view (_postLayout false (Some placedBatch) prependCycle
                     beforePostLayout)) = 250
  ∧ prevScrollTop (_status (_postLayout false (Some placedBatch)
                              prependCycle beforePostLayout)) = 250
  ∧ step (OpFire 2) prependRequested
    = _postLayout false (Some placedBatch) prependCycle beforePostLayout.
Proof.
  assert (Hraw : scrollY (view beforePostLayout) = 200)
    by (vm_compute; reflexivity).
  assert (Hshift : prependShift placedBatch (layoutManager beforePostLayout)
                   = 50)
    by (vm_compute; reflexivity).
  destruct (postLayout_prepend_compensates false (Some placedBatch)
              prependCycle beforePostLayout)
    as (Hev & _ & Hmove & _).
  - vm_compute; reflexivity.
  - reflexivity.
  - change (default [] (Some placedBatch)) with placedBatch
      in Hev, Hmove.
    rewrite Hshift in Hev, Hmove.
    destruct Hmove as [Hview Hprev]; [lia |].
    rewrite Hraw in Hview, Hprev.
    split_and!; [exact Hraw | exact Hshift | exact Hev | exact Hview
                | exact Hprev | vm_compute; reflexivity].
Defined.

(** C7 at work: a snapshot without markup. *)
Lemma setStatus_rejects_incomplete_witness :
  html noMarkup = None
  ∧ setStatus (Some noMarkup) laidOut = laidOut.
Proof.
  split; [reflexivity |].
  apply setStatus_rejects_incomplete.
  intros st Hst. injection Hst as <-.
  right; right; right; left. reflexivity.
Defined.

(** C8 at work: the snapshot of two laid-out cards restored into a fresh
    instance. *)
Lemma setStatus_getStatus_restores_witness :
  items (layoutManager (grid 30)) = []
  ∧ items (layoutManager (setStatus (Some (getStatus laidOut)) (grid 30)))
    = items (layoutManager laidOut)
  ∧ lm_cols (layoutManager (setStatus (Some (getStatus laidOut)) (grid 30)))
    = lm_cols (layoutManager laidOut)
  ∧ topElement (_status (setStatus (Some (getStatus laidOut)) (grid 30)))
    = Some (card 1 "LI")
  ∧ bottomElement (_status (setStatus (Some (getStatus laidOut)) (grid 30)))
    = Some (card 2 "LI").
Proof.
  destruct (setStatus_getStatus_restores laidOut (grid 30))
    as (Hitems & Hcols & _ & _ & _ & Htop & Hbottom).
  - vm_compute. discriminate.
  - vm_compute; reflexivity.
  - split_and!; [reflexivity | exact Hitems | exact Hcols | |].
    + rewrite Htop. vm_compute; reflexivity.
    + rewrite Hbottom. vm_compute; reflexivity.
Defined.

(** C8 as stated fails.  [clear()] during a cycle empties the container;
    the callback of the cycle still puts the card into the window.  The
    snapshot of that state has empty markup, [setStatus] refuses it, and
    the fresh instance keeps its empty window. *)
Lemma snapshot_of_cleared_grid_is_refused :
  reachable clearedInFlight
  ∧ el_id ∘ i_el <$> items (layoutManager clearedInFlight) = [1%nat]
  ∧ children (el clearedInFlight) = []
  ∧ setStatus (Some (getStatus clearedInFlight)) (grid 30) = grid 30
  ∧ items (layoutManager
             (setStatus (Some (getStatus clearedInFlight)) (grid 30))) = [].
Proof.
  assert (Hrefused :
            setStatus (Some (getStatus clearedInFlight)) (grid 30) = grid 30)
    by (apply setStatus_getStatus_refused; left; by vm_compute).
  split_and!.
  - by exists emptyGrid, (withCount 30), atTop,
      [OpAppend [card 1 "LI"] None; OpClear; OpFire 1].
  - by vm_compute.
  - by vm_compute.
  - exact Hrefused.
  - rewrite Hrefused. by vm_compute.
Qed.

(** C9 at work: the poll is live under handle 2 with a budget of 3 and the
    viewport rests at offset 0.  Three polls trigger three requests and the
    third stops the loop. *)
Lemma doubleCheck_loop_budget_witness :
  doubleCheck (_timer armed) = Some 2%nat
  ∧ doubleCheckCount (_timer armed) = RETRY
  ∧ events (run (replicate 3 (OpTick 2)) armed)
    = events armed ++ [EvPrepend 0; EvPrepend 0; EvPrepend 0]
  ∧ (2%nat ∉ intervals (sched (run (replicate 3 (OpTick 2)) armed)))
  ∧ (2%nat ∈ intervals (sched (run (replicate 2 (OpTick 2)) armed))).
Proof.
  destruct (doubleCheck_loop_budget armed) as (_ & _ & _ & Hbudget).
  destruct (Hbudget 2%nat 2%nat) as (Hev & Hout & Hin).
  - vm_compute; reflexivity.
  - vm_compute; reflexivity.
  - vm_compute; reflexivity.
  - vm_compute; reflexivity.
  - split_and!; [vm_compute; reflexivity | vm_compute; reflexivity
                | exact Hev | exact Hout | apply Hin; lia].
Defined.

(** C9 as stated fails: moving away from the top does not stop the loop.
    With the viewport at 100 four polls pass, more than the budget; the
    interval is still live, and once the viewport is back at 0 the next
    poll triggers a request again. *)
Lemma poll_survives_scrolling_away :
  scrollY (view scrolledAway) = 100
  ∧ 2%nat ∈ intervals (sched scrolledAway)
  ∧ doubleCheck (_timer scrolledAway) = Some 2%nat
  ∧ events (step (OpTick 2) (step (OpScroll 0 flat) scrolledAway))
    = events (step (OpScroll 0 flat) scrolledAway) ++ [EvPrepend 0].
Proof. split_and!; by vm_compute. Qed.

(** Outside what C9 says either way: [clear()] forgets the handle without
    clearing the interval.  The poll then has nothing to clear when its
    budget is used up, and goes on triggering requests at offset 0. *)
Example poll_outlives_reset :
  doubleCheck (_timer (step OpClear armed)) = None
  ∧ 2%nat ∈ intervals (sched (run (OpClear :: replicate 5 (OpTick 2)) armed))
  ∧ events (run (OpClear :: replicate 5 (OpTick 2)) armed)
    = events armed ++ replicate 5 (EvPrepend 0).
Proof. split_and!; by vm_compute. Qed.

(** A batch in which no element passes the tag test: the call returns 0,
    and still it sets the processing flag and starts a cycle, which
    triggers [layoutComplete] with an empty target. *)
Example rejected_batch_still_starts_a_cycle :
  tagAccepted (card 1 "P") = false
  ∧ (append [card 1 "P"] None (grid 30)).1 = Return 0
  ∧ isProcessing (append [card 1 "P"] None (grid 30)).2 = true
  ∧ inFlight (append [card 1 "P"] None (grid 30)).2 = 1%nat
  ∧ events (run [OpAppend [card 1 "P"] None; OpFire 1] (grid 30))
    = [EvLayoutComplete [] true 0 0].
Proof. split_and!; by vm_compute. Qed.

(** C6 fails on the code.  Capacity 4 and three groups of two: the first
    group has been evicted, the window starts with card 3 at [y] = 50, and
    the user is at offset 200.  Two cards are prepended.  They take a block
    of height 50 and card 3 moves down by 50, from 50 to 100; the window
    is 50 taller.  The documentation of [layoutComplete] promises that
    distance, and the offset should become 250.  [_postLayout] takes the
    [y] at which card 3 now sits: the payload says 100 and the offset
    becomes 300. *)
Theorem prepend_distance_is_position_not_shift :
  isProcessing evictedOnTop = false
  ∧ scrollY (view evictedOnTop) = 200
  ∧ whereIs <$> getTopItem (layoutManager evictedOnTop)
    = Some (card 3 "LI", 50)
  ∧ whereIs <$> items (layoutManager prependedAfterEviction) !! 2%nat
    = Some (card 3 "LI", 100)
  ∧ getLogicalHeight (layoutManager prependedAfterEviction)
    = getLogicalHeight (layoutManager evictedOnTop) + 50
  ∧ last (events prependedAfterEviction)
    = Some (EvLayoutComplete
              (reverse (take 2 (items (layoutManager prependedAfterEviction))))
              false 100 2)
  ∧ scrollY (view prependedAfterEviction) = 300
  ∧ prevScrollTop (_status prependedAfterEviction) = 300.
Proof. split_and!; by vm_compute. Qed.

(** C10 fails on the code: a [LINK] element is none of [DIV], [SPAN] and
    [LI], yet the tag test lets it through, since its name contains [LI].
    An [append] of that one element returns 1 where the count of [DIV],
    [SPAN] and [LI] elements is 0, and the element is put into the
    container. *)
Theorem link_element_is_counted :
  length (List.filter isDivSpanLi [card 1 "LINK"]) = 0%nat
  ∧ tagAccepted (card 1 "LINK") = true
  ∧ isProcessing (grid 30) = false
  ∧ (append [card 1 "LINK"] None (grid 30)).1 = Return 1
  ∧ children (el (append [card 1 "LINK"] None (grid 30)).2)
    = [card 1 "LINK"].
Proof. split_and!; by vm_compute. Qed.

End Scenarios.

(** * More of the orchestrator

    What the other paths of the two files do, again for every layout
    manager. *)

Section Coverage.
Context {LM LMStatus : Type}.
Context `{mgr : !LayoutManager LM LMStatus}.
Context `{consts : !Consts} `{loader : !ImageLoaded}.

Implicit Types (s : State LM) (rect : Element → Rect).

(** *** Insertion, step by step *)

Lemma _prepareElement_fst (paramElements : list Element) s :
  (_prepareElement paramElements s).1 = List.filter tagAccepted paramElements.
Proof. done. Qed.

Lemma _prepareElement_frame (paramElements : list Element) s :
  let s' := (_prepareElement paramElements s).2 in
  options s' = options s ∧ el s' = el s ∧ layoutManager s' = layoutManager s
  ∧ sched s' = sched s ∧ events s' = events s ∧ view s' = view s
  ∧ _timer s' = _timer s ∧ isProcessing s' = true
  ∧ clientHeight (_status s') = clientHeight (_status s).
Proof.
  unfold _prepareElement. cbn [snd].
  by destruct (negb (isRecycling _)).
Qed.

Lemma staged_frame (paramElements : list Element) s :
  options (staged paramElements s) = options s
  ∧ el (staged paramElements s) = el s
  ∧ layoutManager (staged paramElements s) = layoutManager s
  ∧ sched (staged paramElements s) = sched s
  ∧ events (staged paramElements s) = events s
  ∧ view (staged paramElements s) = view s
  ∧ _timer (staged paramElements s) = _timer s
  ∧ isProcessing (staged paramElements s) = true
  ∧ _status (staged paramElements s)
    = _status (_prepareElement paramElements s).2.
Proof.
  pose proof (_prepareElement_frame paramElements s) as Hframe.
  unfold staged. destruct (_prepareElement paramElements s) as [elements s1].
  cbn in *. destruct Hframe as (? & ? & ? & ? & ? & ? & ? & ? & ?).
  split_and!; done.
Qed.

(** [_insert] past its guard, with the destructuring bindings spelled out
    as projections. *)
Lemma _insert_accepted (paramElements : list Element) groupKey isAppend s :
  isProcessing s = false →
  paramElements ≠ [] →
  let r := _adjustRange isAppend (List.filter tagAccepted paramElements)
             (staged paramElements s) in
  _insert paramElements groupKey isAppend s
  = match r.1.1 with
    | Throw e => (Throw e, r.2)
    | Return removedCount =>
        (Return (Z.of_nat (length r.1.2)),
         layout false (Some (itemize r.1.2 groupKey))
           (Some {| isAppend := isAppend; removedCount := removedCount |})
           (set_el (placeBatch isAppend r.1.2 (el r.2)) r.2))
    end.
Proof.
  intros Hidle Hne r. subst r. unfold _insert, staged, placeBatch.
  rewrite Hidle, bool_decide_eq_false_2 by (by destruct paramElements).
  cbn [orb].
  rewrite (surjective_pairing (_prepareElement paramElements s)).
  rewrite _prepareElement_fst.
  destruct (_adjustRange _ _ _) as [[[removedCount | e] clone] s2];
    cbn [fst snd]; [| done].
  destruct (foldl fragmentAppend _ clone) as [docFragment c].
  by destruct isAppend.
Qed.

(** *** What is left of a batch *)

Lemma take_drop_sublist {A} (a b : nat) (l : list A) :
  (a ≤ b)%nat → sublist (take a l ++ drop b l) l.
Proof.
  intros Hab. rewrite <- (take_drop a l) at 3.
  apply sublist_app; [done |].
  replace b with (a + (b - a))%nat by lia.
  rewrite <- drop_drop. apply sublist_drop.
Qed.

Lemma splice_rest_sublist {A} (start : Z) (deleteCount : option Z)
    (l : list A) :
  sublist (splice start deleteCount l).2 l.
Proof.
  unfold splice. cbn [snd]. apply take_drop_sublist.
  destruct (Z.ltb_spec start 0); destruct deleteCount; lia.
Qed.

Lemma trimElements_sublist isTop (elements : list Element) s :
  sublist (trimElements isTop elements s).2 elements.
Proof.
  unfold trimElements.
  destruct (count (options s) <=? Z.of_nat (length elements)); [| done].
  destruct isTop; apply splice_rest_sublist.
Qed.

(** With a positive [count], the trimmed batch has [count] elements, or all
    of them when they are fewer. *)
Lemma trimElements_length isTop (elements : list Element) s :
  0 < count (options s) →
  Z.of_nat (length (trimElements isTop elements s).2)
  = Z.min (Z.of_nat (length elements)) (count (options s)).
Proof.
  intros Hpos. unfold trimElements.
  destruct (Z.leb_spec (count (options s)) (Z.of_nat (length elements)));
    [| cbn [snd]; lia].
  destruct isTop; unfold splice; cbn [snd];
    rewrite length_app, length_take, length_drop.
  - rewrite Z.ltb_irrefl. lia.
  - destruct (Z.ltb_spec (count (options s)) 0); lia.
Qed.

Lemma releaseTargets_sublist (targets : list Item) :
  ∀ (elements : list Element) (c : Container),
    sublist (releaseTargets targets elements c).1.2 elements.
Proof.
  induction targets as [| v targets IH]; intros elements c;
    cbn [releaseTargets]; [done |].
  destruct (negb (indexOf (i_el v) elements =? -1)).
  - etrans; [apply IH | apply splice_rest_sublist].
  - case_bool_decide; [apply IH | done].
Qed.

(** Whatever [_adjustRange] does, the batch it leaves is the batch it got
    with some elements taken out, and under recycling it is no longer than
    [count]. *)
Lemma _adjustRange_batch isTop (elements : list Element) s :
  sublist (_adjustRange isTop elements s).1.2 elements
  ∧ (isRecycling s = true →
     Z.of_nat (length (_adjustRange isTop elements s).1.2)
     ≤ count (options s)).
Proof.
  unfold _adjustRange. destruct (isRecycling s) eqn:Hr; cbn [negb];
    [| split; [done | done]].
  assert (Hpos : 0 < count (options s)).
  { unfold isRecycling in Hr. apply andb_true_iff in Hr as [Hc _]. lia. }
  pose proof (trimElements_sublist isTop elements s) as Hsub.
  pose proof (trimElements_length isTop elements s Hpos) as Hlen.
  destruct (_ || _); cbn [fst snd]; [split; [done | lia] |].
  destruct (adjustItems _ _ _) as [targets m].
  pose proof (releaseTargets_sublist targets
                (trimElements isTop elements s).2
                (el (set_layoutManager m s))) as Hrel.
  destruct (releaseTargets _ _ _) as [[done' rest] c]. cbn [fst snd] in Hrel.
  assert (Hshort : (length rest ≤ length (trimElements isTop elements s).2)%nat)
    by (by apply sublist_length).
  destruct done'; cbn [fst snd]; (split; [by etrans | lia]).
Qed.

Lemma filter_tagAccepted_sublist (paramElements : list Element) :
  sublist (List.filter tagAccepted paramElements) paramElements.
Proof.
  induction paramElements as [| v l IH]; cbn; [done |].
  destruct (tagAccepted v); [by apply sublist_skip | by apply sublist_cons].
Qed.

Lemma _adjustRange_state isTop (elements : list Element) s :
  let s' := (_adjustRange isTop elements s).2 in
  options s' = options s ∧ _status s' = _status s ∧ sched s' = sched s
  ∧ events s' = events s ∧ view s' = view s ∧ _timer s' = _timer s.
Proof.
  pose proof (_adjustRange_frame isTop elements s) as Hframe.
  cbn in Hframe |- *. by rewrite Hframe.
Qed.

(** Recycling as [_adjustRange] finds it: it was on already, or the window
    and the accepted elements together reach a positive [count]. *)
Lemma staged_recycling (paramElements : list Element) s :
  isRecycling (staged paramElements s)
  = isRecycling s
    || (0 <? count (options s))
       && (count (options s)
           <=? Z.of_nat (length (items (layoutManager s)))
               + Z.of_nat (length (List.filter tagAccepted paramElements))).
Proof.
  destruct (staged_frame paramElements s)
    as (Ho & _ & _ & _ & _ & _ & _ & _ & Hst).
  unfold isRecycling at 1. rewrite Ho, Hst.
  unfold _prepareElement. cbn [snd].
  replace (isRecycling (set_status (set_isProcessing true (_status s)) s))
    with (isRecycling s) by done.
  destruct (isRecycling s) eqn:Hr; cbn [negb orb]; [exact Hr | done].
Qed.

Lemma layout_pending isRelayout _addItems _options s :
  ∃ w (opts : LayoutOptions),
    pending (sched (layout isRelayout _addItems _options s))
    = pending (sched s)
        ++ [(nextId (sched s), w,
             CbLayout isRelayout
               (if isAppend opts then _addItems else reverse <$> _addItems)
               opts)]
    ∧ nextId (sched (layout isRelayout _addItems _options s))
      = S (nextId (sched s))
    ∧ removedCount opts
      = removedCount
          (default {| isAppend := true; removedCount := 0 |} _options)
    ∧ isAppend opts
      = isUndefined _addItems
        || isAppend (default {| isAppend := true; removedCount := 0 |}
                       _options).
Proof.
  unfold layout, _waitResource.
  set (opts0 := default {| isAppend := true; removedCount := 0 |} _options).
  destruct (0 <? length (checkImageLoaded _))%nat; eexists _, _;
    (split_and!; [reflexivity | reflexivity | |]);
    destruct _addItems, (isAppend opts0) eqn:Hdir; cbn; by rewrite ?Hdir.
Qed.

Lemma layout_frame isRelayout _addItems _options s :
  let s' := layout isRelayout _addItems _options s in
  events s' = events s ∧ el s' = el s ∧ layoutManager s' = layoutManager s
  ∧ options s' = options s ∧ view s' = view s ∧ _timer s' = _timer s
  ∧ isProcessing s' = true
  ∧ intervals (sched s') = intervals (sched s).
Proof.
  unfold layout, _waitResource.
  by destruct (0 <? length (checkImageLoaded _))%nat.
Qed.

(** X1.  An [append] or [prepend] that passes the guard and returns has
    started exactly one layout cycle: the flag is set, no event has been
    triggered yet, and one callback has joined the pending ones under a
    fresh handle.  The callback carries the items of the batch that was
    kept (in reverse for [prepend]), no relayout, the direction of the
    call; the number returned is the length of that batch, which is made of
    elements that passed the tag test. *)
Theorem insert_schedules_one_cycle
    (paramElements : list Element) groupKey isAppend s (n : Z) :
  isProcessing s = false →
  paramElements ≠ [] →
  (_insert paramElements groupKey isAppend s).1 = Return n →
  let s' := (_insert paramElements groupKey isAppend s).2 in
  ∃ (batch : list Element) (removed : Z) (w : Wait),
    sublist batch (List.filter tagAccepted paramElements)
    ∧ n = Z.of_nat (length batch)
    ∧ pending (sched s')
      = pending (sched s)
          ++ [(nextId (sched s), w,
               CbLayout false
                 (Some (if isAppend then itemize batch groupKey
                        else reverse (itemize batch groupKey)))
                 {| isAppend := isAppend; removedCount := removed |})]
    ∧ isProcessing s' = true
    ∧ events s' = events s.
Proof.
  intros Hidle Hne. rewrite _insert_accepted by done.
  set (r := _adjustRange isAppend (List.filter tagAccepted paramElements)
              (staged paramElements s)).
  destruct (_adjustRange_batch isAppend
              (List.filter tagAccepted paramElements) (staged paramElements s))
    as [Hsub _].
  destruct (_adjustRange_state isAppend
              (List.filter tagAccepted paramElements) (staged paramElements s))
    as (_ & _ & Hq & Hev & _).
  destruct (staged_frame paramElements s)
    as (_ & _ & _ & Hq0 & Hev0 & _).
  fold r in Hsub, Hq, Hev. cbn zeta in Hq, Hev.
  destruct (r.1.1) as [removedCount | e] eqn:Hdone; cbn [fst snd]; [| done].
  intros [= <-].
  match goal with
  | |- context [layout ?a ?b ?c ?x] =>
      destruct (layout_pending a b c x) as (w & opts & Hp & _ & Hrem & Hdir);
      destruct (layout_frame a b c x) as (Hlev & _ & _ & _ & _ & _ & Hflag & _)
  end.
  cbn in Hrem, Hdir.
  exists r.1.2, removedCount, w. split_and!; [done | done | | done |].
  - rewrite Hp. cbn [sched set_el]. rewrite Hq, Hq0.
    destruct opts as [dir rem]. cbn in Hrem, Hdir. subst dir rem.
    by destruct isAppend.
  - rewrite Hlev. cbn [events set_el]. by rewrite Hev, Hev0.
Qed.

(** X2.  The number an insertion returns is never negative, never more
    than the number of supplied elements that pass the tag test, and, when
    [count] is positive, never more than [count]. *)
Theorem insert_count_is_bounded
    (paramElements : list Element) groupKey isAppend s (n : Z) :
  (_insert paramElements groupKey isAppend s).1 = Return n →
  0 ≤ n ≤ Z.of_nat (length (List.filter tagAccepted paramElements))
  ∧ (0 < count (options s) → n ≤ count (options s)).
Proof.
  destruct (isProcessing s) eqn:Hidle;
    [rewrite _insert_rejected by (by left); intros [= <-]; lia |].
  destruct paramElements as [| v l] eqn:Hp;
    [rewrite _insert_rejected by (by right); intros [= <-]; cbn; lia |].
  rewrite <- Hp. assert (Hne : paramElements ≠ []) by (by subst).
  clear Hp. rewrite _insert_accepted by done.
  set (accepted := List.filter tagAccepted paramElements).
  destruct (_adjustRange_batch isAppend accepted (staged paramElements s))
    as [Hsub Hcap].
  apply sublist_length in Hsub.
  destruct (staged_frame paramElements s) as (Ho & _ & Hlm & _).
  rewrite Ho in Hcap.
  pose proof (staged_recycling paramElements s) as Hrec.
  destruct ((_adjustRange isAppend accepted (staged paramElements s)).1.1)
    as [removed | e] eqn:Hdone; cbn [fst]; [| done].
  intros [= <-]. split; [lia |]. intros Hpos.
  destruct (isRecycling (staged paramElements s)) eqn:Hr; [by apply Hcap |].
  symmetry in Hrec. apply orb_false_iff in Hrec as [_ Hbelow].
  apply andb_false_iff in Hbelow as [Hc%Z.ltb_ge | Hc%Z.leb_gt]; [lia |].
  fold accepted in Hc. lia.
Qed.

Lemma filter_notin_nil (l : list Element) :
  List.filter (λ x, negb (bool_decide (x ∈ @nil Element))) l = l.
Proof.
  induction l as [| x l IH]; cbn; [done |].
  rewrite bool_decide_eq_false_2 by (by intros ?%elem_of_nil). cbn.
  by f_equal.
Qed.

Lemma filter_notin_cons (v : Element) (batch l : list Element) :
  List.filter (λ x, negb (bool_decide (x ∈ batch)))
    (List.filter (λ x, negb (bool_decide (x = v))) l)
  = List.filter (λ x, negb (bool_decide (x ∈ v :: batch))) l.
Proof.
  induction l as [| x l IH]; cbn; [done |].
  destruct (decide (x = v)) as [-> | Hx].
  - rewrite bool_decide_eq_true_2 by done. cbn.
    by rewrite (bool_decide_eq_true_2 (v ∈ v :: batch)) by (by left).
  - rewrite bool_decide_eq_false_2 by done. cbn.
    destruct (decide (x ∈ batch)) as [Hin | Hin].
    + by rewrite !bool_decide_eq_true_2 by (done || by right).
    + rewrite !bool_decide_eq_false_2
        by (done || by apply not_elem_of_cons). cbn. by f_equal.
Qed.

Lemma filter_other_fresh (v : Element) (l : list Element) :
  v ∉ l → List.filter (λ x, negb (bool_decide (x = v))) l = l.
Proof.
  induction l as [| y l IH]; cbn; [done |].
  intros [Hy Hv]%not_elem_of_cons.
  rewrite bool_decide_eq_false_2 by done. cbn. by rewrite IH.
Qed.

(** Moving a batch of distinct elements through the fragment: the elements
    leave their old places among the children and arrive in batch order. *)
Lemma fragment_of_distinct (batch : list Element) :
  ∀ (frag : list Element) (c : Container),
    NoDup batch →
    (∀ x, x ∈ batch → x ∉ frag) →
    foldl fragmentAppend (frag, c) batch
    = (frag ++ batch,
       set_children
         (List.filter (λ x, negb (bool_decide (x ∈ batch))) (children c)) c).
Proof.
  induction batch as [| v batch IH]; intros frag c Hnd Hfresh; cbn [foldl].
  - rewrite app_nil_r, filter_notin_nil. by destruct c.
  - apply NoDup_cons in Hnd as [Hv Hnd].
    unfold fragmentAppend at 2. cbn [fst snd].
    rewrite filter_other_fresh by (apply Hfresh; by left).
    rewrite IH; [| done |].
    + rewrite <- app_assoc. cbn [app]. f_equal.
      unfold removeChild, set_children. cbn.
      by rewrite filter_notin_cons.
    + intros x Hx. apply not_elem_of_app. split; [apply Hfresh; by right |].
      by intros ->%list_elem_of_singleton.
Qed.

(** [append] puts distinct elements after the children that stay,
    [prepend] before them. *)
Lemma placeBatch_distinct (isAppend : bool) (batch : list Element)
    (c : Container) :
  NoDup batch →
  children (placeBatch isAppend batch c)
  = if isAppend
    then List.filter (λ x, negb (bool_decide (x ∈ batch))) (children c)
           ++ batch
    else batch
           ++ List.filter (λ x, negb (bool_decide (x ∈ batch))) (children c).
Proof.
  intros Hnd. unfold placeBatch.
  rewrite fragment_of_distinct by (done || by intros ? _ ?%elem_of_nil).
  by destruct isAppend.
Qed.

Lemma _adjustRange_not_recycling isTop (elements : list Element) s :
  isRecycling s = false →
  _adjustRange isTop elements s = (Return 0, elements, s).
Proof. intros Hr. unfold _adjustRange. by rewrite Hr. Qed.

(** X3.  Without a capacity ([count] zero or negative), or while the
    window and the accepted elements together stay below [count], an
    insertion removes nothing.  It returns the number of supplied elements
    that pass the tag test; the window is not touched; the cycle it starts
    reports 0 cropped; and, the accepted elements being distinct, the
    container holds the children it had that are not in the batch, with
    the batch after them for [append] and before them for [prepend]. *)
Theorem insert_below_capacity_removes_nothing
    (paramElements : list Element) groupKey isAppend s :
  isProcessing s = false →
  paramElements ≠ [] →
  NoDup (List.filter tagAccepted paramElements) →
  count (options s) ≤ 0
  ∨ (s_isRecycling (_status s) = false
     ∧ Z.of_nat (length (items (layoutManager s)))
       + Z.of_nat (length (List.filter tagAccepted paramElements))
       < count (options s)) →
  let accepted := List.filter tagAccepted paramElements in
  let s' := (_insert paramElements groupKey isAppend s).2 in
  (_insert paramElements groupKey isAppend s).1
  = Return (Z.of_nat (length accepted))
  ∧ layoutManager s' = layoutManager s
  ∧ children (el s')
    = (if isAppend
       then List.filter (λ x, negb (bool_decide (x ∈ accepted)))
              (children (el s)) ++ accepted
       else accepted
              ++ List.filter (λ x, negb (bool_decide (x ∈ accepted)))
                   (children (el s)))
  ∧ style (el s') = style (el s)
  ∧ ∃ w, last (pending (sched s'))
         = Some (nextId (sched s), w,
                 CbLayout false
                   (Some (if isAppend then itemize accepted groupKey
                          else reverse (itemize accepted groupKey)))
                   {| isAppend := isAppend; removedCount := 0 |}).
Proof.
  intros Hidle Hne Hnd Hbelow accepted s'. subst s'.
  rewrite _insert_accepted by done. fold accepted.
  assert (Hr : isRecycling (staged paramElements s) = false).
  { rewrite staged_recycling. unfold isRecycling.
    destruct Hbelow as [Hc | [Hflag Hc]].
    - by destruct (Z.ltb_spec 0 (count (options s))); [lia |].
    - rewrite Hflag, andb_false_r. cbn [orb].
      destruct (Z.leb_spec (count (options s))
                  (Z.of_nat (length (items (layoutManager s)))
                   + Z.of_nat
                       (length (List.filter tagAccepted paramElements))));
        [lia |].
      by rewrite andb_false_r. }
  rewrite _adjustRange_not_recycling by done. cbn [fst snd].
  destruct (staged_frame paramElements s)
    as (_ & Hel & Hlm & Hq & _).
  match goal with
  | |- context [layout ?a ?b ?c ?x] =>
      destruct (layout_pending a b c x) as (w & opts & Hp & _ & Hrem & Hdir);
      destruct (layout_frame a b c x) as (_ & -> & -> & _)
  end.
  cbn in Hrem, Hdir. cbn [el layoutManager set_el].
  split_and!; [done | done | | |].
  - rewrite Hel. by apply placeBatch_distinct.
  - rewrite Hel. unfold placeBatch.
    rewrite fragment_of_distinct by (done || by intros ? _ ?%elem_of_nil).
    by destruct isAppend.
  - exists w. rewrite Hp, last_snoc. cbn [sched set_el]. rewrite Hq.
    destruct opts as [dir rem]. cbn in Hrem, Hdir. subst dir rem.
    by destruct isAppend.
Qed.

(** A processing instance with no callback pending stays so, and triggers
    no [layoutComplete], through a step that is an insertion, a removal, a
    scroll signal, a callback or a tick of the poll. *)
Lemma stuck_step (op : Op (LMStatus:=LMStatus)) s :
  restarts op = false →
  isProcessing s = true →
  pending (sched s) = [] →
  isProcessing (step op s) = true
  ∧ pending (sched (step op s)) = []
  ∧ completions (events (step op s)) = completions (events s).
Proof.
  intros Hop Hflag Hq. destruct op; try discriminate Hop; cbn [step].
  - unfold append. by rewrite _insert_rejected by (by left).
  - unfold prepend. by rewrite _insert_rejected by (by left).
  - unfold remove. by destruct (removeItem _ _).
  - replace (attached (scrollTo y s)) with (attached s) by done.
    destruct (attached s); [| done].
    by rewrite _onScroll_processing.
  - unfold fire. by rewrite Hq.
  - case_bool_decide; [| done]. unfold doubleCheckTick.
    destruct (scrollY (view s) =? 0); [| done].
    assert (Hlog : completions (events s ++ [EvPrepend 0])
                   = completions (events s))
      by (unfold completions; rewrite List.filter_app; cbn;
          by rewrite app_nil_r).
    destruct (_ <=? 0); [| done].
    by destruct (doubleCheck _).
Qed.

Lemma stuck_run (ops : list (Op (LMStatus:=LMStatus))) :
  ∀ s,
    Forall (λ op, restarts op = false) ops →
    isProcessing s = true →
    pending (sched s) = [] →
    isProcessing (run ops s) = true
    ∧ completions (events (run ops s)) = completions (events s).
Proof.
  induction ops as [| op ops IH]; intros s Hops Hflag Hq; [done |].
  apply Forall_cons in Hops as [Hop Hops]. rewrite run_cons.
  destruct (stuck_step op s Hop Hflag Hq) as (Hflag' & Hq' & Hlog).
  destruct (IH (step op s) Hops Hflag' Hq') as [Hend Hlog'].
  split; [done | by rewrite Hlog'].
Qed.

(** X4.  When the eviction throws in the middle of an insertion, the call
    has set the processing flag and started no cycle: the scheduler and
    the event log are as they were before the call, and in the state the
    call leaves every [append] and [prepend] returns 0 and changes
    nothing.  When moreover no callback was pending at the call, nothing
    is left to clear the flag: it stays set, and no [layoutComplete] is
    triggered, through every sequence of insertions, removals, scroll
    signals, scheduler callbacks and ticks of the poll; only [layout()], a
    resize signal, [clear()], [destroy()] or [setStatus()] can make the
    instance take insertions again. *)
Theorem insert_that_throws_leaves_the_flag_set
    (paramElements : list Element) groupKey isAppend s (e : string) :
  isProcessing s = false →
  (_insert paramElements groupKey isAppend s).1 = Throw e →
  let s' := (_insert paramElements groupKey isAppend s).2 in
  isProcessing s' = true
  ∧ sched s' = sched s
  ∧ events s' = events s
  ∧ (∀ (more : list Element) groupKey' isAppend',
       _insert more groupKey' isAppend' s' = (Return 0, s'))
  ∧ (pending (sched s) = [] →
     ∀ ops : list (Op (LMStatus:=LMStatus)),
       Forall (λ op, restarts op = false) ops →
       isProcessing (run ops s') = true
       ∧ completions (events (run ops s')) = completions (events s)
       ∧ ∀ (more : list Element) groupKey' isAppend',
           _insert more groupKey' isAppend' (run ops s')
           = (Return 0, run ops s')).
Proof.
  intros Hidle.
  destruct paramElements as [| v l] eqn:Hp;
    [by rewrite _insert_rejected by (by right) |].
  rewrite <- Hp. assert (Hne : paramElements ≠ []) by (by subst).
  clear Hp. rewrite _insert_accepted by done.
  set (accepted := List.filter tagAccepted paramElements).
  destruct (_adjustRange_state isAppend accepted (staged paramElements s))
    as (_ & Hst & Hq & Hev & _).
  destruct (staged_frame paramElements s)
    as (_ & _ & _ & Hq0 & Hev0 & _ & _ & Hflag & _).
  destruct ((_adjustRange isAppend accepted (staged paramElements s)).1.1)
    as [removed | e'] eqn:Hdone; cbn [fst snd]; [done |].
  intros _.
  assert (Hset : isProcessing
                   (_adjustRange isAppend accepted (staged paramElements s)).2
                 = true)
    by (unfold isProcessing in *; by rewrite Hst).
  split_and!; [done | by rewrite Hq | by rewrite Hev | |].
  - intros. apply _insert_rejected. by left.
  - intros Hnone ops Hops.
    destruct (stuck_run ops _ Hops Hset) as [Hstay Hlog];
      [by rewrite Hq, Hq0 |].
    split_and!; [done | by rewrite Hlog, Hev, Hev0 |].
    intros. apply _insert_rejected. by left.
Qed.

(** *** Completion of a cycle *)

(** What [_postLayout] triggers when the flag is set, in either
    direction. *)
Lemma _postLayout_events isRelayout addItems opts s :
  isProcessing s = true →
  let s' := _postLayout isRelayout addItems opts s in
  events s'
  = events s
      ++ [EvLayoutComplete (default [] addItems) (isAppend opts)
            (if isAppend opts then 0
             else prependShift (default [] addItems) (layoutManager s))
            (removedCount opts)]
  ∧ isProcessing s' = false
  ∧ pending (sched s') = pending (sched s)
  ∧ layoutManager s' = layoutManager s
  ∧ children (el s') = children (el s)
  ∧ height (style (el s')) = Some (getLogicalHeight (layoutManager s))
  ∧ topElement (_status s') = getTopElement s
  ∧ bottomElement (_status s') = getBottomElement s.
Proof.
  intros Hp. cbn zeta. unfold _postLayout. rewrite Hp. cbn [negb].
  destruct (isAppend opts) eqn:Hdir; cbn [negb andb].
  - done.
  - unfold isProcessing.
    match goal with
    | |- context [_doubleCheckForPrepend ?x] =>
        destruct (_doubleCheckForPrepend_frame x)
          as (-> & _ & -> & -> & -> & _);
        assert (Hq : pending (sched (_doubleCheckForPrepend x))
                     = pending (sched x))
    end.
    { unfold _doubleCheckForPrepend. case_match; [| done].
      by destruct (doubleCheck (_timer _)). }
    rewrite Hq. unfold prependShift.
    match goal with
    | |- context [if 0 <? ?d then _ else _] => by destruct (0 <? d)
    end.
Qed.

(** When the flag is clear, the callback of a cycle only runs the layout
    manager. *)
Lemma _onLayoutComplete_idle isRelayout addItems opts s :
  isProcessing s = false →
  _onLayoutComplete isRelayout addItems opts s
  = set_layoutManager
      (layoutItems isRelayout addItems opts (options s) (layoutManager s)) s.
Proof.
  intros Hidle. unfold _onLayoutComplete, _postLayout. cbn zeta.
  replace (isProcessing (set_layoutManager _ s)) with (isProcessing s) by done.
  by rewrite Hidle.
Qed.

Lemma find_fresh_handle (w : Wait) (cb : Callback) s :
  freshHandle s →
  List.find (λ e, bool_decide (e.1.1 = nextId (sched s)))
    (pending (sched s) ++ [(nextId (sched s), w, cb)])
  = Some (nextId (sched s), w, cb)
  ∧ List.filter (λ e, negb (bool_decide (e.1.1 = nextId (sched s))))
      (pending (sched s) ++ [(nextId (sched s), w, cb)])
    = pending (sched s).
Proof.
  unfold freshHandle. generalize (nextId (sched s)) as id.
  generalize (pending (sched s)) as l. intros l id Hfresh.
  induction l as [| e l IH]; cbn.
  - by rewrite bool_decide_eq_true_2.
  - assert (He : e.1.1 ≠ id) by (apply Hfresh; by left).
    rewrite bool_decide_eq_false_2 by done. cbn.
    destruct IH as [-> ->]; [| done].
    intros e' He'. apply Hfresh. by right.
Qed.

(** X5.  Every call of [layout] is answered by one [layoutComplete] when
    the scheduler runs its callback, provided nothing else happens in
    between.  The array of the call (reversed in the prepend direction) is
    handed to [layoutItems], and the payload carries it as [layoutItems]
    has left it (empty when the call had none), with the cropped count of
    the call; the flag is clear again, the callback is gone, and the
    container is as tall as the layout manager says.  A call without a
    batch always completes in the append direction, with distance 0. *)
Theorem layout_is_answered_by_one_layoutComplete
    isRelayout (_addItems : option (list Item))
    (_options : option LayoutOptions) s :
  freshHandle s →
  let given := default {| isAppend := true; removedCount := 0 |} _options in
  let direction := isUndefined _addItems || isAppend given in
  let cycle :=
    {| isAppend := direction; removedCount := removedCount given |} in
  let handed := if direction then _addItems else reverse <$> _addItems in
  let batch :=
    default []
      ((λ a, layoutItems_addItems isRelayout a cycle (options s)
               (layoutManager s)) <$> handed) in
  let s' := fire (nextId (sched s))
              (layout isRelayout _addItems _options s) in
  ∃ distance,
    events s'
    = events s
        ++ [EvLayoutComplete batch direction distance (removedCount given)]
    ∧ (direction = true → distance = 0)
    ∧ isProcessing s' = false
    ∧ pending (sched s') = pending (sched s)
    ∧ height (style (el s')) = Some (getLogicalHeight (layoutManager s')).
Proof.
  intros Hfresh given direction cycle handed batch s'. subst s'.
  destruct (layout_pending isRelayout _addItems _options s)
    as (w & opts & Hp & _ & Hrem & Hdir).
  destruct (layout_frame isRelayout _addItems _options s)
    as (Hev & _ & Hmgr & Hopt & _ & _ & Hflag & _).
  fold given in Hrem, Hdir. fold direction in Hdir.
  assert (Hcycle : opts = cycle)
    by (subst cycle; destruct opts; cbn in Hrem, Hdir; by subst).
  destruct (find_fresh_handle w
              (CbLayout isRelayout
                 (if isAppend opts then _addItems else reverse <$> _addItems)
                 opts) s Hfresh) as [Hfind Hrest].
  unfold fire. rewrite Hp, Hfind. cbn [runCallback].
  unfold _onLayoutComplete.
  set (s1 := clearTimeout _ _).
  assert (Hs1 : isProcessing s1 = true ∧ events s1 = events s
                ∧ pending (sched s1) = pending (sched s)
                ∧ layoutManager s1 = layoutManager s
                ∧ options s1 = options s).
  { subst s1. unfold clearTimeout. cbn. by rewrite Hp, Hrest, Hev, Hmgr, Hopt. }
  destruct Hs1 as (Hflag1 & Hev1 & Hq1 & Hmgr1 & Hopt1). clearbody s1.
  cbn zeta. rewrite Hmgr1, Hopt1.
  match goal with
  | |- context [_postLayout ?a ?b ?c ?x] =>
      destruct (_postLayout_events a b c x)
        as (Hpost & Hidle & Hq & Hlm & _ & Hheight & _); [done |]
  end.
  cbn zeta in Hpost, Hidle, Hq, Hlm, Hheight.
  rewrite Hpost, Hidle, Hq, Hlm, Hheight. cbn [events sched
    set_layoutManager layoutManager].
  rewrite Hev1, Hq1, Hcycle. subst batch handed. cbn [isAppend removedCount].
  eexists. split_and!; [reflexivity | | done | done | done].
  intros Hd. subst cycle. cbn [isAppend]. by rewrite Hd.
Qed.

Lemma _insert_events (paramElements : list Element) groupKey isAppend s :
  events (_insert paramElements groupKey isAppend s).2 = events s.
Proof.
  destruct (isProcessing s) eqn:Hidle;
    [by rewrite _insert_rejected by (by left) |].
  destruct paramElements as [| v l] eqn:Hp;
    [by rewrite _insert_rejected by (by right) |].
  rewrite <- Hp. assert (Hne : paramElements ≠ []) by (by subst).
  clear Hp. rewrite _insert_accepted by done.
  set (accepted := List.filter tagAccepted paramElements).
  destruct (_adjustRange_state isAppend accepted (staged paramElements s))
    as (_ & _ & _ & Hev & _).
  destruct (staged_frame paramElements s) as (_ & _ & _ & _ & Hev0 & _).
  destruct ((_adjustRange isAppend accepted (staged paramElements s)).1.1);
    cbn [snd].
  - match goal with
    | |- context [layout ?a ?b ?c ?x] =>
        destruct (layout_frame a b c x) as (-> & _)
    end.
    cbn [events set_el]. by rewrite Hev.
  - by rewrite Hev.
Qed.

(** The handler triggers at most one event, and then [append] or
    [prepend]. *)
Lemma _onScroll_events rect s :
  events (_onScroll rect s) = events s
  ∨ ∃ y, events (_onScroll rect s) = events s ++ [EvAppend y]
         ∨ events (_onScroll rect s) = events s ++ [EvPrepend y].
Proof.
  unfold _onScroll, _fitItems.
  repeat (case_match; simplify_eq; cbn in * );
    first [by left | right; eexists; by left | right; eexists; by right].
Qed.

Lemma completions_app (l1 l2 : list Event) :
  completions (l1 ++ l2) = completions l1 ++ completions l2.
Proof. apply List.filter_app. Qed.

Lemma resizeCallback_events s : events (resizeCallback s) = events s.
Proof.
  unfold resizeCallback.
  destruct (isNeededResize (el s) (layoutManager s)); [| done].
  cbn [events set_status set_timer].
  by destruct (layout_frame true None None (_resizeViewport s)) as (-> & _).
Qed.

Lemma _onResize_events s : events (_onResize s) = events s.
Proof.
  unfold _onResize.
  destruct (handleTruthy (resize (_timer s))); [| done].
  by destruct (resize (_timer s)).
Qed.

(** X6.  An instance whose processing flag is clear triggers no
    [layoutComplete], whatever happens to it next: a call, a viewport
    signal, or a callback from the scheduler, the callback of a cycle that
    was cut short by [clear()] included. *)
Theorem idle_instance_triggers_no_layoutComplete
    (op : Op (LMStatus:=LMStatus)) s :
  isProcessing s = false →
  completions (events (step op s)) = completions (events s).
Proof.
  intros Hidle. destruct op; cbn [step].
  - unfold append. by rewrite _insert_events.
  - unfold prepend. by rewrite _insert_events.
  - by destruct (layout_frame isRelayout None None s) as (-> & _).
  - done.
  - unfold remove. by destruct (removeItem _ _).
  - unfold setStatus. repeat case_match; done.
  - done.
  - replace (attached (scrollTo y s)) with (attached s) by done.
    destruct (attached s); [| done].
    destruct (_onScroll_events rect (scrollTo y s)) as [-> | [z [-> | ->]]];
      [done | |]; rewrite completions_app; cbn; by rewrite app_nil_r.
  - match goal with
    | |- context [if attached ?x then _ else _] => destruct (attached x)
    end; [| done].
    by rewrite _onResize_events.
  - unfold fire.
    destruct (List.find _ _) as [[[i w] cb] |]; [| done].
    destruct cb as [isRelayout addItems opts |]; cbn [runCallback].
    + by rewrite _onLayoutComplete_idle.
    + by rewrite resizeCallback_events.
  - case_bool_decide; [| done]. unfold doubleCheckTick.
    destruct (scrollY (view s) =? 0); [| done].
    destruct (_ <=? 0); [destruct (doubleCheck (_timer _)) |]; cbn;
      rewrite completions_app; cbn; by rewrite app_nil_r.
Qed.

(** X7.  The completion of an append-direction cycle reports distance 0
    and the cropped count it was given, clears the flag, makes the
    container as tall as the layout manager says and refreshes the two
    cached edge elements from the window; it moves neither the viewport
    nor the remembered offset, and it leaves the scheduler alone. *)
Theorem postLayout_append_leaves_the_viewport
    (isRelayout : bool) (addItems : option (list Item))
    (opts : LayoutOptions) s :
  isProcessing s = true →
  isAppend opts = true →
  let s' := _postLayout isRelayout addItems opts s in
  events s'
  = events s ++ [EvLayoutComplete (default [] addItems) true 0
                   (removedCount opts)]
  ∧ isProcessing s' = false
  ∧ view s' = view s
  ∧ prevScrollTop (_status s') = prevScrollTop (_status s)
  ∧ sched s' = sched s
  ∧ height (style (el s')) = Some (getLogicalHeight (layoutManager s))
  ∧ topElement (_status s') = getTopElement s
  ∧ bottomElement (_status s') = getBottomElement s
  ∧ doubleCheckCount (_timer s') = RETRY.
Proof.
  intros Hp Hdir. cbn zeta. unfold _postLayout. by rewrite Hp, Hdir.
Qed.

(** *** The scroll handler, the other branches *)

Lemma _onScroll_down rect s (ele : Element) :
  isProcessing s = false →
  IS_IOS && (scrollY (view s) =? 0) = false →
  prevScrollTop (_status s) < scrollY (view s) →
  bottomEdge s = Some ele →
  let s' := _onScroll rect s in
  events s'
  = events s
      ++ (if rect_top (rect ele)
             <=? clientHeight (_status s) + threshold (options s)
          then [EvAppend (scrollY (view s))] else [])
  ∧ prevScrollTop (_status s') = scrollY (view s)
  ∧ bottomElement (_status s') = Some ele
  ∧ view s' = view s
  ∧ el s' = el s
  ∧ layoutManager s' = layoutManager s.
Proof.
  intros Hidle Hios Hdown Hedge. cbn zeta.
  unfold _onScroll. rewrite Hidle, Hios. cbn [orb].
  destruct (Z.eqb_spec (prevScrollTop (_status s)) (scrollY (view s)));
    [lia |].
  destruct (Z.ltb_spec (prevScrollTop (_status s)) (scrollY (view s)));
    [| lia].
  unfold bottomEdge in Hedge.
  destruct (isEmptyObject (bottomElement (_status s))); cbn;
    rewrite Hedge; cbn; case_match; cbn; by rewrite ?app_nil_r.
Qed.

(** X8.  An idle instance receives a scroll signal that moved down and has
    a bottom edge element.  The handler triggers [append] with the raw
    offset exactly when the top of that element is no farther below the
    viewport than the threshold, and in either case remembers the offset;
    it does not run [fit], does not move the viewport, and leaves the
    container and the layout manager alone. *)
Theorem onScroll_append_within_threshold rect s (ele : Element) :
  isProcessing s = false →
  IS_IOS && (scrollY (view s) =? 0) = false →
  prevScrollTop (_status s) < scrollY (view s) →
  bottomEdge s = Some ele →
  let s' := _onScroll rect s in
  events s'
  = events s
      ++ (if rect_top (rect ele)
             <=? clientHeight (_status s) + threshold (options s)
          then [EvAppend (scrollY (view s))] else [])
  ∧ prevScrollTop (_status s') = scrollY (view s)
  ∧ bottomElement (_status s') = Some ele
  ∧ view s' = view s
  ∧ el s' = el s
  ∧ layoutManager s' = layoutManager s.
Proof. apply _onScroll_down. Qed.

(** X9.  On an instance that has no edge element on the side the scroll
    moved toward (an empty window), the handler does nothing at all: no
    event, and the offset is not remembered either. *)
Theorem onScroll_without_edge_is_a_noop rect s :
  (prevScrollTop (_status s) < scrollY (view s) ∧ bottomEdge s = None)
  ∨ (scrollY (view s) < prevScrollTop (_status s) ∧ topEdge s = None) →
  _onScroll rect s = s.
Proof.
  intros Hcase. unfold _onScroll.
  destruct (isProcessing s); [done |].
  destruct (_ || _); [done |].
  destruct s as [o c m st tm v a e q ev].
  destruct st as [pr rc prev top bottom ch].
  unfold bottomEdge, topEdge, getBottomElement, getTopElement in *.
  cbn in *.
  destruct Hcase as [[Hdown Hedge] | [Hup Hedge]].
  - destruct (Z.ltb_spec prev (scrollY v)); [| lia].
    destruct bottom; cbn in *; [done |]. by rewrite Hedge.
  - destruct (Z.ltb_spec prev (scrollY v)); [lia |].
    destruct top; cbn in *; [done |]. by rewrite Hedge.
Qed.

(** X10.  An idle instance receives a scroll signal that moved up while
    its top edge element is farther above the viewport than the threshold.
    The handler only remembers the offset: no [fit], no event, the
    viewport stays. *)
Theorem onScroll_up_beyond_threshold rect s (ele : Element) :
  isProcessing s = false →
  IS_IOS && (scrollY (view s) =? 0) = false →
  scrollY (view s) < prevScrollTop (_status s) →
  topEdge s = Some ele →
  rect_bottom (rect ele) < - threshold (options s) →
  let s' := _onScroll rect s in
  events s' = events s
  ∧ prevScrollTop (_status s') = scrollY (view s)
  ∧ layoutManager s' = layoutManager s
  ∧ view s' = view s
  ∧ el s' = el s.
Proof.
  intros Hidle Hios Hup Hedge Hfar. cbn zeta.
  unfold _onScroll. rewrite Hidle, Hios. cbn [orb].
  destruct (Z.eqb_spec (prevScrollTop (_status s)) (scrollY (view s)));
    [lia |].
  destruct (Z.ltb_spec (prevScrollTop (_status s)) (scrollY (view s)));
    [lia |].
  unfold topEdge in Hedge.
  destruct (isEmptyObject (topElement (_status s))); cbn;
    rewrite Hedge; cbn;
    (destruct (Z.leb_spec (- threshold (options s)) (rect_bottom (rect ele)));
     [lia | done]).
Qed.

Lemma _onScroll_frame rect s :
  let s' := _onScroll rect s in
  sched s' = sched s
  ∧ _timer s' = _timer s
  ∧ isProcessing s' = isProcessing s
  ∧ isRecycling s' = isRecycling s
  ∧ options s' = options s
  ∧ children (el s') = children (el s)
  ∧ (events s' = events s
     ∨ ∃ y, events s' = events s ++ [EvAppend y]
            ∨ events s' = events s ++ [EvPrepend y]).
Proof.
  cbn zeta. split_and!; [apply _onScroll_sched | | | | | |
                         apply _onScroll_events];
    unfold _onScroll, _fitItems, isProcessing, isRecycling;
    repeat (case_match; simplify_eq; cbn in * ); done.
Qed.

(** X11.  Whatever the signal and the state, the scroll handler starts no
    layout cycle and sets no timer, does not touch the processing flag,
    the options or the children of the container, and triggers at most
    one event, which is [append] or [prepend]. *)
Theorem onScroll_only_requests rect s :
  let s' := _onScroll rect s in
  sched s' = sched s
  ∧ _timer s' = _timer s
  ∧ isProcessing s' = isProcessing s
  ∧ isRecycling s' = isRecycling s
  ∧ options s' = options s
  ∧ children (el s') = children (el s)
  ∧ (events s' = events s
     ∨ ∃ y, events s' = events s ++ [EvAppend y]
            ∨ events s' = events s ++ [EvPrepend y]).
Proof. apply _onScroll_frame. Qed.

(** *** Resize *)

Lemma resizeCallbacks_none (l : list (nat * Wait * Callback)) :
  (∀ e, In e l → e.2 = CbResize → False) →
  List.filter
    (λ e, match e.2 with CbResize => true | CbLayout _ _ _ => false end) l
  = [].
Proof.
  intros Hnone. induction l as [| e l IH]; cbn; [done |].
  destruct (e.2) eqn:He.
  - apply IH. intros e' He'. apply Hnone. by right.
  - exfalso. by apply (Hnone e); [left |].
Qed.

(** One resize signal: whatever resize callback was pending is replaced by
    a new one, under the handle the instance now holds. *)
Lemma _onResize_replaces s :
  resizeDebounced s →
  resizeCallbacks (_onResize s) = [(nextId (sched s), ByTimeout 100, CbResize)]
  ∧ resize (_timer (_onResize s)) = Some (nextId (sched s))
  ∧ nextId (sched (_onResize s)) = S (nextId (sched s)).
Proof.
  intros [Hpos Hheld]. unfold _onResize, resizeCallbacks in *.
  assert (Hgone :
    ∀ l, (∀ e, In e l → e.2 = CbResize → False) →
         List.filter
           (λ e, match e.2 with CbResize => true | CbLayout _ _ _ => false end)
           (l ++ [(nextId (sched s), ByTimeout 100, CbResize)])
         = [(nextId (sched s), ByTimeout 100, CbResize)]).
  { intros l Hl. by rewrite List.filter_app, resizeCallbacks_none. }
  destruct (handleTruthy (resize (_timer s))) eqn:Htruthy.
  - destruct (resize (_timer s)) as [id |] eqn:Hh; [| done]. cbn.
    split_and!; [| done | done]. apply Hgone.
    intros e [He Hid]%filter_In Hcb.
    apply negb_true_iff, bool_decide_eq_false in Hid.
    destruct (Hheld e) as [Hsame _]; [| congruence].
    apply filter_In. split; [done |]. by rewrite Hcb.
  - cbn. split_and!; [| done | done]. apply Hgone.
    intros e He Hcb.
    destruct (Hheld e) as [Hsame Hone];
      [apply filter_In; split; [done | by rewrite Hcb] |].
    rewrite Hsame in Htruthy. cbn in Htruthy.
    destruct (e.1.1); [lia | done].
Qed.

Lemma _onResize_debounced s :
  resizeDebounced s → resizeDebounced (_onResize s).
Proof.
  intros Hd. destruct (_onResize_replaces s Hd) as (Hcbs & Hh & Hnext).
  destruct Hd as [Hpos _]. split; [lia |].
  intros e He. rewrite Hcbs in He. destruct He as [<- | []].
  cbn. split; [done | lia].
Qed.

Lemma resize_signals_step (h : Z) (cols : nat) s :
  attached s = true →
  resizeDebounced s →
  attached (step (OpResize (LMStatus:=LMStatus) h cols) s) = true
  ∧ resizeDebounced (step (OpResize (LMStatus:=LMStatus) h cols) s)
  ∧ length (resizeCallbacks (step (OpResize (LMStatus:=LMStatus) h cols) s))
    = 1%nat.
Proof.
  intros Ha Hd. cbn [step].
  match goal with
  | |- context [if attached ?x then _ else _] =>
      replace (attached x) with true by done;
      assert (Hx : resizeDebounced x) by done;
      destruct (_onResize_replaces x Hx) as (Hcbs & _);
      pose proof (_onResize_debounced x Hx) as Hd';
      assert (Ha' : attached (_onResize x) = true)
  end.
  { unfold _onResize. destruct (handleTruthy _); [| done].
    by destruct (resize (_timer _)). }
  split_and!; [done | done | by rewrite Hcbs].
Qed.

(** X12.  Resize signals are debounced: on an attached instance whose
    timer bookkeeping is in order, after any number of resize signals in a
    row, one at least, exactly one resize callback is pending, and the
    bookkeeping is in order again. *)
Theorem resize_signals_leave_one_callback (sizes : list (Z * nat)) s :
  attached s = true →
  resizeDebounced s →
  sizes ≠ [] →
  let s' := run ((λ hc, OpResize hc.1 hc.2) <$> sizes) s in
  length (resizeCallbacks s') = 1%nat
  ∧ resizeDebounced s'
  ∧ attached s' = true.
Proof.
  revert s. induction sizes as [| [h cols] sizes IH]; intros s Ha Hd Hne;
    [done |].
  cbn [fmap list_fmap fst snd]. rewrite run_cons.
  destruct (resize_signals_step h cols s Ha Hd) as (Ha1 & Hd1 & Hone).
  destruct sizes as [| hc sizes]; [done |].
  by apply IH.
Qed.

(** The constructor leaves the bookkeeping in order. *)
Lemma constructor_resizeDebounced (c : Container) (o : POptions) (w : View) :
  resizeDebounced (constructor c o w) ∧ attached (constructor c o w) = true.
Proof.
  unfold constructor, resizeDebounced, resizeCallbacks.
  destruct (0 <? length (children c))%nat; cbn.
  - unfold layout, _waitResource.
    destruct (0 <? length (checkImageLoaded _))%nat; cbn;
      (split; [split; [lia | by intros e []] | done]).
  - split; [split; [lia | by intros e []] | done].
Qed.

(** X13.  The resize callback forgets the remembered offset: it leaves
    the resize handle null and [prevScrollTop] at -1.  On an idle instance
    on which it starts no relayout and whose window has a bottom edge
    element, the next scroll signal at an offset from 0 on, other than
    offset 0 on iOS, is therefore not taken for "unchanged", not even at
    the very offset that was remembered before: it is evaluated against
    the bottom edge, triggers [append] exactly when that edge is within
    the threshold, and is remembered. *)
Theorem scroll_after_resize_is_evaluated rect s (y : Z) (ele : Element) :
  isProcessing s = false →
  isNeededResize (el s) (layoutManager s) = false →
  0 ≤ y →
  IS_IOS && (y =? 0) = false →
  bottomEdge s = Some ele →
  let s1 := resizeCallback s in
  let s' := _onScroll rect (scrollTo y s1) in
  resize (_timer s1) = None
  ∧ prevScrollTop (_status s1) = -1
  ∧ events s'
    = events s
        ++ (if rect_top (rect ele)
               <=? clientHeight (_status s) + threshold (options s)
            then [EvAppend y] else [])
  ∧ prevScrollTop (_status s') = y.
Proof.
  intros Hidle Hsame Hy Hios Hedge s1 s'. subst s1 s'.
  unfold resizeCallback. rewrite Hsame.
  split_and!; [done | done | |];
    match goal with
    | |- context [_onScroll rect ?x] =>
        destruct (_onScroll_down rect x ele) as (Hev & Hprev & _);
        [done | done | cbn; lia | done |]
    end; cbn zeta in Hev, Hprev; [by rewrite Hev | by rewrite Hprev].
Qed.

(** *** Reset, clear, destroy *)

Lemma detached_signal (op : Op (LMStatus:=LMStatus)) s :
  attached s = false →
  isSignal op = true →
  attached (step op s) = false
  ∧ events (step op s) = events s
  ∧ sched (step op s) = sched s
  ∧ _status (step op s) = _status s
  ∧ _timer (step op s) = _timer s
  ∧ layoutManager (step op s) = layoutManager s
  ∧ children (el (step op s)) = children (el s).
Proof.
  intros Ha Hsig. destruct op; try done; cbn [step].
  - replace (attached (scrollTo y s)) with false by done. done.
  - match goal with
    | |- context [if attached ?x then _ else _] =>
        replace (attached x) with false by done
    end. done.
Qed.

(** X14.  After [destroy()] no viewport signal reaches a handler: however
    many scroll and resize signals follow, no event is triggered, nothing
    is scheduled, and flags, timers, window and children stay as
    [destroy()] left them. *)
Theorem destroyed_instance_ignores_signals
    (signals : list (Op (LMStatus:=LMStatus))) s :
  Forall (λ op, isSignal op = true) signals →
  let s' := run signals (destroy s) in
  attached s' = false
  ∧ events s' = events s
  ∧ sched s' = sched s
  ∧ _status s' = _status (destroy s)
  ∧ _timer s' = _timer (destroy s)
  ∧ layoutManager s' = layoutManager (destroy s)
  ∧ children (el s') = children (el s).
Proof.
  intros Hsig. cbn zeta.
  assert (Hgen : ∀ t, attached t = false →
            attached (run signals t) = false
            ∧ events (run signals t) = events t
            ∧ sched (run signals t) = sched t
            ∧ _status (run signals t) = _status t
            ∧ _timer (run signals t) = _timer t
            ∧ layoutManager (run signals t) = layoutManager t
            ∧ children (el (run signals t)) = children (el t)).
  { induction Hsig as [| op signals Hop Hsig IH]; intros t Ht; [done |].
    rewrite run_cons.
    destruct (detached_signal op t Ht Hop)
      as (Ha & <- & <- & <- & <- & <- & <-).
    by apply IH. }
  destruct (Hgen (destroy s)) as (Ha & -> & -> & -> & -> & -> & ->); done.
Qed.


Lemma isRecycling_layout isRelayout _addItems _options s :
  isRecycling (layout isRelayout _addItems _options s) = isRecycling s.
Proof.
  unfold layout, _waitResource.
  by destruct (0 <? length (checkImageLoaded _))%nat.
Qed.

Lemma isRecycling__postLayout isRelayout addItems opts s :
  isRecycling (_postLayout isRelayout addItems opts s) = isRecycling s.
Proof.
  unfold _postLayout. destruct (negb (isProcessing s)); [done |].
  destruct (isAppend opts); cbn [negb andb]; [done |].
  unfold isRecycling.
  match goal with
  | |- context [_doubleCheckForPrepend ?x] =>
      destruct (_doubleCheckForPrepend_frame x) as (_ & _ & -> & _ & _ & ->)
  end.
  match goal with
  | |- context [if 0 <? ?d then _ else _] => by destruct (0 <? d)
  end.
Qed.

Lemma isRecycling__insert (paramElements : list Element) groupKey isAppend s :
  isRecycling s = true →
  isRecycling (_insert paramElements groupKey isAppend s).2 = true.
Proof.
  intros Hr.
  destruct (isProcessing s) eqn:Hidle;
    [by rewrite _insert_rejected by (by left) |].
  destruct paramElements as [| v l] eqn:Hp;
    [by rewrite _insert_rejected by (by right) |].
  rewrite <- Hp. assert (Hne : paramElements ≠ []) by (by subst).
  clear Hp. rewrite _insert_accepted by done.
  set (accepted := List.filter tagAccepted paramElements).
  pose proof (staged_recycling paramElements s) as Hst.
  rewrite Hr in Hst. cbn [orb] in Hst.
  destruct (_adjustRange_state isAppend accepted (staged paramElements s))
    as (Ho & Hs & _).
  assert (Hr2 : isRecycling
                  (_adjustRange isAppend accepted (staged paramElements s)).2
                = true)
    by (unfold isRecycling in *; by rewrite Ho, Hs).
  destruct ((_adjustRange isAppend accepted (staged paramElements s)).1.1);
    cbn [snd]; [| done].
  by rewrite isRecycling_layout.
Qed.

(** X16.  Recycling is a latch: once [isRecycling()] answers true, it
    keeps doing so through every insertion, layout, viewport signal and
    callback; only [clear()], [destroy()] and [setStatus()] can turn it
    off. *)
Theorem recycling_stays_on (op : Op (LMStatus:=LMStatus)) s :
  resetsStatus op = false →
  isRecycling s = true →
  isRecycling (step op s) = true.
Proof.
  intros Hop Hr. destruct op; try done; cbn [step].
  - by apply isRecycling__insert.
  - by apply isRecycling__insert.
  - by rewrite isRecycling_layout.
  - unfold remove. by destruct (removeItem _ _).
  - replace (attached (scrollTo y s)) with (attached s) by done.
    destruct (attached s); [| done].
    by destruct (_onScroll_frame rect (scrollTo y s)) as (_ & _ & _ & -> & _).
  - match goal with
    | |- context [if attached ?x then _ else _] => destruct (attached x)
    end; [| done].
    unfold _onResize. destruct (handleTruthy _); [| done].
    by destruct (resize (_timer _)).
  - unfold fire.
    destruct (List.find _ _) as [[[i w] cb] |]; [| done].
    destruct cb as [isRelayout addItems opts |]; cbn [runCallback].
    + unfold _onLayoutComplete. by rewrite isRecycling__postLayout.
    + unfold resizeCallback.
      destruct (isNeededResize _ _); [| done].
      replace (isRecycling (set_status _ (set_timer _ ?[x])))
        with (isRecycling (layout true None None
                (_resizeViewport (clearTimeout (Some id) s)))) by done.
      by rewrite isRecycling_layout.
  - case_bool_decide; [| done]. unfold doubleCheckTick.
    destruct (scrollY (view s) =? 0); [| done].
    destruct (_ <=? 0); [| done]. by destruct (doubleCheck (_timer _)).
Qed.

(** *** Snapshot, construction, the tag test *)

(** X17.  [setStatus] on an accepted snapshot of [getStatus] copies the
    transient flags with the rest: the receiving instance is processing
    exactly if the original was, recycles exactly if it did, and remembers
    the same offset and viewport height; but its scheduler, its timers and
    its event log are its own, so a snapshot taken while a cycle was in
    flight restores a set flag without the callback that would clear it.
    The cached edges are the ones of the restored layout manager. *)
Theorem setStatus_restores_flags_not_callbacks s t :
  children (el s) ≠ [] →
  cssIsEmpty (style (el s)) = false →
  let t' := setStatus (Some (getStatus s)) t in
  isProcessing t' = isProcessing s
  ∧ isRecycling t' = isRecycling s
  ∧ prevScrollTop (_status t') = prevScrollTop (_status s)
  ∧ clientHeight (_status t') = clientHeight (_status s)
  ∧ options t' = options s
  ∧ children (el t') = children (el s)
  ∧ style (el t') = style (el s)
  ∧ sched t' = sched t
  ∧ _timer t' = _timer t
  ∧ events t' = events t
  ∧ topElement (_status t') = getTopElement t'
  ∧ bottomElement (_status t') = getBottomElement t'.
Proof.
  intros Hhtml Hcss. cbn zeta.
  unfold setStatus, getStatus. cbn [snap_options prop snap_layoutManager html
                                     cssText htmlFalsy cssTextFalsy].
  rewrite Hcss. rewrite bool_decide_eq_false_2 by done. cbn [orb].
  unfold isProcessing, isRecycling.
  destruct s as [o c m st tm v a e q ev]. destruct o, st. cbn. done.
Qed.

(** X18.  A fresh instance is attached to the viewport, has triggered
    nothing, holds the defaults overridden by the options given, and knows
    the height of the viewport.  Over an empty container it is idle with
    nothing pending; over existing markup it is processing, with one cycle
    in flight: a relayout in the append direction of the children itemized
    under [defaultGroupKey]. *)
Theorem constructor_starts_first_layout
    (c : Container) (o : POptions) (w : View) :
  let s := constructor c o w in
  attached s = true
  ∧ events s = []
  ∧ options s = assignOptions defaultOptions o
  ∧ clientHeight (_status s) = innerHeight w
  ∧ isRecycling s = false
  ∧ intervals (sched s) = ∅
  ∧ (children c = [] → isProcessing s = false ∧ pending (sched s) = [])
  ∧ (children c ≠ [] →
     isProcessing s = true
     ∧ ∃ wait,
         pending (sched s)
         = [(1%nat, wait,
             CbLayout true
               (Some (itemize (children c) (defaultGroupKey (options s))))
               {| isAppend := true; removedCount := 0 |})]).
Proof.
  cbn zeta. unfold constructor.
  destruct (children c) as [| v l] eqn:Hc; cbn [length Nat.ltb Nat.leb].
  - unfold isRecycling. cbn. rewrite andb_false_r.
    split_and!; done.
  - unfold isRecycling, layout, _waitResource.
    destruct (0 <? length (checkImageLoaded _))%nat; cbn;
      rewrite andb_false_r; split_and!; try done; intros _;
      (split; [done | by eexists]).
Qed.

(** X19.  The tag test of [_prepareElement] is a search: an element is
    accepted exactly when [DIV], [SPAN] or [LI] occurs somewhere in its tag
    name. *)
Theorem tagAccepted_iff_name_contains (v : Element) :
  tagAccepted v = true
  ↔ ∃ pre lit post,
      (lit = "DIV" ∨ lit = "SPAN" ∨ lit = "LI")
      ∧ tagName v = String.append pre (String.append lit post).
Proof.
  unfold tagAccepted. rewrite !orb_true_iff, !includes_spec. split.
  - intros [[(pre & post & H) | (pre & post & H)] | (pre & post & H)];
      eexists pre, _, post; (split; [| exact H]); auto.
  - intros (pre & lit & post & [-> | [-> | ->]] & H); eauto.
Qed.

(** X20.  The guard of [setStatus] takes an empty string for a missing
    field: a snapshot whose markup or whose inline style is empty is
    rejected whole.  So the snapshot [getStatus] takes of an instance over
    an empty container, or over a container without inline style, cannot
    be restored: [setStatus] leaves the receiving instance as it was. *)
Theorem setStatus_rejects_empty_strings (st : Snapshot LMStatus) s t :
  (htmlFalsy (html st) = true ∨ cssTextFalsy (cssText st) = true →
   setStatus (Some st) t = t)
  ∧ (children (el s) = [] ∨ cssIsEmpty (style (el s)) = true →
     setStatus (Some (getStatus s)) t = t).
Proof.
  split.
  - intros Hfalsy. unfold setStatus.
    destruct (snap_options st), (prop st), (snap_layoutManager st),
      (html st) as [h |], (cssText st) as [c |]; try done.
    destruct Hfalsy as [-> | ->]; [done | by rewrite orb_true_r].
  - intros Hempty. unfold setStatus, getStatus.
    cbn [snap_options prop snap_layoutManager html cssText htmlFalsy
         cssTextFalsy].
    destruct Hempty as [-> | ->]; [done | by rewrite orb_true_r].
Qed.

(** *** The poll, one at a time *)

Lemma _insert_timer_sched (paramElements : list Element) groupKey isAppend s :
  _timer (_insert paramElements groupKey isAppend s).2 = _timer s.
Proof.
  destruct (isProcessing s) eqn:Hidle;
    [by rewrite _insert_rejected by (by left) |].
  destruct paramElements as [| v l] eqn:Hp;
    [by rewrite _insert_rejected by (by right) |].
  rewrite <- Hp. assert (Hne : paramElements ≠ []) by (by subst).
  clear Hp. rewrite _insert_accepted by done.
  set (accepted := List.filter tagAccepted paramElements).
  destruct (_adjustRange_state isAppend accepted (staged paramElements s))
    as (_ & _ & _ & _ & _ & Htm).
  destruct (staged_frame paramElements s) as (_ & _ & _ & _ & _ & _ & Htm0 & _).
  destruct ((_adjustRange isAppend accepted (staged paramElements s)).1.1);
    cbn [snd].
  - match goal with
    | |- context [layout ?a ?b ?c ?x] =>
        destruct (layout_frame a b c x) as (_ & _ & _ & _ & _ & -> & _)
    end.
    cbn [_timer set_el]. by rewrite Htm.
  - by rewrite Htm.
Qed.

Lemma onePoll_same s s' :
  intervals (sched s') = intervals (sched s) →
  doubleCheck (_timer s') = doubleCheck (_timer s) →
  onePoll s → onePoll s'.
Proof. unfold onePoll. intros -> ->. done. Qed.

Lemma onePoll__doubleCheckForPrepend s :
  onePoll s → onePoll (_doubleCheckForPrepend s).
Proof.
  unfold onePoll, _doubleCheckForPrepend. intros Hone id.
  destruct (scrollY (view s) =? 0); [| apply Hone].
  destruct (doubleCheck (_timer s)) as [h |] eqn:Hh; cbn.
  - intros [->%elem_of_singleton | [Hid Hne]%elem_of_difference]%elem_of_union;
      [done |].
    specialize (Hone id Hid). simplify_eq. exfalso. apply Hne.
    by apply elem_of_singleton.
  - intros [->%elem_of_singleton | Hid]%elem_of_union; [done |].
    by specialize (Hone id Hid).
Qed.

Lemma onePoll__postLayout isRelayout addItems opts s :
  onePoll s → onePoll (_postLayout isRelayout addItems opts s).
Proof.
  intros Hone. unfold _postLayout.
  destruct (negb (isProcessing s)); [done |].
  destruct (isAppend opts); cbn [negb andb]; [done |].
  apply onePoll__doubleCheckForPrepend.
  match goal with
  | |- context [if 0 <? ?d then _ else _] => by destruct (0 <? d)
  end.
Qed.

(** X21.  The instance holds the handle of every double-check poll that is
    live, so that at most one is live at a time, and this stays so through
    every call, signal and callback except [clear()] and [destroy()]: a
    prepend-direction completion clears the poll it replaces. *)
Theorem one_poll_at_a_time (op : Op (LMStatus:=LMStatus)) s :
  callsReset op = false →
  onePoll s →
  onePoll (step op s).
Proof.
  intros Hop Hone. destruct op; try done; cbn [step].
  - unfold append.
    apply (onePoll_same s); [apply _insert_intervals
                            | by rewrite _insert_timer_sched | done].
  - unfold prepend.
    apply (onePoll_same s); [apply _insert_intervals
                            | by rewrite _insert_timer_sched | done].
  - apply (onePoll_same s); [apply layout_intervals | | done].
    by destruct (layout_frame isRelayout None None s)
      as (_ & _ & _ & _ & _ & -> & _).
  - unfold remove. by destruct (removeItem _ _).
  - apply (onePoll_same s); [| | done];
      unfold setStatus; repeat case_match; done.
  - replace (attached (scrollTo y s)) with (attached s) by done.
    destruct (attached s); [| done].
    destruct (_onScroll_frame rect (scrollTo y s)) as (Hq & Htm & _).
    apply (onePoll_same s); [by rewrite Hq | by rewrite Htm | done].
  - match goal with
    | |- context [if attached ?x then _ else _] => destruct (attached x)
    end; [| done].
    apply (onePoll_same s); [by rewrite _onResize_intervals | | done].
    unfold _onResize. destruct (handleTruthy _); [| done].
    by destruct (resize (_timer _)).
  - unfold fire.
    destruct (List.find _ _) as [[[i w] cb] |]; [| done].
    destruct cb as [isRelayout addItems opts |]; cbn [runCallback].
    + unfold _onLayoutComplete. by apply onePoll__postLayout.
    + apply (onePoll_same s); [by rewrite resizeCallback_intervals | | done].
      unfold resizeCallback. destruct (isNeededResize _ _); [| done].
      cbn [_timer set_status set_timer set_resize doubleCheck].
      by destruct (layout_frame true None None
                     (_resizeViewport (clearTimeout (Some id) s)))
        as (_ & _ & _ & _ & _ & -> & _).
  - case_bool_decide as Hlive; [| done]. unfold doubleCheckTick.
    destruct (scrollY (view s) =? 0); [| done].
    destruct (_ <=? 0); [| done].
    specialize (Hone id Hlive) as Hh. intros id' Hid'.
    cbn in Hid' |- *. rewrite Hh in Hid' |- *. cbn in Hid'.
    apply elem_of_difference in Hid' as [Hid' Hne].
    specialize (Hone id' Hid'). by simplify_eq.
Qed.

(** *** What eviction does to the batch and to the container *)

Lemma indexOf_bounds (x : Element) (l : list Element) :
  -1 ≤ indexOf x l < Z.of_nat (length l).
Proof.
  induction l as [| y l IH]; cbn [indexOf length]; [lia |].
  destruct (decide (y = x)); [lia |].
  destruct (Z.eqb_spec (indexOf x l) (-1)); lia.
Qed.

Lemma indexOf_missing_iff (x : Element) (l : list Element) :
  indexOf x l = -1 ↔ x ∉ l.
Proof.
  induction l as [| y l IH]; cbn [indexOf].
  - split; [intros _; apply not_elem_of_nil | done].
  - pose proof (indexOf_bounds x l) as Hb.
    destruct (decide (y = x)) as [-> | Hy].
    + split; [done | intros Hx; exfalso; apply Hx; by left].
    + destruct (Z.eqb_spec (indexOf x l) (-1)) as [Hi | Hi].
      * split; [| done]. intros _. apply not_elem_of_cons.
        split; [done | by apply IH].
      * split; [lia |]. intros [_ Hx]%not_elem_of_cons. by apply IH in Hx.
Qed.

Lemma splice_single {A} (i : Z) (l : list A) :
  0 ≤ i < Z.of_nat (length l) →
  (splice i (Some 1) l).2
  = take (Z.to_nat i) l ++ drop (S (Z.to_nat i)) l.
Proof.
  intros Hi. unfold splice. cbn [snd].
  destruct (Z.ltb_spec i 0); [lia |].
  replace (i `min` Z.of_nat (length l)) with i by lia.
  replace ((1 `max` 0) `min` (Z.of_nat (length l) - i)) with 1 by lia.
  by replace (Z.to_nat (i + 1)) with (S (Z.to_nat i)) by lia.
Qed.

(** [splice(indexOf(x), 1)] takes [x] out of an array in which it occurs
    once. *)
Lemma splice_indexOf (x : Element) (l : list Element) :
  NoDup l →
  x ∈ l →
  (splice (indexOf x l) (Some 1) l).2
  = List.filter (λ y, negb (bool_decide (y = x))) l.
Proof.
  intros Hnd Hx.
  assert (Hi : 0 ≤ indexOf x l < Z.of_nat (length l)).
  { pose proof (indexOf_bounds x l).
    assert (indexOf x l ≠ -1) by (by rewrite indexOf_missing_iff; intros ?).
    lia. }
  rewrite splice_single by done. clear Hi.
  induction l as [| y l IH]; [by apply elem_of_nil in Hx |].
  apply NoDup_cons in Hnd as [Hy Hnd]. cbn [indexOf List.filter].
  destruct (decide (y = x)) as [-> | Hne].
  - rewrite bool_decide_eq_true_2 by done. cbn.
    by rewrite filter_other_fresh.
  - rewrite bool_decide_eq_false_2 by done. cbn [negb].
    apply elem_of_cons in Hx as [-> | Hx]; [done |].
    pose proof (indexOf_bounds x l).
    assert (indexOf x l ≠ -1) by (by rewrite indexOf_missing_iff; intros ?).
    destruct (Z.eqb_spec (indexOf x l) (-1)); [done |].
    replace (Z.to_nat (indexOf x l + 1)) with (S (Z.to_nat (indexOf x l)))
      by lia.
    cbn [take drop app]. f_equal. by apply IH.
Qed.

Lemma filter_filter_ext {A} (f g h : A → bool) (l : list A) :
  (∀ x, In x l → g x && f x = h x) →
  List.filter f (List.filter g l) = List.filter h l.
Proof.
  intros Hext. induction l as [| x l IH]; cbn; [done |].
  rewrite <- (Hext x) by (by left).
  rewrite <- IH by (intros y Hy; apply Hext; by right).
  destruct (g x); cbn; [| done]. by destruct (f x).
Qed.

Lemma elem_of_filter_other (x v : Element) (l : list Element) :
  x ∈ List.filter (λ y, negb (bool_decide (y = v))) l ↔ x ≠ v ∧ x ∈ l.
Proof.
  rewrite !list_elem_of_In, filter_In, negb_true_iff, bool_decide_eq_false.
  tauto.
Qed.

Lemma NoDup_filter_other (x : Element) (l : list Element) :
  NoDup l → NoDup (List.filter (λ y, negb (bool_decide (y = x))) l).
Proof.
  intros Hnd. apply (sublist_NoDup _ l); [done |].
  clear Hnd. induction l as [| y l IH]; cbn; [constructor |].
  destruct (negb _); [by apply sublist_skip | by apply sublist_cons].
Qed.

(** X22.  The loop over the evicted items in [_adjustRange], the evicted
    elements being distinct and the batch without repeats: when every
    evicted element is in the batch or a child of the container, the loop
    returns; the batch has lost exactly the evicted elements it held, the
    container exactly the evicted elements that were not in the batch, and
    both keep the order of what stays.  An evicted element that is in the
    batch stays a child of the container when it was one. *)
Theorem eviction_releases_each_element (targets : list Item) :
  ∀ (elements : list Element) (c : Container),
    NoDup (i_el <$> targets) →
    NoDup elements →
    (∀ x, x ∈ i_el <$> targets → x ∈ elements ∨ x ∈ children c) →
    releaseTargets targets elements c
    = (Return (),
       List.filter (λ x, negb (bool_decide (x ∈ i_el <$> targets))) elements,
       set_children
         (List.filter (λ x, negb (leavesContainer targets elements x))
            (children c)) c).
Proof.
  induction targets as [| v targets IH]; intros elements c Hnd Hel Hall.
  - cbn [releaseTargets fmap list_fmap]. rewrite filter_notin_nil.
    f_equal. destruct c as [ch st cols]. unfold set_children. cbn. f_equal.
    unfold leavesContainer. cbn. clear.
    induction ch as [| x ch IHch]; cbn; [done |].
    rewrite bool_decide_eq_false_2 by apply not_elem_of_nil. cbn.
    by f_equal.
  - cbn [fmap list_fmap] in Hnd, Hall |- *.
    apply NoDup_cons in Hnd as [Hv Hnd]. cbn [releaseTargets].
    destruct (decide (i_el v ∈ elements)) as [Hin | Hout].
    + assert (Hidx : indexOf (i_el v) elements ≠ -1)
        by (by rewrite indexOf_missing_iff; intros ?).
      destruct (Z.eqb_spec (indexOf (i_el v) elements) (-1)); [done |].
      cbn [negb]. rewrite splice_indexOf by done.
      rewrite IH; [| done | by apply NoDup_filter_other |].
      * f_equal; [f_equal; apply filter_notin_cons |].
        f_equal. apply List.filter_ext_in. intros x Hx.
        unfold leavesContainer. cbn [fmap list_fmap]. f_equal.
        destruct (decide (x = i_el v)) as [-> | Hne].
        -- rewrite (bool_decide_eq_false_2 (i_el v ∈ i_el <$> targets))
             by done.
           rewrite (bool_decide_eq_true_2 (i_el v ∈ elements)) by done.
           cbn. by rewrite andb_false_r.
        -- rewrite (bool_decide_ext (x ∈ i_el v :: (i_el <$> targets))
                      (x ∈ i_el <$> targets))
             by (rewrite elem_of_cons; tauto).
           rewrite (bool_decide_ext (x ∈ List.filter _ elements)
                      (x ∈ elements))
             by (rewrite elem_of_filter_other; tauto).
           done.
      * intros x Hx. destruct (Hall x) as [Hxe | Hxc]; [by right | | by right].
        left. apply elem_of_filter_other. split; [by intros -> | done].
    + assert (Hidx : indexOf (i_el v) elements = -1)
        by (by apply indexOf_missing_iff).
      rewrite Hidx. cbn [Z.eqb negb Pos.eqb].
      destruct (Hall (i_el v)) as [? | Hchild]; [by left | done |].
      rewrite bool_decide_eq_true_2 by done.
      rewrite IH; [| done | done |].
      * f_equal; [f_equal |].
        -- apply List.filter_ext_in. intros x Hx. f_equal.
           apply bool_decide_ext. rewrite elem_of_cons.
           apply list_elem_of_In in Hx.
           split; [by right | intros [-> | ?]; done].
        -- unfold removeChild, set_children. cbn. f_equal.
           apply filter_filter_ext. intros x Hx. unfold leavesContainer.
           cbn [fmap list_fmap].
           destruct (decide (x = i_el v)) as [-> | Hne].
           ++ rewrite (bool_decide_eq_true_2 (i_el v = i_el v)) by done.
              rewrite (bool_decide_eq_true_2 (i_el v ∈ i_el v :: _))
                by (by left).
              by rewrite (bool_decide_eq_false_2 (i_el v ∈ elements)).
           ++ rewrite (bool_decide_eq_false_2 (x = i_el v)) by done.
              cbn [negb andb]. f_equal. f_equal.
              apply bool_decide_ext. rewrite elem_of_cons. tauto.
      * intros x Hx. destruct (Hall x) as [Hxe | Hxc];
          [by right | by left |].
        right. unfold removeChild. cbn.
        apply elem_of_filter_other. split; [by intros -> | done].
Qed.

(** X23.  The loop over the evicted items in [_adjustRange] throws as
    soon as one evicted element is neither in the batch nor a child of the
    container: such an element has no parent node ([clear()] emptied the
    container under it), and [v.el.parentNode.removeChild] is called on
    [null]. *)
Theorem eviction_of_detached_element_throws (targets : list Item) :
  ∀ (elements : list Element) (c : Container) (x : Element),
    NoDup (i_el <$> targets) →
    x ∈ i_el <$> targets →
    x ∉ elements →
    x ∉ children c →
    ∃ e, (releaseTargets targets elements c).1.1 = Throw e.
Proof.
  induction targets as [| v targets IH]; intros elements c x Hnd Hx Hxe Hxc;
    cbn [fmap list_fmap] in *; [by apply elem_of_nil in Hx |].
  apply NoDup_cons in Hnd as [Hv Hnd]. cbn [releaseTargets].
  destruct (negb (indexOf (i_el v) elements =? -1)) eqn:Hidx.
  - apply elem_of_cons in Hx as [-> | Hx].
    + apply negb_true_iff, Z.eqb_neq in Hidx.
      by rewrite indexOf_missing_iff in Hidx.
    + apply (IH _ _ x); [done | done | | done].
      intros Hin. apply Hxe.
      eapply elem_of_sublist; [done | apply splice_rest_sublist].
  - case_bool_decide as Hchild; [| by eexists].
    apply elem_of_cons in Hx as [-> | Hx]; [done |].
    apply (IH _ _ x); [done | done | done |].
    unfold removeChild. cbn. intros Hin. apply Hxc.
    by apply elem_of_filter_other in Hin as [_ Hin].
Qed.

(** *** Which end of an oversized batch is cut *)

Lemma trimElements_oversized isTop (elements : list Element) s :
  0 ≤ count (options s) ≤ Z.of_nat (length elements) →
  trimElements isTop elements s
  = (Z.of_nat (length elements) - count (options s),
     if isTop
     then drop (length elements - Z.to_nat (count (options s))) elements
     else take (Z.to_nat (count (options s))) elements).
Proof.
  intros Hc. unfold trimElements.
  destruct (Z.leb_spec (count (options s)) (Z.of_nat (length elements)));
    [| lia].
  destruct isTop; unfold splice; cbn [fst snd].
  - rewrite Z.ltb_irrefl.
    replace (0 `min` Z.of_nat (length elements)) with 0 by lia.
    rewrite Z.sub_0_r, Z.add_0_l. cbn [Z.to_nat take drop app].
    replace ((Z.of_nat (length elements) - count (options s)) `max` 0)
      with (Z.of_nat (length elements) - count (options s)) by lia.
    rewrite Z.min_l by lia.
    replace (Z.to_nat (Z.of_nat (length elements) - count (options s)))
      with (length elements - Z.to_nat (count (options s)))%nat by lia.
    change (Z.to_nat 0) with 0%nat. rewrite drop_0, take_0. cbn [app].
    f_equal. rewrite length_take. lia.
  - destruct (Z.ltb_spec (count (options s)) 0); [lia |].
    rewrite Z.min_l by lia.
    replace (count (options s)
             + (Z.of_nat (length elements) - count (options s)))
      with (Z.of_nat (length elements)) by lia.
    rewrite Nat2Z.id, drop_all, app_nil_r, length_take, length_drop.
    f_equal. lia.
Qed.

(** X24.  [_adjustRange] under recycling, given a batch of at least [count]
    elements: a batch headed for the bottom ([isTop] true, as [append]
    passes it) loses its leading elements and keeps its last [count],
    a batch headed for the top keeps its first [count].  What the call
    leaves of the batch is taken from that kept part; with an empty window
    it is exactly that part, the cut elements are the whole removed count
    and the instance is as before. *)
Theorem oversized_batch_is_trimmed (isTop : bool) (elements : list Element) s :
  isRecycling s = true →
  count (options s) ≤ Z.of_nat (length elements) →
  let kept :=
    if isTop
    then drop (length elements - Z.to_nat (count (options s))) elements
    else take (Z.to_nat (count (options s))) elements in
  sublist (_adjustRange isTop elements s).1.2 kept
  ∧ (items (layoutManager s) = [] →
     _adjustRange isTop elements s
     = (Return (Z.of_nat (length elements) - count (options s)), kept, s)).
Proof.
  intros Hr Hlen kept.
  assert (Hpos : 0 < count (options s)).
  { unfold isRecycling in Hr. apply andb_true_iff in Hr as [Hc _]. lia. }
  assert (Htrim : trimElements isTop elements s
                  = (Z.of_nat (length elements) - count (options s), kept))
    by (apply trimElements_oversized; lia).
  assert (Hkept : Z.of_nat (length kept) = count (options s)).
  { subst kept. destruct isTop; [rewrite length_drop | rewrite length_take];
      lia. }
  unfold _adjustRange, overflow. rewrite Hr, Htrim. cbn [negb fst snd].
  split.
  - destruct (_ || _); cbn [fst snd]; [done |].
    destruct (adjustItems _ _ _) as [targets m].
    pose proof (releaseTargets_sublist targets kept
                  (el (set_layoutManager m s))) as Hrel.
    destruct (releaseTargets _ _ _) as [[done' rest] c].
    by destruct done'.
  - intros Hempty. rewrite Hempty, Hkept. cbn [length].
    replace (Z.of_nat 0 + count (options s) - count (options s) <=? 0)
      with true by (symmetry; apply Z.leb_le; lia).
    cbn [orb]. by rewrite Z.add_0_l.
Qed.

End Coverage.

(** * The further properties at work *)

Section CoverageScenarios.
#[local] Existing Instance desktop.
#[local] Existing Instance imagesReady.

(** X1 at work: one card appended to a fresh instance. *)
Lemma insert_schedules_one_cycle_witness :
  isProcessing (grid 30) = false
  ∧ (append [card 1 "LI"] None (grid 30)).1 = Return 1
  ∧ isProcessing (append [card 1 "LI"] None (grid 30)).2 = true
  ∧ events (append [card 1 "LI"] None (grid 30)).2 = events (grid 30).
Proof.
  assert (Hidle : isProcessing (grid 30) = false) by (vm_compute; reflexivity).
  assert (Hne : [card 1 "LI"] ≠ []) by discriminate.
  assert (Hret : (_insert [card 1 "LI"] None true (grid 30)).1 = Return 1)
    by (vm_compute; reflexivity).
  destruct (insert_schedules_one_cycle [card 1 "LI"] None true (grid 30) 1
              Hidle Hne Hret) as (batch & removed & w & _ & _ & _ & Hp & He).
  split_and!; [exact Hidle | exact Hret | exact Hp | exact He].
Defined.

(** X2 at work: three cards for a grid of capacity 2. *)
Lemma insert_count_is_bounded_witness :
  (append threeCards None (grid 2)).1 = Return 2
  ∧ 2 ≤ count (options (grid 2)).
Proof.
  assert (Hret : (_insert threeCards None true (grid 2)).1 = Return 2)
    by (vm_compute; reflexivity).
  destruct (insert_count_is_bounded threeCards None true (grid 2) 2 Hret)
    as [_ Hcount].
  split; [exact Hret | apply Hcount; vm_compute; reflexivity].
Defined.

(** X3 at work: a third card prepended to two, capacity 30. *)
Lemma insert_below_capacity_removes_nothing_witness :
  isProcessing laidOut = false
  ∧ (prepend [card 3 "LI"] None laidOut).1 = Return 1
  ∧ layoutManager (prepend [card 3 "LI"] None laidOut).2
    = layoutManager laidOut.
Proof.
  assert (Hidle : isProcessing laidOut = false) by (vm_compute; reflexivity).
  assert (Hne : [card 3 "LI"] ≠ []) by discriminate.
  assert (Hnd : NoDup (List.filter tagAccepted [card 3 "LI"]))
    by (apply (bool_decide_unpack _); vm_compute; reflexivity).
  assert (Hcap : count (options laidOut) ≤ 0
                 ∨ (s_isRecycling (_status laidOut) = false
                    ∧ Z.of_nat (length (items (layoutManager laidOut)))
                      + Z.of_nat
                          (length (List.filter tagAccepted [card 3 "LI"]))
                      < count (options laidOut)))
    by (right; split; vm_compute; reflexivity).
  destruct (insert_below_capacity_removes_nothing [card 3 "LI"] None false
              laidOut Hidle Hne Hnd Hcap) as (Hret & Hlm & _).
  split_and!; [exact Hidle | exact Hret | exact Hlm].
Defined.

(** X4 at work: the window holds two cards that [clear()] took out of the
    container, and nothing is pending; the next [append] has to evict them
    and throws.  A scroll signal, a callback and another [append] later the
    flag is still set. *)
Lemma insert_that_throws_leaves_the_flag_set_witness :
  isProcessing detachedWindow = false
  ∧ (append [card 3 "LI"; card 4 "LI"] (key 2) detachedWindow).1
    = Throw "TypeError: parentNode is null"
  ∧ isProcessing (append [card 3 "LI"; card 4 "LI"] (key 2) detachedWindow).2
    = true
  ∧ append [card 5 "LI"] (key 3)
      (append [card 3 "LI"; card 4 "LI"] (key 2) detachedWindow).2
    = (Return 0,
       (append [card 3 "LI"; card 4 "LI"] (key 2) detachedWindow).2)
  ∧ isProcessing
      (run [OpScroll 100 flat; OpFire 1; OpAppend [card 5 "LI"] (key 3)]
         (append [card 3 "LI"; card 4 "LI"] (key 2) detachedWindow).2)
    = true.
Proof.
  assert (Hidle : isProcessing detachedWindow = false)
    by (vm_compute; reflexivity).
  assert (Hthrow : (_insert [card 3 "LI"; card 4 "LI"] (key 2) true
                      detachedWindow).1
                   = Throw "TypeError: parentNode is null")
    by (vm_compute; reflexivity).
  assert (Hnone : pending (sched detachedWindow) = [])
    by (vm_compute; reflexivity).
  assert (Hops : Forall (λ op : Op (LMStatus:=LMState), restarts op = false)
                   [OpScroll 100 flat; OpFire 1;
                    OpAppend [card 5 "LI"] (key 3)])
    by (repeat constructor).
  destruct (insert_that_throws_leaves_the_flag_set
              [card 3 "LI"; card 4 "LI"] (key 2) true detachedWindow _
              Hidle Hthrow) as (Hflag & _ & _ & Hnext & Hstuck).
  destruct (Hstuck Hnone _ Hops) as (Hstay & _).
  split_and!; [exact Hidle | exact Hthrow | exact Hflag | | exact Hstay].
  exact (Hnext [card 5 "LI"] (key 3) true).
Defined.

(** X5 at work: [layout(true)] while a cycle is in flight, and the callback
    of the new cycle. *)
Lemma layout_is_answered_by_one_layoutComplete_witness :
  freshHandle busy
  ∧ isProcessing (fire (nextId (sched busy)) (layout true None None busy))
    = false
  ∧ pending (sched (fire (nextId (sched busy))
                      (layout true None None busy)))
    = pending (sched busy).
Proof.
  assert (Hfresh : freshHandle busy).
  { intros e He. vm_compute in He. destruct He as [<- | []]. vm_compute.
    discriminate. }
  destruct (layout_is_answered_by_one_layoutComplete true None None busy
              Hfresh) as (distance & _ & _ & Hflag & Hpending & _).
  split_and!; [exact Hfresh | exact Hflag | exact Hpending].
Defined.

(** X6 at work: a scroll signal on an idle instance. *)
Lemma idle_instance_triggers_no_layoutComplete_witness :
  isProcessing laidOut = false
  ∧ completions (events (step (OpScroll 300 flat) laidOut))
    = completions (events laidOut).
Proof.
  assert (Hidle : isProcessing laidOut = false) by (vm_compute; reflexivity).
  split; [exact Hidle |].
  exact (idle_instance_triggers_no_layoutComplete (OpScroll 300 flat) laidOut
           Hidle).
Defined.

(** X7 at work: the completion of the cycle that appended one card. *)
Lemma postLayout_append_leaves_the_viewport_witness :
  isProcessing busy = true
  ∧ view (_postLayout false (Some (itemize [card 1 "DIV"] None))
            {| isAppend := true; removedCount := 0 |} busy)
    = view busy
  ∧ isProcessing (_postLayout false (Some (itemize [card 1 "DIV"] None))
                    {| isAppend := true; removedCount := 0 |} busy)
    = false.
Proof.
  assert (Hbusy : isProcessing busy = true) by (vm_compute; reflexivity).
  destruct (postLayout_append_leaves_the_viewport false
              (Some (itemize [card 1 "DIV"] None))
              {| isAppend := true; removedCount := 0 |} busy Hbusy eq_refl)
    as (_ & Hflag & Hview & _).
  split_and!; [exact Hbusy | exact Hview | exact Hflag].
Defined.

(** X8 at work: three groups laid out, the user scrolls down to 300. *)
Lemma onScroll_append_within_threshold_witness :
  bottomEdge (scrollTo 300 (run threeGroups (grid 4))) = Some (card 6 "LI")
  ∧ prevScrollTop
      (_status (_onScroll flat (scrollTo 300 (run threeGroups (grid 4)))))
    = 300.
Proof.
  assert (Hidle : isProcessing (scrollTo 300 (run threeGroups (grid 4)))
                  = false) by (vm_compute; reflexivity).
  assert (Hios : IS_IOS
                 && (scrollY (view (scrollTo 300 (run threeGroups (grid 4))))
                     =? 0) = false) by (vm_compute; reflexivity).
  assert (Hdown : prevScrollTop
                    (_status (scrollTo 300 (run threeGroups (grid 4))))
                  < scrollY (view (scrollTo 300 (run threeGroups (grid 4)))))
    by (vm_compute; reflexivity).
  assert (Hedge : bottomEdge (scrollTo 300 (run threeGroups (grid 4)))
                  = Some (card 6 "LI")) by (vm_compute; reflexivity).
  destruct (onScroll_append_within_threshold flat
              (scrollTo 300 (run threeGroups (grid 4))) (card 6 "LI")
              Hidle Hios Hdown Hedge) as (_ & Hprev & _).
  split; [exact Hedge | exact Hprev].
Defined.

(** X9 at work: a scroll signal on an instance with an empty window. *)
Lemma onScroll_without_edge_is_a_noop_witness :
  bottomEdge (scrollTo 100 (grid 30)) = None
  ∧ _onScroll flat (scrollTo 100 (grid 30)) = scrollTo 100 (grid 30).
Proof.
  assert (Hdown : prevScrollTop (_status (scrollTo 100 (grid 30)))
                  < scrollY (view (scrollTo 100 (grid 30))))
    by (vm_compute; reflexivity).
  assert (Hedge : bottomEdge (scrollTo 100 (grid 30)) = None)
    by (vm_compute; reflexivity).
  split; [exact Hedge |].
  exact (onScroll_without_edge_is_a_noop flat (scrollTo 100 (grid 30))
           (or_introl (conj Hdown Hedge))).
Defined.

(** X10 at work: the user moves up from 300 to 120 while the top card is
    far above the viewport. *)
Lemma onScroll_up_beyond_threshold_witness :
  topEdge scrolledUp = Some (card 3 "LI")
  ∧ events (_onScroll farAbove scrolledUp) = events scrolledUp
  ∧ prevScrollTop (_status (_onScroll farAbove scrolledUp)) = 120.
Proof.
  assert (Hidle : isProcessing scrolledUp = false)
    by (vm_compute; reflexivity).
  assert (Hios : IS_IOS && (scrollY (view scrolledUp) =? 0) = false)
    by (vm_compute; reflexivity).
  assert (Hup : scrollY (view scrolledUp) < prevScrollTop (_status scrolledUp))
    by (vm_compute; reflexivity).
  assert (Hedge : topEdge scrolledUp = Some (card 3 "LI"))
    by (vm_compute; reflexivity).
  assert (Hfar : rect_bottom (farAbove (card 3 "LI"))
                 < - threshold (options scrolledUp))
    by (vm_compute; reflexivity).
  destruct (onScroll_up_beyond_threshold farAbove scrolledUp (card 3 "LI")
              Hidle Hios Hup Hedge Hfar) as (Hev & Hprev & _).
  split_and!; [exact Hedge | exact Hev | exact Hprev].
Defined.

(** X12 at work: two resize signals on a fresh instance. *)
Lemma resize_signals_leave_one_callback_witness :
  attached (grid 30) = true
  ∧ length (resizeCallbacks (run [OpResize 500 2; OpResize 400 3] (grid 30)))
    = 1%nat.
Proof.
  assert (Hon : attached (grid 30) = true) by (vm_compute; reflexivity).
  assert (Hdeb : resizeDebounced (grid 30))
    by exact (proj1 (constructor_resizeDebounced emptyGrid (withCount 30)
                       atTop)).
  assert (Hne : [(500, 2%nat); (400, 3%nat)] ≠ []) by discriminate.
  destruct (resize_signals_leave_one_callback [(500, 2%nat); (400, 3%nat)]
              (grid 30) Hon Hdeb Hne) as (Hone & _).
  split; [exact Hon | exact Hone].
Defined.

(** X13 at work: two cards laid out and the user at offset 0, which is the
    remembered offset; after the resize callback a signal for offset 0 is
    evaluated. *)
Lemma scroll_after_resize_is_evaluated_witness :
  prevScrollTop (_status laidOut) = 0
  ∧ prevScrollTop (_status (resizeCallback laidOut)) = -1
  ∧ prevScrollTop
      (_status (_onScroll flat (scrollTo 0 (resizeCallback laidOut)))) = 0
  ∧ events (_onScroll flat (scrollTo 0 (resizeCallback laidOut)))
    = events laidOut ++ [EvAppend 0].
Proof.
  assert (Hprev : prevScrollTop (_status laidOut) = 0)
    by (vm_compute; reflexivity).
  assert (Hidle : isProcessing laidOut = false) by (vm_compute; reflexivity).
  assert (Hsize : isNeededResize (el laidOut) (layoutManager laidOut) = false)
    by (vm_compute; reflexivity).
  assert (Hy : 0 ≤ 0) by lia.
  assert (Hios : IS_IOS && (0 =? 0) = false) by (vm_compute; reflexivity).
  assert (Hedge : bottomEdge laidOut = Some (card 2 "LI"))
    by (vm_compute; reflexivity).
  destruct (scroll_after_resize_is_evaluated flat laidOut 0 (card 2 "LI")
              Hidle Hsize Hy Hios Hedge) as (_ & Hreset & Hev & Hnow).
  split_and!; [exact Hprev | exact Hreset | exact Hnow | exact Hev].
Defined.

(** X14 at work: a scroll and a resize signal after [destroy()]. *)
Lemma destroyed_instance_ignores_signals_witness :
  events (run [OpScroll 300 flat; OpResize 500 3] (destroy laidOut))
  = events laidOut
  ∧ sched (run [OpScroll 300 flat; OpResize 500 3] (destroy laidOut))
    = sched laidOut.
Proof.
  assert (Hsig : Forall (λ op : Op (LMStatus:=LMState), isSignal op = true)
                   [OpScroll 300 flat; OpResize 500 3])
    by (repeat constructor).
  destruct (destroyed_instance_ignores_signals
              [OpScroll 300 flat; OpResize 500 3] laidOut Hsig)
    as (_ & Hev & Hsched & _).
  split; [exact Hev | exact Hsched].
Defined.


(** X16 at work: a grid that recycles receives a scroll signal. *)
Lemma recycling_stays_on_witness :
  isRecycling (run threeGroups (grid 4)) = true
  ∧ isRecycling (step (OpScroll 300 flat) (run threeGroups (grid 4))) = true.
Proof.
  assert (Hon : isRecycling (run threeGroups (grid 4)) = true)
    by (vm_compute; reflexivity).
  split; [exact Hon |].
  exact (recycling_stays_on (OpScroll 300 flat) (run threeGroups (grid 4))
           eq_refl Hon).
Defined.

(** X17 at work: the snapshot of two laid-out cards, restored into an
    instance that has a cycle in flight. *)
Lemma setStatus_restores_flags_not_callbacks_witness :
  isProcessing (setStatus (Some (getStatus laidOut)) busy) = false
  ∧ sched (setStatus (Some (getStatus laidOut)) busy) = sched busy
  ∧ children (el (setStatus (Some (getStatus laidOut)) busy))
    = children (el laidOut).
Proof.
  assert (Hhtml : children (el laidOut) ≠ []) by (vm_compute; discriminate).
  assert (Hcss : cssIsEmpty (style (el laidOut)) = false)
    by (vm_compute; reflexivity).
  destruct (setStatus_restores_flags_not_callbacks laidOut busy Hhtml Hcss)
    as (Hflag & _ & _ & _ & _ & Hch & _ & Hsched & _).
  split_and!; [rewrite Hflag; vm_compute; reflexivity | exact Hsched
              | exact Hch].
Defined.

(** X18 at work: a fresh instance on an empty container. *)
Lemma constructor_starts_first_layout_witness :
  isProcessing (grid 30) = false ∧ pending (sched (grid 30)) = [].
Proof.
  destruct (constructor_starts_first_layout emptyGrid (withCount 30) atTop)
    as (_ & _ & _ & _ & _ & _ & Hempty & _).
  exact (Hempty eq_refl).
Defined.

(** X20 at work: the snapshot of an empty instance is refused. *)
Lemma setStatus_rejects_empty_strings_witness :
  setStatus (Some (getStatus (grid 30))) laidOut = laidOut.
Proof.
  destruct (setStatus_rejects_empty_strings noMarkup (grid 30) laidOut)
    as [_ Hrefused].
  apply Hrefused. left. vm_compute. reflexivity.
Defined.

(** X21 at work: the poll armed by a prepend at offset 0 runs once. *)
Lemma one_poll_at_a_time_witness :
  doubleCheck (_timer armed) = Some 2%nat
  ∧ onePoll (step (OpTick 2) armed).
Proof.
  assert (Hlive : intervals (sched armed) = {[2%nat]})
    by (vm_compute; reflexivity).
  assert (Hheld : doubleCheck (_timer armed) = Some 2%nat)
    by (vm_compute; reflexivity).
  assert (Hone : onePoll armed).
  { intros id Hid. rewrite Hlive in Hid.
    apply elem_of_singleton in Hid as ->. exact Hheld. }
  split; [exact Hheld |].
  exact (one_poll_at_a_time (OpTick 2) armed eq_refl Hone).
Defined.

(** X22 at work: cards 1 and 2 are evicted; the batch holds cards 2 and 3,
    the container cards 1 and 4.  Card 2 leaves the batch, card 1 the
    container. *)
Lemma eviction_releases_each_element_witness :
  releaseTargets evicted [card 2 "LI"; card 3 "LI"] twoChildren
  = (Return (), [card 3 "LI"], set_children [card 4 "LI"] twoChildren).
Proof.
  assert (Hnd : NoDup (i_el <$> evicted))
    by (apply (bool_decide_unpack _); vm_compute; reflexivity).
  assert (Hbatch : NoDup [card 2 "LI"; card 3 "LI"])
    by (apply (bool_decide_unpack _); vm_compute; reflexivity).
  assert (Hall : ∀ x, x ∈ i_el <$> evicted →
                      x ∈ [card 2 "LI"; card 3 "LI"]
                      ∨ x ∈ children twoChildren).
  { intros x Hx. vm_compute in Hx.
    apply elem_of_cons in Hx as [-> | Hx]; [right; left |].
    apply elem_of_cons in Hx as [-> | Hx]; [left; left |].
    by apply elem_of_nil in Hx. }
  rewrite (eviction_releases_each_element evicted
             [card 2 "LI"; card 3 "LI"] twoChildren Hnd Hbatch Hall).
  vm_compute. reflexivity.
Defined.

(** X23 at work: card 1 is evicted and is neither in the batch nor in the
    container. *)
Lemma eviction_of_detached_element_throws_witness :
  ∃ e, (releaseTargets evicted [] emptyGrid).1.1 = Throw e.
Proof.
  assert (Hnd : NoDup (i_el <$> evicted))
    by (apply (bool_decide_unpack _); vm_compute; reflexivity).
  assert (Hin : card 1 "LI" ∈ i_el <$> evicted) by (vm_compute; left).
  assert (Hbatch : card 1 "LI" ∉ []) by apply not_elem_of_nil.
  assert (Hchild : card 1 "LI" ∉ children emptyGrid)
    by apply not_elem_of_nil.
  exact (eviction_of_detached_element_throws evicted [] emptyGrid
           (card 1 "LI") Hnd Hin Hbatch Hchild).
Defined.

(** X24 at work: three cards on their way to the bottom of an empty grid of
    capacity 2; the first one is cut. *)
Lemma oversized_batch_is_trimmed_witness :
  isRecycling stagedThree = true
  ∧ _adjustRange true threeCards stagedThree
    = (Return 1, [card 2 "LI"; card 3 "LI"], stagedThree).
Proof.
  assert (Hon : isRecycling stagedThree = true) by (vm_compute; reflexivity).
  assert (Hlen : count (options stagedThree) ≤ Z.of_nat (length threeCards))
    by (vm_compute; discriminate).
  destruct (oversized_batch_is_trimmed true threeCards stagedThree Hon Hlen)
    as [_ Hcut].
  split; [exact Hon |].
  rewrite Hcut by (vm_compute; reflexivity).
  vm_compute. reflexivity.
Defined.

End CoverageScenarios.
